(** * limitup_lab: labeling, streak detection, forward returns and backtest

    A shallow embedding of the core of [limitup_lab] (labels.py, limits.py,
    streaks.py, returns.py, fill_models.py, strategy_base.py, backtest.py)
    together with the properties its specification states about it.

    Conventions of the embedding:
    - a pandas float cell is an [option Q]: [None] is NaN, [Some q] a finite
      value; every float operation of the code is the exact operation
      followed by [Double.binary64], the rounding to the nearest double, and
      comparisons are exact; the exponent range of the format (overflow to
      infinity, subnormal numbers) is not modelled;
    - a Python exception is the [Raise] branch of [result];
    - a row handed to the fill models ([Mapping[str, object]]) is a
      [gmap string PyVal];
    - a DataFrame is the list of its rows, each row carrying its index label. *)

From Stdlib Require Import ZArith QArith Qabs Qround Qpower Qfield Lqa.
From Stdlib Require Import String Ascii List Lia.
From Stdlib Require Import DecimalString.
From stdpp Require Import base option gmap strings list sorting.

(** ** Python values, exceptions and text helpers *)

Module Py.

Inductive PyExn :=
  ValueError | InvalidOperation | ZeroDivisionError | AttributeError.

Inductive result (A : Type) : Type :=
| Ok (a : A)
| Raise (e : PyExn).
Arguments Ok {A} a.
Arguments Raise {A} e.

Definition bind {A B} (r : result A) (k : A → result B) : result B :=
  match r with
  | Ok a => k a
  | Raise e => Raise e
  end.

(** Run [f] over a list, stopping at the first exception. *)
Fixpoint map_result {A B} (f : A → result B) (l : list A) : result (list B) :=
  match l with
  | [] => Ok []
  | x :: rest =>
      bind (f x) (fun y => bind (map_result f rest) (fun ys => Ok (y :: ys)))
  end.

(** A float cell: [None] is NaN. *)
Abbreviation cell := (option Q).

(** The values a cell of an object column can hold. *)
Inductive PyVal :=
| PyNone
| PyBool (b : bool)
| PyInt (z : Z)
| PyFloat (x : cell)
| PyStr (s : string).

(** Text is a string of bytes.  The helpers below are Python's [str.strip],
    [str.lower] and [str.upper] on ASCII text; Python's methods also strip
    the white space and map the letters outside ASCII, which these leave as
    they are.  The spellings the code compares with are all ASCII. *)
Definition is_space (c : ascii) : bool :=
  let n := N_of_ascii c in
  ((n =? 32) || ((9 <=? n) && (n <=? 13)) || ((28 <=? n) && (n <=? 31)))%N.

Fixpoint lstrip (s : string) : string :=
  match s with
  | EmptyString => EmptyString
  | String c s' => if is_space c then lstrip s' else s
  end.

Definition rstrip (s : string) : string := String.rev (lstrip (String.rev s)).
Definition strip (s : string) : string := rstrip (lstrip s).

Definition lower_char (c : ascii) : ascii :=
  let n := N_of_ascii c in
  if ((65 <=? n) && (n <=? 90))%N then ascii_of_N (n + 32) else c.

Definition upper_char (c : ascii) : ascii :=
  let n := N_of_ascii c in
  if ((97 <=? n) && (n <=? 122))%N then ascii_of_N (n - 32) else c.

Fixpoint map_chars (f : ascii → ascii) (s : string) : string :=
  match s with
  | EmptyString => EmptyString
  | String c s' => String (f c) (map_chars f s')
  end.

Definition lower : string → string := map_chars lower_char.
Definition upper : string → string := map_chars upper_char.

(** ASCII text: every character code is below 128. *)
Fixpoint is_ascii (s : string) : bool :=
  match s with
  | EmptyString => true
  | String c s' => (N_of_ascii c <? 128)%N && is_ascii s'
  end.

(** [str(z)] for an integer. *)
Definition str_int (z : Z) : string := NilZero.string_of_int (Z.to_int z).

(** [text in {...}] for a set literal of strings. *)
Definition str_in (s : string) (l : list string) : bool :=
  existsb (String.eqb s) l.

End Py.
Export Py.

Notation "'let!' x ':=' r 'in' k" := (Py.bind r (fun x => k))
  (at level 10, x pattern, r at level 100, k at level 200, only parsing).

(** ** Python floats: rounding to the nearest double *)

Module Double.

(** Round to the nearest integer, ties to the even one. *)
Definition round_half_even (t : Q) : Z :=
  let f := Qfloor t in
  match (t - inject_Z f ?= 1 # 2)%Q with
  | Lt => f
  | Gt => (f + 1)%Z
  | Eq => if Z.even f then f else (f + 1)%Z
  end.

(** For [x > 0], the [l] with [2^l <= x < 2^(l+1)]. *)
Definition floor_log2 (x : Q) : Z :=
  let l := (Z.log2 (Qnum x) - Z.log2 (Zpos (Qden x)))%Z in
  if Qle_bool (2 ^ l) x then l else (l - 1)%Z.

(** The nearest number with 53 significant bits, ties to even. *)
Definition nearest (x : Q) : Q :=
  let e := (floor_log2 x - 52)%Z in
  (inject_Z (round_half_even (x / 2 ^ e)) * 2 ^ e)%Q.

(** The double nearest to [x] (round to nearest, ties to even); the
    exponent range of the format is not modelled. *)
Definition binary64 (x : Q) : Q :=
  match Qnum x with
  | Z0 => 0
  | Zpos _ => Qred (nearest x)
  | Zneg _ => Qred (- nearest (- x))
  end.

Lemma round_half_even_comp (t t' : Q) :
  (t == t')%Q → round_half_even t = round_half_even t'.
Proof.
  intros H. unfold round_half_even.
  rewrite (Qfloor_comp _ _ H).
  assert ((t - inject_Z (Qfloor t') ?= 1 # 2)%Q
          = (t' - inject_Z (Qfloor t') ?= 1 # 2)%Q) as ->; [|done].
  apply Qcompare_comp; [by rewrite H|reflexivity].
Qed.

Lemma round_half_even_near (t : Q) :
  (inject_Z (round_half_even t) - (1 # 2) <= t
   ∧ t <= inject_Z (round_half_even t) + (1 # 2))%Q.
Proof.
  unfold round_half_even.
  pose proof (Qfloor_le t) as Hlo. pose proof (Qlt_floor t) as Hhi.
  rewrite inject_Z_plus in Hhi. change (inject_Z 1) with 1%Q in Hhi.
  destruct (_ ?= _)%Q eqn:Hcmp.
  - apply Qeq_alt in Hcmp.
    destruct (Z.even (Qfloor t)); rewrite ?inject_Z_plus;
      change (inject_Z 1) with 1%Q; split; lra.
  - apply Qlt_alt in Hcmp. split; lra.
  - apply Qgt_alt in Hcmp. rewrite inject_Z_plus.
    change (inject_Z 1) with 1%Q. split; lra.
Qed.

Lemma inject_Z_half_le (a b : Z) :
  (inject_Z a <= inject_Z b + (1 # 2))%Q → (a <= b)%Z.
Proof.
  intros H. destruct (Z_le_gt_dec a b) as [|Hgt]; [done|exfalso].
  assert (b + 1 <= a)%Z as Hz by lia.
  rewrite Zle_Qle, inject_Z_plus in Hz. change (inject_Z 1) with 1%Q in Hz. lra.
Qed.

Lemma round_half_even_mono (t t' : Q) :
  (t <= t')%Q → (round_half_even t <= round_half_even t')%Z.
Proof.
  intros Hle.
  destruct (Z_le_gt_dec (round_half_even t) (round_half_even t')) as [|Hgt];
    [done|exfalso].
  pose proof (round_half_even_near t) as [H1 _].
  pose proof (round_half_even_near t') as [_ H2].
  assert (round_half_even t' + 1 <= round_half_even t)%Z as Hz by lia.
  rewrite Zle_Qle, inject_Z_plus in Hz. change (inject_Z 1) with 1%Q in Hz.
  assert (t == t')%Q as Heq by lra.
  apply round_half_even_comp in Heq. lia.
Qed.

Lemma round_half_even_ge (a : Z) (t : Q) :
  (inject_Z a <= t)%Q → (a <= round_half_even t)%Z.
Proof.
  intros H. pose proof (round_half_even_near t) as [_ H2].
  apply inject_Z_half_le. lra.
Qed.

Lemma round_half_even_le (b : Z) (t : Q) :
  (t <= inject_Z b)%Q → (round_half_even t <= b)%Z.
Proof.
  intros H. pose proof (round_half_even_near t) as [H1 _].
  apply inject_Z_half_le. lra.
Qed.

Lemma two_power_pos (k : Z) : (0 < 2 ^ k)%Q.
Proof. apply Qpower_0_lt. reflexivity. Qed.

Lemma two_power_plus (a b : Z) : (2 ^ (a + b) == 2 ^ a * 2 ^ b)%Q.
Proof. apply Qpower_plus. discriminate. Qed.

Lemma two_power_nonneg (k : Z) : (0 <= k)%Z → (2 ^ k == inject_Z (2 ^ k))%Q.
Proof. intros Hk. symmetry. exact (Zpower_Qpower 2 k Hk). Qed.

Lemma two_power_ge_1 (k : Z) : (0 <= k)%Z → (1 <= 2 ^ k)%Q.
Proof.
  intros Hk. rewrite (two_power_nonneg k Hk).
  change 1%Q with (inject_Z 1). rewrite <- Zle_Qle.
  pose proof (Z.pow_pos_nonneg 2 k). lia.
Qed.

Lemma two_power_mono (a b : Z) : (a <= b)%Z → (2 ^ a <= 2 ^ b)%Q.
Proof.
  intros Hab. replace b with (a + (b - a))%Z by lia.
  rewrite two_power_plus.
  pose proof (two_power_pos a). pose proof (two_power_ge_1 (b - a)).
  assert (2 ^ a * 1 <= 2 ^ a * 2 ^ (b - a))%Q.
  { apply Qmult_le_l; [done|]. apply H0. lia. }
  lra.
Qed.

Lemma floor_log2_spec (x : Q) :
  (0 < x)%Q → (2 ^ floor_log2 x <= x ∧ x < 2 ^ (floor_log2 x + 1))%Q.
Proof.
  intros Hx. destruct x as [n d]. unfold floor_log2. cbn [Qnum Qden].
  assert (0 < n)%Z as Hn by (unfold Qlt in Hx; simpl in Hx; lia).
  set (ln := Z.log2 n). set (ld := Z.log2 (Zpos d)).
  pose proof (Z.log2_spec n Hn) as [Hn1 Hn2].
  pose proof (Z.log2_spec (Zpos d) ltac:(lia)) as [Hd1 Hd2].
  fold ln in Hn1, Hn2. fold ld in Hd1, Hd2.
  assert (0 <= ln)%Z as Hln by apply Z.log2_nonneg.
  assert (0 <= ld)%Z as Hld by apply Z.log2_nonneg.
  rewrite Zle_Qle in Hn1, Hd1. rewrite Zlt_Qlt in Hn2, Hd2.
  rewrite <- two_power_nonneg in Hn1, Hd1 by done.
  rewrite <- two_power_nonneg in Hn2, Hd2 by lia.
  assert (Hval : (n # d == inject_Z n / inject_Z (Zpos d))%Q)
    by apply Qmake_Qdiv.
  pose proof (two_power_pos ld) as Hpd. pose proof (two_power_pos (ln - ld)) as Hp.
  assert (Hdpos : (0 < inject_Z (Zpos d))%Q) by (unfold Qlt; simpl; lia).
  assert (Hsplit : (2 ^ ln == 2 ^ (ln - ld) * 2 ^ ld)%Q).
  { rewrite <- two_power_plus. by replace (ln - ld + ld)%Z with ln by lia. }
  assert (Hsucc : ∀ k, (2 ^ Z.succ k == 2 * 2 ^ k)%Q).
  { intros k. unfold Z.succ. rewrite Z.add_comm, two_power_plus. reflexivity. }
  rewrite Hsucc in Hn2, Hd2.
  (* 2^(l-1) < x < 2^(l+1) *)
  assert (Hup : (n # d < 2 * 2 ^ (ln - ld))%Q).
  { rewrite Hval. apply Qlt_shift_div_r; [done|].
    apply Qlt_le_trans with (2 * 2 ^ ln)%Q; [done|].
    rewrite Hsplit.
    assert (2 ^ (ln - ld) * 2 ^ ld <= 2 ^ (ln - ld) * inject_Z (Z.pos d))%Q
      by (apply Qmult_le_l; done).
    lra. }
  assert (Hdown : (2 ^ (ln - ld) < 2 * (n # d))%Q).
  { rewrite Hval.
    assert (2 ^ (ln - ld) * inject_Z (Z.pos d) < 2 * inject_Z n)%Q.
    { apply Qlt_le_trans with (2 ^ (ln - ld) * (2 * 2 ^ ld))%Q.
      - apply Qmult_lt_l; done.
      - lra. }
    apply Qlt_shift_div_l in H; [|done].
    unfold Qdiv in *. lra. }
  destruct (Qle_bool (2 ^ (ln - ld)) (n # d)) eqn:Hle.
  - apply Qle_bool_iff in Hle. split; [done|].
    rewrite Z.add_1_r, Hsucc. done.
  - assert (n # d < 2 ^ (ln - ld))%Q as Hlt.
    { apply Qnot_le_lt. intros H. apply Qle_bool_iff in H. congruence. }
    replace (ln - ld - 1 + 1)%Z with (ln - ld)%Z by lia.
    split; [|done].
    assert (2 ^ (ln - ld) == 2 * 2 ^ (ln - ld - 1))%Q as Heq.
    { rewrite <- Hsucc. by replace (Z.succ (ln - ld - 1)) with (ln - ld)%Z by lia. }
    lra.
Qed.


Lemma two_power_lt_inv (a b : Z) : (2 ^ a < 2 ^ b)%Q → (a < b)%Z.
Proof.
  intros H. destruct (Z_lt_le_dec a b) as [|Hle]; [done|exfalso].
  apply two_power_mono in Hle. lra.
Qed.

Lemma floor_log2_mono (x y : Q) :
  (0 < x)%Q → (x <= y)%Q → (floor_log2 x <= floor_log2 y)%Z.
Proof.
  intros Hx Hxy.
  destruct (floor_log2_spec x Hx) as [Hx1 _].
  destruct (floor_log2_spec y) as [_ Hy2]; [lra|].
  assert (floor_log2 x < floor_log2 y + 1)%Z; [|lia].
  apply two_power_lt_inv. lra.
Qed.

Lemma scaled_bounds (x : Q) :
  (0 < x)%Q →
  (inject_Z (2 ^ 52) <= x / 2 ^ (floor_log2 x - 52)
   ∧ x / 2 ^ (floor_log2 x - 52) <= inject_Z (2 ^ 53))%Q.
Proof.
  intros Hx. destruct (floor_log2_spec x Hx) as [H1 H2].
  pose proof (two_power_pos (floor_log2 x - 52)) as Hp.
  rewrite <- !two_power_nonneg by lia.
  assert (2 ^ floor_log2 x == 2 ^ 52 * 2 ^ (floor_log2 x - 52))%Q as E1.
  { rewrite <- two_power_plus. by replace (52 + (floor_log2 x - 52))%Z
      with (floor_log2 x) by lia. }
  assert (2 ^ (floor_log2 x + 1) == 2 ^ 53 * 2 ^ (floor_log2 x - 52))%Q as E2.
  { rewrite <- two_power_plus. by replace (53 + (floor_log2 x - 52))%Z
      with (floor_log2 x + 1)%Z by lia. }
  split.
  - apply Qle_shift_div_l; [done|]. lra.
  - apply Qle_shift_div_r; [done|]. lra.
Qed.

Lemma nearest_bounds (x : Q) :
  (0 < x)%Q →
  (2 ^ floor_log2 x <= nearest x ∧ nearest x <= 2 ^ (floor_log2 x + 1))%Q.
Proof.
  intros Hx. destruct (scaled_bounds x Hx) as [H1 H2].
  apply round_half_even_ge in H1. apply round_half_even_le in H2.
  rewrite Zle_Qle in H1, H2. rewrite <- !two_power_nonneg in H1, H2 by lia.
  pose proof (two_power_pos (floor_log2 x - 52)) as Hp.
  unfold nearest.
  set (m := inject_Z (round_half_even (x / 2 ^ (floor_log2 x - 52)))) in *.
  assert (2 ^ floor_log2 x == 2 ^ 52 * 2 ^ (floor_log2 x - 52))%Q as E1.
  { rewrite <- two_power_plus. by replace (52 + (floor_log2 x - 52))%Z
      with (floor_log2 x) by lia. }
  assert (2 ^ (floor_log2 x + 1) == 2 ^ 53 * 2 ^ (floor_log2 x - 52))%Q as E2.
  { rewrite <- two_power_plus. by replace (53 + (floor_log2 x - 52))%Z
      with (floor_log2 x + 1)%Z by lia. }
  rewrite E1, E2. split; apply Qmult_le_compat_r; (done || lra).
Qed.

Lemma nearest_mono (x y : Q) :
  (0 < x)%Q → (x <= y)%Q → (nearest x <= nearest y)%Q.
Proof.
  intros Hx Hxy. assert (0 < y)%Q as Hy by lra.
  pose proof (floor_log2_mono x y Hx Hxy) as Hlog.
  destruct (Z.eq_dec (floor_log2 x) (floor_log2 y)) as [Heq|Hne].
  - unfold nearest. rewrite Heq.
    pose proof (two_power_pos (floor_log2 y - 52)) as Hp.
    apply Qmult_le_compat_r; [|lra].
    rewrite <- Zle_Qle. apply round_half_even_mono.
    apply Qmult_le_compat_r; [done|].
    apply Qlt_le_weak, Qinv_lt_0_compat, Hp.
  - destruct (nearest_bounds x Hx) as [_ H1].
    destruct (nearest_bounds y Hy) as [H2 _].
    assert (2 ^ (floor_log2 x + 1) <= 2 ^ floor_log2 y)%Q
      by (apply two_power_mono; lia).
    lra.
Qed.

Lemma nearest_pos (x : Q) : (0 < x)%Q → (0 < nearest x)%Q.
Proof.
  intros Hx. destruct (nearest_bounds x Hx) as [H _].
  pose proof (two_power_pos (floor_log2 x)). lra.
Qed.

Lemma Qnum_sign (x : Q) :
  match Qnum x with
  | Z0 => (x == 0)%Q
  | Zpos _ => (0 < x)%Q
  | Zneg _ => (x < 0)%Q
  end.
Proof. destruct x as [[|n|n] d]; unfold Qeq, Qlt; simpl; lia. Qed.

Lemma binary64_zero (x : Q) : (x == 0)%Q → binary64 x = 0%Q.
Proof.
  intros H. unfold binary64. pose proof (Qnum_sign x) as Hs.
  destruct (Qnum x); [done|lra|lra].
Qed.

Lemma binary64_of_pos (x : Q) : (0 < x)%Q → binary64 x = Qred (nearest x).
Proof.
  intros H. unfold binary64. pose proof (Qnum_sign x) as Hs.
  destruct (Qnum x); [lra|done|lra].
Qed.

Lemma binary64_of_neg (x : Q) :
  (x < 0)%Q → binary64 x = Qred (- nearest (- x)).
Proof.
  intros H. unfold binary64. pose proof (Qnum_sign x) as Hs.
  destruct (Qnum x); [lra|lra|done].
Qed.

(** Rounding is monotone. *)
Lemma binary64_mono (x y : Q) : (x <= y)%Q → (binary64 x <= binary64 y)%Q.
Proof.
  intros Hxy.
  destruct (Q_dec x 0) as [[Hx|Hx]|Hx], (Q_dec y 0) as [[Hy|Hy]|Hy];
    try lra;
    rewrite ?(binary64_of_pos x), ?(binary64_of_neg x), ?(binary64_zero x),
      ?(binary64_of_pos y), ?(binary64_of_neg y), ?(binary64_zero y) by done;
    rewrite ?Qred_correct.
  - assert (nearest (- y) <= nearest (- x))%Q by (apply nearest_mono; lra). lra.
  - pose proof (nearest_pos (- x)). pose proof (nearest_pos y). lra.
  - pose proof (nearest_pos (- x)). lra.
  - by apply nearest_mono.
  - pose proof (nearest_pos y). lra.
  - lra.
Qed.

(** Rounding depends on the value only, and the result is in lowest terms. *)
Lemma binary64_comp (x y : Q) : (x == y)%Q → binary64 x = binary64 y.
Proof.
  intros Hxy.
  assert (binary64 x == binary64 y)%Q as H.
  { apply Qle_antisym; apply binary64_mono; lra. }
  assert (∀ z, Qred (binary64 z) = binary64 z) as Hred.
  { intros z. unfold binary64.
    destruct (Qnum z); [done|apply Qred_complete, Qred_correct..]. }
  rewrite <- (Hred x), <- (Hred y). by apply Qred_complete.
Qed.

Lemma binary64_nonneg (x : Q) : (0 <= x)%Q → (0 <= binary64 x)%Q.
Proof. intros H. apply (binary64_mono 0 x H). Qed.

Lemma binary64_pos (x : Q) : (0 < x)%Q → (0 < binary64 x)%Q.
Proof.
  intros H. rewrite binary64_of_pos, Qred_correct by done. by apply nearest_pos.
Qed.

Lemma binary64_1 : binary64 1 = 1%Q.
Proof. vm_compute. reflexivity. Qed.

Lemma binary64_minus_1 : binary64 (- (1)) = (- (1))%Q.
Proof. vm_compute. reflexivity. Qed.

Lemma binary64_10000 : binary64 10000 = 10000%Q.
Proof. vm_compute. reflexivity. Qed.

Lemma binary64_le_1 (x : Q) : (x <= 1)%Q → (binary64 x <= 1)%Q.
Proof. intros H. apply (binary64_mono x 1 H). Qed.

Lemma binary64_ge_1 (x : Q) : (1 <= x)%Q → (1 <= binary64 x)%Q.
Proof. intros H. apply (binary64_mono 1 x H). Qed.

Lemma binary64_ge_minus_1 (x : Q) : (- (1) <= x)%Q → (- (1) <= binary64 x)%Q.
Proof. intros H. apply (binary64_mono (- (1)) x H). Qed.

(** 0.1: the double nearest to one tenth. *)
Example binary64_one_tenth :
  binary64 (1 # 10) = (3602879701896397 # 36028797018963968)%Q.
Proof. vm_compute. reflexivity. Qed.

(** 0.1 + 0.2 is 0.30000000000000004, not the double nearest to 0.3. *)
Example binary64_sum_of_tenths :
  binary64 (binary64 (1 # 10) + binary64 (2 # 10))
  = (1351079888211149 # 4503599627370496)%Q
  ∧ binary64 (3 # 10) = (5404319552844595 # 18014398509481984)%Q.
Proof. split; vm_compute; reflexivity. Qed.

End Double.

(** ** fill_models.py *)

Module FillModels.

Inductive FillModel := IDEAL | CONSERVATIVE.

(** The [model] argument: [FillModel | str]. *)
Inductive ModelArg :=
| ModelEnum (m : FillModel)
| ModelText (s : string).

Definition fill_model_of_value (s : string) : result FillModel :=
  if String.eqb s "IDEAL" then Ok IDEAL
  else if String.eqb s "CONSERVATIVE" then Ok CONSERVATIVE
  else Raise ValueError.

Definition _normalize_model (model : ModelArg) : result FillModel :=
  match model with
  | ModelEnum m => Ok m
  | ModelText s => fill_model_of_value (upper (strip s))
  end.

Definition truthy_texts : list string := ["1"; "true"; "t"; "yes"; "y"].
Definition falsy_texts : list string := ["0"; "false"; "f"; "no"; "n"; ""; "nan"].

(** [_as_bool].  For a float, [str(value)] always shows a decimal point, an
    exponent, "inf" or "nan", so only "nan" meets one of the two sets and
    every other float falls through to [bool(value)]. *)
Definition _as_bool (value : PyVal) : bool :=
  match value with
  | PyBool b => b
  | PyFloat None => false
  | PyFloat (Some q) => negb (Qeq_bool q 0)
  | PyNone => false
  | PyInt z =>
      let text := lower (strip (str_int z)) in
      if str_in text truthy_texts then true
      else if str_in text falsy_texts then false
      else negb (z =? 0)%Z
  | PyStr s =>
      let text := lower (strip s) in
      if str_in text truthy_texts then true
      else if str_in text falsy_texts then false
      else negb (String.eqb s "")
  end.

Definition _get_flag (row : gmap string PyVal) (primary_key : string)
    (alias_key : option string) : bool :=
  match row !! primary_key with
  | Some v => _as_bool v
  | None =>
      match alias_key with
      | Some a =>
          match row !! a with
          | Some v => _as_bool v
          | None => false
          end
      | None => false
      end
  end.

Definition can_buy_limitup_day (row : gmap string PyVal) (model : ModelArg)
    : result bool :=
  let! fill_model := _normalize_model model in
  let is_limit_up := _get_flag row "label_limit_up" (Some "is_limit_up") in
  if negb is_limit_up then Ok false
  else
    match fill_model with
    | IDEAL => Ok true
    | CONSERVATIVE =>
        let is_sealed := _get_flag row "label_sealed" (Some "sealed") in
        let is_one_word := _get_flag row "label_one_word" (Some "one_word") in
        Ok (negb (is_sealed || is_one_word))
    end.

Section EntryPrice.

(** [pd.to_numeric(..., errors="coerce")] on a text cell: the parser of
    pandas is not part of the repository. *)
Variable parse_numeric : string → cell.

Definition to_numeric (v : PyVal) : cell :=
  match v with
  | PyNone => None
  | PyBool b => Some (if b then 1%Q else 0%Q)
  | PyInt z => Some (inject_Z z)
  | PyFloat x => x
  | PyStr s => parse_numeric s
  end.

Definition entry_price (row : gmap string PyVal) (model : ModelArg)
    : result Q :=
  let! _ := _normalize_model model in
  match row !! "close" with
  | None => Raise ValueError
  | Some v =>
      match to_numeric v with
      | None => Raise ValueError
      | Some close_price => Ok close_price
      end
  end.

End EntryPrice.

(** The rows of tests/test_fill_models.py. *)
Definition sealed_row : gmap string PyVal :=
  {[ "label_limit_up" := PyBool true; "label_sealed" := PyBool true;
     "label_one_word" := PyBool true; "close" := PyFloat (Some 11%Q) ]}.

Definition non_limit_row : gmap string PyVal :=
  {[ "label_limit_up" := PyBool false; "close" := PyFloat (Some (21 # 2)%Q) ]}.

(** The values that [_as_bool] reads as false by their content: a false
    bool, None, NaN, a zero, and a text that spells, in any case and between
    white space, one of the falsy spellings. *)
Definition reads_false (value : PyVal) : Prop :=
  match value with
  | PyBool b => b = false
  | PyNone => True
  | PyFloat None => True
  | PyFloat (Some q) => (q == 0)%Q
  | PyInt z => z = 0%Z
  | PyStr s => str_in (lower (strip s)) falsy_texts = true
  end.

(** The limit-up flag cell of a row: the [label_limit_up] column, and the
    [is_limit_up] column when the row has no [label_limit_up]. *)
Definition limit_up_cell (row : gmap string PyVal) : option PyVal :=
  match row !! "label_limit_up" with
  | Some value => Some value
  | None => row !! "is_limit_up"
  end.

Definition maybe_row : gmap string PyVal :=
  {[ "label_limit_up" := PyStr "maybe"; "label_sealed" := PyBool true ]}.

Definition two_row : gmap string PyVal := {[ "label_limit_up" := PyInt 2 ]}.

Definition half_row : gmap string PyVal :=
  {[ "is_limit_up" := PyFloat (Some (1 # 2)%Q) ]}.

Definition nan_row : gmap string PyVal :=
  {[ "label_limit_up" := PyFloat None; "is_limit_up" := PyBool true ]}.

Example ideal_buys_sealed_row :
  can_buy_limitup_day sealed_row (ModelText " ideal ") = Ok true.
Proof. reflexivity. Qed.

Example conservative_rejects_sealed_row :
  can_buy_limitup_day sealed_row (ModelEnum CONSERVATIVE) = Ok false.
Proof. reflexivity. Qed.

Example as_bool_int_two : _as_bool (PyInt 2) = true.
Proof. reflexivity. Qed.

(** A text outside both spelling sets falls through to [bool(value)]. *)
Example as_bool_other_text :
  _as_bool (PyStr "maybe") = true ∧ _as_bool (PyStr " No ") = false.
Proof. split; reflexivity. Qed.

(** C3: on a limit-up row IDEAL can always buy, CONSERVATIVE can buy exactly
    when the row is neither sealed nor one-word, and the entry price is the
    row's close under either model: the price is returned exactly when the
    close cell is numeric, and it does not depend on the model. *)
Theorem limit_up_day_fill_rules
    (parse_numeric : string → cell) (row : gmap string PyVal) :
  _get_flag row "label_limit_up" (Some "is_limit_up") = true →
  can_buy_limitup_day row (ModelEnum IDEAL) = Ok true
  ∧ (can_buy_limitup_day row (ModelEnum CONSERVATIVE) = Ok true
     ↔ _get_flag row "label_sealed" (Some "sealed") = false
       ∧ _get_flag row "label_one_word" (Some "one_word") = false)
  ∧ entry_price parse_numeric row (ModelEnum IDEAL)
    = entry_price parse_numeric row (ModelEnum CONSERVATIVE)
  ∧ ∀ (m : FillModel) (p : Q),
      entry_price parse_numeric row (ModelEnum m) = Ok p
      ↔ ∃ v, row !! "close" = Some v ∧ to_numeric parse_numeric v = Some p.
Proof.
  intros Hup. unfold can_buy_limitup_day, entry_price. simpl. rewrite Hup. simpl.
  split; [reflexivity|]. split.
  - destruct (_get_flag row "label_sealed" _), (_get_flag row "label_one_word" _);
      simpl; split; intros H; try discriminate; try reflexivity; auto;
      destruct H; discriminate.
  - split; [reflexivity|]. intros m p.
    destruct (row !! "close") as [v|] eqn:Hc.
    + destruct (to_numeric parse_numeric v) as [q|] eqn:Hq; split.
      * intros [= ->]. eauto.
      * intros (v' & [= <-] & Hv). congruence.
      * discriminate.
      * intros (v' & [= <-] & Hv). congruence.
    + split; [discriminate|]. intros (v' & Hv & _). discriminate.
Qed.

Lemma limit_up_day_fill_rules_witness :
  can_buy_limitup_day sealed_row (ModelEnum IDEAL) = Ok true
  ∧ entry_price (fun _ => None) sealed_row (ModelEnum CONSERVATIVE) = Ok 11%Q.
Proof.
  destruct (limit_up_day_fill_rules (fun _ => None) sealed_row eq_refl)
    as (Hideal & _ & _ & Hprice).
  split; [exact Hideal|].
  apply Hprice. exists (PyFloat (Some 11%Q)). split; reflexivity.
Defined.

Lemma falsy_text_not_truthy (text : string) :
  str_in text falsy_texts = true → str_in text truthy_texts = false.
Proof.
  unfold str_in, falsy_texts, truthy_texts. simpl.
  rewrite !orb_false_r, !orb_true_iff.
  intros H. repeat destruct H as [H|H];
    apply String.eqb_eq in H; by subst text.
Qed.

Lemma as_bool_reads_false (value : PyVal) :
  reads_false value → _as_bool value = false.
Proof.
  destruct value as [|b|z|[q|]|s]; unfold reads_false, _as_bool; cbv zeta.
  - done.
  - done.
  - by intros ->.
  - intros Hq. apply Qeq_bool_iff in Hq. by rewrite Hq.
  - done.
  - intros Hs. by rewrite (falsy_text_not_truthy _ Hs), Hs.
Qed.

(** C10, refuted as stated: a flag that is not a recognized truthy value
    need not read as false.  A value outside both spelling sets falls
    through to [bool(value)] (line 28), so the text "maybe", the number 2
    and the number 0.5 read as true, and IDEAL buys the row. *)
Lemma unrecognized_flag_is_bought :
  str_in (lower (strip "maybe")) truthy_texts = false
  ∧ str_in (lower (strip "maybe")) falsy_texts = false
  ∧ can_buy_limitup_day maybe_row (ModelEnum IDEAL) = Ok true
  ∧ str_in (lower (strip (str_int 2))) truthy_texts = false
  ∧ can_buy_limitup_day two_row (ModelEnum IDEAL) = Ok true
  ∧ can_buy_limitup_day half_row (ModelText "ideal") = Ok true.
Proof. repeat split; vm_compute; reflexivity. Qed.

(** C10, amended: a row cannot be bought under any fill model, IDEAL
    included, when its limit-up flag is absent (neither [label_limit_up] nor
    [is_limit_up] is a column of the row) or holds a value that reads false:
    False, None, NaN, a zero, or a text that spells 0, false, f, no, n, nan
    or nothing, in any case and between white space. *)
Theorem cannot_buy_if_not_limit_up
    (row : gmap string PyVal) (model : ModelArg) (fill_model : FillModel) :
  _normalize_model model = Ok fill_model →
  match limit_up_cell row with
  | Some value => reads_false value
  | None => True
  end →
  can_buy_limitup_day row model = Ok false.
Proof.
  intros Hm Hcell. unfold can_buy_limitup_day. rewrite Hm. simpl.
  assert (Hflag : _get_flag row "label_limit_up" (Some "is_limit_up") = false).
  { unfold _get_flag. unfold limit_up_cell in Hcell.
    destruct (row !! "label_limit_up") as [value|].
    - by apply as_bool_reads_false.
    - destruct (row !! "is_limit_up") as [value|]; [|done].
      by apply as_bool_reads_false. }
  by rewrite Hflag.
Qed.

Lemma cannot_buy_if_not_limit_up_witness :
  can_buy_limitup_day non_limit_row (ModelText "ideal") = Ok false
  ∧ can_buy_limitup_day nan_row (ModelEnum IDEAL) = Ok false
  ∧ can_buy_limitup_day {[ "label_limit_up" := PyStr " No " ]}
      (ModelEnum IDEAL) = Ok false
  ∧ can_buy_limitup_day ∅ (ModelEnum IDEAL) = Ok false.
Proof.
  split; [|split; [|split]].
  - apply (cannot_buy_if_not_limit_up non_limit_row (ModelText "ideal") IDEAL);
      reflexivity.
  - apply (cannot_buy_if_not_limit_up nan_row (ModelEnum IDEAL) IDEAL);
      [reflexivity|exact I].
  - apply (cannot_buy_if_not_limit_up {[ "label_limit_up" := PyStr " No " ]}
             (ModelEnum IDEAL) IDEAL); reflexivity.
  - apply (cannot_buy_if_not_limit_up ∅ (ModelEnum IDEAL) IDEAL);
      [reflexivity|exact I].
Defined.

End FillModels.

(** ** limits.py: the limit price in decimal arithmetic *)

Module Limits.

Local Open Scope Z_scope.

(** A finite [decimal.Decimal]: the value is [coef * 10 ^ expo], the sign is
    the sign of [coef].  The arguments [pre_close] and [up] below are the
    results of [Decimal(str(...))], which is exact. *)
Record Decimal := { coef : Z; expo : Z }.

(** The default context: 28 significant digits, ROUND_HALF_EVEN.  The
    exponent limits of the context (+-999999) are not modelled. *)
Definition prec : Z := 28.

Inductive Rounding := ROUND_HALF_UP | ROUND_HALF_EVEN.

(** Drop the last [k] digits of [c], rounding the magnitude. *)
Definition div_round (mode : Rounding) (c k : Z) : Z :=
  let p := 10 ^ k in
  let q := Z.abs c / p in
  let r := Z.abs c mod p in
  let round_up :=
    match mode with
    | ROUND_HALF_UP => p <=? 2 * r
    | ROUND_HALF_EVEN => (p <? 2 * r) || ((p =? 2 * r) && Z.odd q)
    end in
  Z.sgn c * (if round_up then q + 1 else q).

(** How many digits [c] has beyond the context precision. *)
Fixpoint excess_digits (fuel : nat) (c : Z) : Z :=
  match fuel with
  | O => 0
  | S fuel' =>
      if 10 ^ prec <=? Z.abs c then 1 + excess_digits fuel' (Z.quot c 10) else 0
  end.

(** The rounding every arithmetic operation applies to its exact result:
    a coefficient longer than [prec] digits is cut to [prec] digits. *)
Definition _fix (d : Decimal) : Decimal :=
  let k := excess_digits (S (Z.to_nat (Z.log2 (Z.abs (coef d))))) (coef d) in
  if k =? 0 then d
  else
    let c := div_round ROUND_HALF_EVEN (coef d) k in
    if 10 ^ prec <=? Z.abs c
    then {| coef := Z.quot c 10; expo := expo d + k + 1 |}
    else {| coef := c; expo := expo d + k |}.

Definition exact_add (a b : Decimal) : Decimal :=
  let e := Z.min (expo a) (expo b) in
  {| coef := coef a * 10 ^ (expo a - e) + coef b * 10 ^ (expo b - e);
     expo := e |}.

Definition exact_mul (a b : Decimal) : Decimal :=
  {| coef := coef a * coef b; expo := expo a + expo b |}.

(** [a + b] and [a * b] on [Decimal]. *)
Definition dec_add (a b : Decimal) : Decimal := _fix (exact_add a b).
Definition dec_mul (a b : Decimal) : Decimal := _fix (exact_mul a b).

Definition rescale (d : Decimal) (e : Z) (rounding : Rounding) : Z :=
  if e <=? expo d then coef d * 10 ^ (expo d - e)
  else div_round rounding (coef d) (e - expo d).

(** [d.quantize(Decimal("1E<e>"), rounding=...)]: InvalidOperation when the
    result needs more than [prec] digits. *)
Definition quantize (d : Decimal) (e : Z) (rounding : Rounding)
    : result Decimal :=
  let c := rescale d e rounding in
  if 10 ^ prec <=? Z.abs c then Raise InvalidOperation
  else Ok {| coef := c; expo := e |}.

Definition compute_limit_price (pre_close up : Decimal) : result Decimal :=
  let pre_close_decimal := pre_close in
  let limit_up_decimal := up in
  let multiplier := dec_add {| coef := 1; expo := 0 |} limit_up_decimal in
  quantize (dec_mul pre_close_decimal multiplier) (-2) ROUND_HALF_UP.

(** The rational a decimal denotes. *)
Definition dec_value (d : Decimal) : Q :=
  (inject_Z (coef d) * Qpower 10 (expo d))%Q.

(** The specification's rounding: to 2 decimal places, half-up on the
    magnitude (a tie moves away from zero, as ROUND_HALF_UP does). *)
Definition round_half_up_2dp (x : Q) : Q :=
  let n := Qfloor (Qabs x * 100 + (1 # 2)) in
  if Qle_bool 0 x then n # 100 else (- n) # 100.

(** [compute_limit_price(0.004999999999999999, 2e-16)]. *)
Definition tiny_pre_close : Decimal := {| coef := 4999999999999999; expo := -18 |}.
Definition tiny_up : Decimal := {| coef := 2; expo := -16 |}.

Example multiplier_of_tiny_up :
  dec_add {| coef := 1; expo := 0 |} tiny_up
  = {| coef := 10000000000000002; expo := -16 |}.
Proof. vm_compute. reflexivity. Qed.

Example product_is_rounded_to_28_digits :
  dec_mul tiny_pre_close {| coef := 10000000000000002; expo := -16 |}
  = {| coef := 5000000000000000000000000000; expo := -30 |}
  ∧ exact_mul tiny_pre_close {| coef := 10000000000000002; expo := -16 |}
    = {| coef := 49999999999999999999999999999998; expo := -34 |}.
Proof. split; vm_compute; reflexivity. Qed.

Example carry_in_fix :
  _fix {| coef := 99999999999999999999999999996; expo := 0 |}
  = {| coef := 1000000000000000000000000000; expo := 2 |}.
Proof. vm_compute. reflexivity. Qed.

Example quantize_too_many_digits :
  compute_limit_price {| coef := 1; expo := 27 |} {| coef := 1; expo := -1 |}
  = Raise InvalidOperation.
Proof. vm_compute. reflexivity. Qed.

Lemma half_up_quotient (a p : Z) :
  0 <= a → 0 < p →
  (2 * a + p) / (2 * p) = a / p + (if p <=? 2 * (a mod p) then 1 else 0).
Proof.
  intros Ha Hp.
  pose proof (Z.div_mod a p ltac:(lia)) as Hdm.
  pose proof (Z.mod_pos_bound a p Hp) as Hr.
  symmetry. destruct (Z.leb_spec p (2 * (a mod p))).
  - apply (Z.div_unique _ _ _ (2 * (a mod p) - p)); lia.
  - apply (Z.div_unique _ _ _ (2 * (a mod p) + p)); lia.
Qed.

Lemma round_half_up_div_round (c k : Z) (x : Q) :
  0 <= k →
  (x * 100 == inject_Z c / inject_Z (10 ^ k))%Q →
  (round_half_up_2dp x == div_round ROUND_HALF_UP c k # 100)%Q.
Proof.
  intros Hk Hx.
  assert (Hp : 0 < 10 ^ k) by (apply Z.pow_pos_nonneg; lia).
  set (p := 10 ^ k) in *.
  assert (Hpq : ~ (inject_Z p == 0)%Q).
  { intros H. unfold Qeq in H. simpl in H. lia. }
  assert (Habs : (Qabs x * 100 + (1 # 2) == (2 * Z.abs c + p) # Z.to_pos (2 * p))%Q).
  { assert (Qabs x * 100 == Qabs (x * 100))%Q as -> by (rewrite Qabs_Qmult; reflexivity).
    rewrite Hx. unfold Qdiv. rewrite Qabs_Qmult.
    assert (Qabs (/ inject_Z p) == / inject_Z p)%Q as ->.
    { apply Qabs_pos. apply Qinv_le_0_compat. change 0%Q with (inject_Z 0).
      rewrite <- Zle_Qle. lia. }
    assert (Qabs (inject_Z c) == inject_Z (Z.abs c))%Q as -> by reflexivity.
    rewrite (Qmake_Qdiv (2 * Z.abs c + p)). rewrite Z2Pos.id by lia.
    rewrite !inject_Z_plus, !inject_Z_mult. field. exact Hpq. }
  unfold round_half_up_2dp. rewrite (Qfloor_comp _ _ Habs).
  unfold Qfloor at 1 2. rewrite Z2Pos.id by lia.
  rewrite half_up_quotient by lia.
  unfold div_round. fold p.
  assert (Hsign : Qle_bool 0 x = (0 <=? c)).
  { apply eq_iff_eq_true. rewrite Qle_bool_iff, Z.leb_le.
    assert (Hx' : (x == inject_Z c / inject_Z p / 100)%Q).
    { rewrite <- Hx. field. }
    assert (Hc' : (inject_Z c == x * 100 * inject_Z p)%Q).
    { rewrite Hx. field. exact Hpq. }
    split.
    - intros H. change 0%Q with (inject_Z 0) in H.
      rewrite Zle_Qle, Hc'. change (inject_Z 0) with 0%Q in *.
      repeat apply Qmult_le_0_compat; [exact H|discriminate|].
      change 0%Q with (inject_Z 0). rewrite <- Zle_Qle. lia.
    - intros Hc. rewrite Hx'. unfold Qdiv.
      repeat apply Qmult_le_0_compat; [| |discriminate].
      + change 0%Q with (inject_Z 0). rewrite <- Zle_Qle. lia.
      + apply Qinv_le_0_compat. change 0%Q with (inject_Z 0). rewrite <- Zle_Qle. lia. }
  rewrite Hsign.
  set (n := Z.abs c / p + (if p <=? 2 * (Z.abs c mod p) then 1 else 0)).
  assert (Hn : (if p <=? 2 * (Z.abs c mod p) then Z.abs c / p + 1 else Z.abs c / p) = n).
  { unfold n. destruct (p <=? 2 * (Z.abs c mod p)); lia. }
  rewrite Hn.
  destruct (Z.leb_spec 0 c) as [Hc|Hc].
  - destruct (Z.eq_dec c 0) as [->|Hne].
    + assert (n = 0) as ->.
      { unfold n. simpl Z.abs. rewrite Z.div_0_l, Z.mod_0_l by lia.
        destruct (Z.leb_spec p (2 * 0)); lia. }
      reflexivity.
    + rewrite Z.sgn_pos by lia. rewrite Z.mul_1_l. reflexivity.
  - rewrite Z.sgn_neg by lia.
    assert (-1 * n = - n) as -> by lia. reflexivity.
Qed.

Lemma fix_within_precision (d : Decimal) :
  Z.abs (coef d) < 10 ^ prec → _fix d = d.
Proof.
  intros H. unfold _fix. cbn [excess_digits].
  destruct (Z.leb_spec (10 ^ prec) (Z.abs (coef d))); [lia|reflexivity].
Qed.

Lemma ten_nonzero : ~ (10 == 0)%Q.
Proof. discriminate. Qed.

Lemma dec_value_exact_mul (a b : Decimal) :
  (dec_value (exact_mul a b) == dec_value a * dec_value b)%Q.
Proof.
  unfold dec_value, exact_mul. simpl.
  rewrite inject_Z_mult, Qpower_plus by exact ten_nonzero. ring.
Qed.

Lemma inject_pow10 (n : Z) : 0 <= n → (inject_Z (10 ^ n) == 10 ^ n)%Q.
Proof. intros H. rewrite Zpower_Qpower by exact H. reflexivity. Qed.

Lemma dec_value_exact_add (a b : Decimal) :
  (dec_value (exact_add a b) == dec_value a + dec_value b)%Q.
Proof.
  unfold dec_value, exact_add. simpl.
  set (e := Z.min (expo a) (expo b)).
  rewrite inject_Z_plus, !inject_Z_mult.
  rewrite !inject_pow10 by lia.
  rewrite Qmult_plus_distr_l.
  rewrite <- !Qmult_assoc, <- !Qpower_plus by exact ten_nonzero.
  replace (expo a - e + e) with (expo a) by lia.
  replace (expo b - e + e) with (expo b) by lia. reflexivity.
Qed.

Lemma rescale_value (d : Decimal) :
  (round_half_up_2dp (dec_value d) == rescale d (-2) ROUND_HALF_UP # 100)%Q.
Proof.
  unfold rescale. destruct (Z.leb_spec (-2) (expo d)) as [He|He].
  - assert (coef d * 10 ^ (expo d - -2)
            = div_round ROUND_HALF_UP (coef d * 10 ^ (expo d - -2)) 0) as ->.
    { unfold div_round. change (10 ^ 0) with 1. rewrite Z.div_1_r, Z.mod_1_r.
      change (1 <=? 2 * 0) with false. cbv iota.
      symmetry. rewrite Z.mul_comm. apply Z.abs_sgn. }
    apply round_half_up_div_round; [lia|].
    unfold dec_value. change (inject_Z (10 ^ 0)) with 1%Q.
    rewrite inject_Z_mult, inject_pow10 by lia.
    replace (expo d - -2) with (expo d + 2) by lia.
    rewrite Qpower_plus by exact ten_nonzero.
    change (10 ^ 2)%Q with 100%Q. field.
  - apply round_half_up_div_round; [lia|].
    unfold dec_value. rewrite inject_pow10 by lia.
    replace (expo d) with (- (-2 - expo d) + - 2) at 1 by lia.
    rewrite Qpower_plus by exact ten_nonzero. rewrite Qpower_opp.
    change (10 ^ (-2))%Q with (/ 100)%Q. field.
    apply Qpower_not_0. exact ten_nonzero.
Qed.

(** C7, refuted as stated: with [pre_close = 0.004999999999999999] and
    [up = 2e-16] the product has 32 digits, the context rounds it to
    0.005000000000000000000000000000 and the quantize step then gives 0.01,
    while the exact product 0.0049999999999999999999999999999998 rounds
    half-up to 0.00. *)
Lemma compute_limit_price_double_rounding :
  ∃ d, compute_limit_price tiny_pre_close tiny_up = Ok d
       ∧ (dec_value d == 1 # 100)%Q
       ∧ (round_half_up_2dp (dec_value tiny_pre_close * (1 + dec_value tiny_up))
          == 0)%Q
       ∧ ¬ (dec_value d
            == round_half_up_2dp
                 (dec_value tiny_pre_close * (1 + dec_value tiny_up)))%Q.
Proof.
  exists {| coef := 1; expo := -2 |}.
  split; [vm_compute; reflexivity|]. split; [reflexivity|].
  split; [vm_compute; reflexivity|]. vm_compute. discriminate.
Qed.

(** C7, amended: when neither [1 + up] nor the product needs more than the
    28 digits of the decimal context, the limit price is
    [pre_close * (1 + up)] rounded half-up to 2 decimal places, exactly; it
    is returned unless that result itself needs more than 28 digits, in
    which case the quantize step raises InvalidOperation. *)
Theorem compute_limit_price_exact_within_precision (pre_close up : Decimal) :
  let multiplier := exact_add {| coef := 1; expo := 0 |} up in
  Z.abs (coef multiplier) < 10 ^ prec →
  Z.abs (coef (exact_mul pre_close multiplier)) < 10 ^ prec →
  ∃ c : Z,
    (dec_value {| coef := c; expo := -2 |}
      == round_half_up_2dp (dec_value pre_close * (1 + dec_value up)))%Q
    ∧ compute_limit_price pre_close up
       = if 10 ^ prec <=? Z.abs c then Raise InvalidOperation
         else Ok {| coef := c; expo := -2 |}.
Proof.
  intros multiplier Hadd Hmul.
  exists (rescale (exact_mul pre_close multiplier) (-2) ROUND_HALF_UP). split.
  - assert (Hv : (dec_value pre_close * (1 + dec_value up)
                  == dec_value (exact_mul pre_close multiplier))%Q).
    { rewrite dec_value_exact_mul. unfold multiplier.
      rewrite dec_value_exact_add.
      assert (dec_value {| coef := 1; expo := 0 |} == 1)%Q as -> by reflexivity.
      reflexivity. }
    unfold round_half_up_2dp at 1.
    pose proof (rescale_value (exact_mul pre_close multiplier)) as Hr.
    unfold round_half_up_2dp in *.
    rewrite (Qfloor_comp _ _
               (Qplus_comp _ _
                  (Qmult_comp _ _ (Qabs_wd _ _ Hv) _ _ (Qeq_refl 100))
                  _ _ (Qeq_refl (1 # 2)))).
    assert (Qle_bool 0 (dec_value pre_close * (1 + dec_value up))
            = Qle_bool 0 (dec_value (exact_mul pre_close multiplier))) as ->.
    { apply eq_iff_eq_true. rewrite !Qle_bool_iff, Hv. reflexivity. }
    rewrite Hr. unfold dec_value. simpl. rewrite (Qmake_Qdiv _ 100).
    change (10 ^ (-2))%Q with (/ 100)%Q. reflexivity.
  - unfold compute_limit_price, dec_add, dec_mul. fold multiplier.
    rewrite (fix_within_precision multiplier) by exact Hadd.
    rewrite fix_within_precision by exact Hmul. reflexivity.
Qed.


Lemma compute_limit_price_exact_within_precision_witness :
  compute_limit_price {| coef := 10; expo := 0 |} {| coef := 10; expo := -2 |}
  = Ok {| coef := 1100; expo := -2 |}.
Proof.
  destruct (compute_limit_price_exact_within_precision
              {| coef := 10; expo := 0 |} {| coef := 10; expo := -2 |})
    as (c & Hc & ->); [vm_compute; reflexivity..|].
  assert (c = 1100) as ->; [|reflexivity].
  revert Hc. unfold dec_value. cbn [coef expo].
  change (10 ^ (-2))%Q with (1 # 100)%Q.
  intros Hc.
  assert (Hr : (round_half_up_2dp
                  (inject_Z 10 * 10 ^ 0 * (1 + inject_Z 10 * (1 # 100)))
                == 1100 # 100)%Q) by (vm_compute; reflexivity).
  rewrite Hr in Hc. unfold Qeq in Hc. simpl in Hc. lia.
Defined.

End Limits.

(** ** labels.py *)

Module Labels.

(** [DEFAULT_EPS = 1e-6]: the double nearest to the decimal. *)
Definition DEFAULT_EPS : Q := Double.binary64 (1 # 1000000).

(** One row of the daily frame with the columns the labelers read and
    write.  The price columns are the cells [pd.to_numeric(...,
    errors="coerce")] yields; a derived column that is not in the frame yet
    reads as [None] or [false]. *)
Record Bar := {
  ts_code : string;
  trade_date : string;
  open : cell;
  high : cell;
  low : cell;
  close : cell;
  pre_close : cell;
  limit_up_price : cell;
  price_limit_applicable : bool;
  col_label_limit_up : bool;
  col_label_one_word : bool;
  col_label_opened : bool;
  col_label_sealed : bool
}.

Definition set_limit_up_price (v : cell) (r : Bar) : Bar :=
  {| ts_code := ts_code r; trade_date := trade_date r; open := open r;
     high := high r; low := low r; close := close r; pre_close := pre_close r;
     limit_up_price := v;
     price_limit_applicable := price_limit_applicable r;
     col_label_limit_up := col_label_limit_up r; col_label_one_word := col_label_one_word r;
     col_label_opened := col_label_opened r; col_label_sealed := col_label_sealed r |}.

Definition set_price_limit_applicable (v : bool) (r : Bar) : Bar :=
  {| ts_code := ts_code r; trade_date := trade_date r; open := open r;
     high := high r; low := low r; close := close r; pre_close := pre_close r;
     limit_up_price := limit_up_price r;
     price_limit_applicable := v;
     col_label_limit_up := col_label_limit_up r; col_label_one_word := col_label_one_word r;
     col_label_opened := col_label_opened r; col_label_sealed := col_label_sealed r |}.

Definition set_label_limit_up (v : bool) (r : Bar) : Bar :=
  {| ts_code := ts_code r; trade_date := trade_date r; open := open r;
     high := high r; low := low r; close := close r; pre_close := pre_close r;
     limit_up_price := limit_up_price r;
     price_limit_applicable := price_limit_applicable r;
     col_label_limit_up := v; col_label_one_word := col_label_one_word r;
     col_label_opened := col_label_opened r; col_label_sealed := col_label_sealed r |}.

Definition set_label_one_word (v : bool) (r : Bar) : Bar :=
  {| ts_code := ts_code r; trade_date := trade_date r; open := open r;
     high := high r; low := low r; close := close r; pre_close := pre_close r;
     limit_up_price := limit_up_price r;
     price_limit_applicable := price_limit_applicable r;
     col_label_limit_up := col_label_limit_up r; col_label_one_word := v;
     col_label_opened := col_label_opened r; col_label_sealed := col_label_sealed r |}.

Definition set_label_opened (v : bool) (r : Bar) : Bar :=
  {| ts_code := ts_code r; trade_date := trade_date r; open := open r;
     high := high r; low := low r; close := close r; pre_close := pre_close r;
     limit_up_price := limit_up_price r;
     price_limit_applicable := price_limit_applicable r;
     col_label_limit_up := col_label_limit_up r; col_label_one_word := col_label_one_word r;
     col_label_opened := v; col_label_sealed := col_label_sealed r |}.

Definition set_label_sealed (v : bool) (r : Bar) : Bar :=
  {| ts_code := ts_code r; trade_date := trade_date r; open := open r;
     high := high r; low := low r; close := close r; pre_close := pre_close r;
     limit_up_price := limit_up_price r;
     price_limit_applicable := price_limit_applicable r;
     col_label_limit_up := col_label_limit_up r; col_label_one_word := col_label_one_word r;
     col_label_opened := col_label_opened r; col_label_sealed := v |}.

Section Labelers.

(** [np.isclose] of numpy 2 also holds of two equal numbers, whatever the
    tolerance; that of numpy 1 does not. *)
Variable numpy_2 : bool.

(** [np.isclose(value, limit, atol=eps, rtol=0.0)]: the double
    [abs(value - limit)] is compared with [atol + rtol * abs(limit)], which
    is [eps] itself; false on NaN. *)
Definition _is_close_to_limit (value limit_price : cell) (eps : Q) : bool :=
  match value, limit_price with
  | Some a, Some b =>
      Qle_bool (Qabs (Double.binary64 (a - b))) eps
      || (numpy_2 && Qeq_bool a b)
  | _, _ => false
  end.

(** [low < limit_up_price - eps], the difference being a double: false on
    NaN. *)
Definition below_limit (value limit_price : cell) (eps : Q) : bool :=
  match value, limit_price with
  | Some a, Some b => negb (Qle_bool (Double.binary64 (b - eps)) a)
  | _, _ => false
  end.

(** The instrument lookup and the rule resolver, as the labelers use them:
    [limit_price_for code pre_close] is
    [float(compute_limit_price(pre_close, up_limit))] with the [up_limit] that
    [pick_limit_params] resolves for the instrument, and
    [applicable_for code date] is [is_price_limit_applicable] on the
    instrument's row. *)
Variable limit_price_for : string → cell → cell.
Variable applicable_for : string → string → bool.

(** The row functions of the five labelers: what [apply(..., axis=1)] and
    the column expressions compute on one row. *)
Definition limit_price_row (row : Bar) : Bar :=
  set_limit_up_price (limit_price_for (ts_code row) (pre_close row)) row.

Definition limit_up_row (eps : Q) (row : Bar) : Bar :=
  let row := set_price_limit_applicable
               (applicable_for (ts_code row) (trade_date row)) row in
  let close_hits_limit :=
    _is_close_to_limit (close row) (limit_up_price row) eps in
  let high_hits_limit :=
    _is_close_to_limit (high row) (limit_up_price row) eps in
  set_label_limit_up
    (price_limit_applicable row && close_hits_limit && high_hits_limit) row.

Definition one_word_row (eps : Q) (row : Bar) : Bar :=
  let open_hits_limit :=
    _is_close_to_limit (open row) (limit_up_price row) eps in
  let high_hits_limit :=
    _is_close_to_limit (high row) (limit_up_price row) eps in
  let low_hits_limit :=
    _is_close_to_limit (low row) (limit_up_price row) eps in
  let close_hits_limit :=
    _is_close_to_limit (close row) (limit_up_price row) eps in
  set_label_one_word
    (col_label_limit_up row && open_hits_limit && high_hits_limit
     && low_hits_limit && close_hits_limit)
    row.

Definition opened_row (eps : Q) (row : Bar) : Bar :=
  let high_hits_limit :=
    _is_close_to_limit (high row) (limit_up_price row) eps in
  let low_below_limit := below_limit (low row) (limit_up_price row) eps in
  set_label_opened
    (price_limit_applicable row && high_hits_limit && low_below_limit) row.

Definition sealed_row (row : Bar) : Bar :=
  set_label_sealed (col_label_limit_up row && negb (col_label_opened row)) row.

Definition add_limit_prices (daily_df : list Bar) : list Bar :=
  map limit_price_row daily_df.

Definition label_limit_up (eps : Q) (daily_df : list Bar) : list Bar :=
  map (limit_up_row eps) (add_limit_prices daily_df).

Definition label_one_word (eps : Q) (daily_df : list Bar) : list Bar :=
  map (one_word_row eps) (label_limit_up eps daily_df).

Definition label_opened (eps : Q) (daily_df : list Bar) : list Bar :=
  map (opened_row eps) (label_limit_up eps daily_df).

Definition label_sealed (eps : Q) (daily_df : list Bar) : list Bar :=
  map sealed_row (label_opened eps daily_df).

(** The labeling pipeline of report.py: [label_sealed(label_one_word(df))],
    both with the same tolerance. *)
Definition labeling_pipeline (eps : Q) (daily_df : list Bar) : list Bar :=
  label_sealed eps (label_one_word eps daily_df).

(** What the pipeline does to one row. *)
Definition pipeline_row (eps : Q) (row : Bar) : Bar :=
  sealed_row
    (opened_row eps
       (limit_up_row eps
          (limit_price_row
             (one_word_row eps (limit_up_row eps (limit_price_row row)))))).

Lemma labeling_pipeline_rows (eps : Q) (daily_df : list Bar) :
  labeling_pipeline eps daily_df = map (pipeline_row eps) daily_df.
Proof.
  unfold labeling_pipeline, label_sealed, label_opened, label_one_word,
    label_limit_up, add_limit_prices.
  rewrite !map_map. reflexivity.
Qed.

Lemma pipeline_row_labels (eps : Q) (row : Bar) :
  let limit_price := limit_price_for (ts_code row) (pre_close row) in
  let applicable := applicable_for (ts_code row) (trade_date row) in
  let limit_up :=
    applicable && _is_close_to_limit (close row) limit_price eps
    && _is_close_to_limit (high row) limit_price eps in
  let opened :=
    applicable && _is_close_to_limit (high row) limit_price eps
    && below_limit (low row) limit_price eps in
  col_label_limit_up (pipeline_row eps row) = limit_up
  ∧ col_label_one_word (pipeline_row eps row)
    = limit_up && _is_close_to_limit (open row) limit_price eps
      && _is_close_to_limit (high row) limit_price eps
      && _is_close_to_limit (low row) limit_price eps
      && _is_close_to_limit (close row) limit_price eps
  ∧ col_label_opened (pipeline_row eps row) = opened
  ∧ col_label_sealed (pipeline_row eps row) = limit_up && negb opened.
Proof. destruct row. repeat split; reflexivity. Qed.

(** C2: every bar that leaves the labeling pipeline satisfies
    one-word => limit-up, limit-up => not (opened and sealed), and
    limit-up => exactly one of sealed and opened. *)
Theorem labeling_pipeline_invariants (eps : Q) (daily_df : list Bar) (row : Bar) :
  In row (labeling_pipeline eps daily_df) →
  (col_label_one_word row = true → col_label_limit_up row = true)
  ∧ (col_label_limit_up row = true →
     ¬ (col_label_opened row = true ∧ col_label_sealed row = true))
  ∧ (col_label_limit_up row = true →
     xorb (col_label_sealed row) (col_label_opened row) = true).
Proof.
  rewrite labeling_pipeline_rows. intros Hin.
  apply in_map_iff in Hin as (raw & <- & _).
  destruct (pipeline_row_labels eps raw) as (-> & -> & -> & ->).
  destruct (applicable_for _ _), (_is_close_to_limit (close raw) _ eps),
    (_is_close_to_limit (high raw) _ eps), (below_limit (low raw) _ eps);
    simpl; repeat split; try discriminate; try tauto;
    intros _ [? ?]; discriminate.
Qed.

End Labelers.

(** The first bar of tests/test_labels.py: a one-word limit-up day. *)
Definition one_word_bar : Bar :=
  {| ts_code := "AAA"; trade_date := "20240102"; open := Some 11%Q;
     high := Some 11%Q; low := Some 11%Q; close := Some 11%Q;
     pre_close := Some 10%Q; limit_up_price := None;
     price_limit_applicable := false; col_label_limit_up := false;
     col_label_one_word := false; col_label_opened := false; col_label_sealed := false |}.

Definition main_board_price (_ : string) (pre_close : cell) : cell :=
  match pre_close with
  | Some p => Some (Double.binary64 (p * (11 # 10)))
  | None => None
  end.

(** A bar with open = high = close = 0.14 and low = 0.04, the limit price
    being 0.14. *)
Definition wide_bar : Bar :=
  {| ts_code := "AAA"; trade_date := "20240102";
     open := Some (Double.binary64 (14 # 100));
     high := Some (Double.binary64 (14 # 100));
     low := Some (Double.binary64 (4 # 100));
     close := Some (Double.binary64 (14 # 100));
     pre_close := Some (Double.binary64 (13 # 100)); limit_up_price := None;
     price_limit_applicable := false; col_label_limit_up := false;
     col_label_one_word := false; col_label_opened := false; col_label_sealed := false |}.

Example one_word_bar_labels (numpy_2 : bool) :
  map (fun r => (col_label_limit_up r, col_label_one_word r,
                 col_label_opened r, col_label_sealed r))
      (labeling_pipeline numpy_2 main_board_price (fun _ _ => true)
         DEFAULT_EPS [one_word_bar])
  = [(true, true, false, true)].
Proof. destruct numpy_2; vm_compute; reflexivity. Qed.

(** In doubles a low can be within [eps] of the limit price and below the
    limit price minus [eps] at once: with eps = 0.1 the difference
    0.04 - 0.14 rounds to -0.1 and the difference 0.14 - 0.1 rounds to a
    double above 0.04, so the bar is labelled one-word and opened, and not
    sealed. *)
Example one_word_and_opened (numpy_2 : bool) :
  map (fun r => (col_label_limit_up r, col_label_one_word r,
                 col_label_opened r, col_label_sealed r))
      (labeling_pipeline numpy_2
         (fun _ _ => Some (Double.binary64 (14 # 100))) (fun _ _ => true)
         (Double.binary64 (1 # 10)) [wide_bar])
  = [(true, true, true, false)].
Proof. destruct numpy_2; vm_compute; reflexivity. Qed.

Lemma labeling_pipeline_invariants_witness :
  ∃ row, In row (labeling_pipeline true main_board_price (fun _ _ => true)
                   DEFAULT_EPS [one_word_bar])
         ∧ col_label_one_word row = true ∧ col_label_limit_up row = true
         ∧ xorb (col_label_sealed row) (col_label_opened row) = true.
Proof.
  eexists. split; [left; reflexivity|].
  pose proof (labeling_pipeline_invariants true main_board_price
                (fun _ _ => true)
                DEFAULT_EPS [one_word_bar] _ (or_introl eq_refl)) as (H1 & _ & H3).
  split; [vm_compute; reflexivity|]. split; [apply H1|apply H3; apply H1];
    vm_compute; reflexivity.
Defined.

End Labels.
(** ** Sorting a frame

    [sort_values] on several columns is a stable sort in pandas; it is
    modelled by insertion sort, which keeps rows with equal keys in their
    input order. *)

Module Frame.

Section StableSort.

Context {A : Type}.
Variable le : A → A → bool.

(** Insert [x] before the first element that is not smaller. *)
Fixpoint insert_sorted (x : A) (l : list A) : list A :=
  match l with
  | [] => [x]
  | y :: l' => if le x y then x :: y :: l' else y :: insert_sorted x l'
  end.

Fixpoint stable_sort (l : list A) : list A :=
  match l with
  | [] => []
  | x :: l' => insert_sorted x (stable_sort l')
  end.

Definition le_rel (x y : A) : Prop := le x y = true.

Lemma insert_sorted_perm (x : A) (l : list A) : insert_sorted x l ≡ₚ x :: l.
Proof.
  induction l as [|y l IH]; simpl; [done|].
  destruct (le x y); [done|]. rewrite IH. apply Permutation_swap.
Qed.

Lemma stable_sort_perm (l : list A) : stable_sort l ≡ₚ l.
Proof.
  induction l as [|x l IH]; simpl; [done|].
  by rewrite insert_sorted_perm, IH.
Qed.

Lemma elem_of_stable_sort (x : A) (l : list A) : x ∈ stable_sort l ↔ x ∈ l.
Proof. by rewrite stable_sort_perm. Qed.

Hypothesis le_total : ∀ x y, le x y = true ∨ le y x = true.
Hypothesis le_trans : ∀ x y z, le x y = true → le y z = true → le x z = true.

Lemma insert_sorted_strongly (x : A) (l : list A) :
  StronglySorted le_rel l → StronglySorted le_rel (insert_sorted x l).
Proof.
  induction 1 as [|y l Hl IH Hy]; simpl.
  - repeat constructor.
  - destruct (le x y) eqn:Hxy.
    + constructor; [by constructor|]. constructor; [done|].
      eapply Forall_impl; [exact Hy|]. intros z Hz. by eapply le_trans.
    + constructor; [done|]. rewrite insert_sorted_perm. constructor; [|done].
      destruct (le_total x y); [congruence|done].
Qed.

Lemma stable_sort_strongly (l : list A) : StronglySorted le_rel (stable_sort l).
Proof.
  induction l; simpl; [constructor|]. by apply insert_sorted_strongly.
Qed.

Lemma filter_insert_sorted (P : A → Prop) `{!∀ x, Decision (P x)}
    (x : A) (l : list A) :
  StronglySorted le_rel l →
  filter P (insert_sorted x l)
  = if decide (P x) then insert_sorted x (filter P l) else filter P l.
Proof.
  induction 1 as [|y l Hl IH Hy]; simpl.
  - rewrite filter_cons, filter_nil. by destruct (decide (P x)).
  - destruct (le x y) eqn:Hxy.
    + rewrite (filter_cons _ x). destruct (decide (P x)) as [Hx|Hx]; [|done].
      rewrite (filter_cons _ y). destruct (decide (P y)) as [Hpy|Hpy].
      * simpl. by rewrite Hxy.
      * clear IH. induction l as [|z l IHl]; [done|].
        inversion Hl; subst. inversion Hy; subst.
        rewrite filter_cons. destruct (decide (P z)).
        -- simpl. assert (le x z = true) as -> by (by eapply le_trans). done.
        -- by apply IHl.
    + rewrite !(filter_cons _ y), IH.
      destruct (decide (P y)), (decide (P x)); simpl; try done.
      by rewrite Hxy.
Qed.

Lemma filter_stable_sort (P : A → Prop) `{!∀ x, Decision (P x)} (l : list A) :
  filter P (stable_sort l) = stable_sort (filter P l).
Proof.
  induction l as [|x l IH]; simpl; [done|].
  rewrite filter_insert_sorted by apply stable_sort_strongly.
  rewrite filter_cons. destruct (decide (P x)); simpl; by rewrite IH.
Qed.

Lemma stable_sort_unique (l1 l2 : list A) :
  (∀ x y, x ∈ l1 → y ∈ l1 → le x y = true → le y x = true → x = y) →
  l1 ≡ₚ l2 → stable_sort l1 = stable_sort l2.
Proof.
  intros Hanti Hperm.
  apply (StronglySorted_unique_strong le_rel).
  - intros x y Hx Hy. rewrite elem_of_stable_sort in Hx.
    rewrite elem_of_stable_sort, <- Hperm in Hy. by apply Hanti.
  - apply stable_sort_strongly.
  - apply stable_sort_strongly.
  - by rewrite !stable_sort_perm.
Qed.

End StableSort.

Lemma insert_sorted_ext {A} (le le' : A → A → bool) (x : A) (l : list A) :
  (∀ y, y ∈ l → le x y = le' x y) →
  insert_sorted le x l = insert_sorted le' x l.
Proof.
  induction l as [|y l IH]; intros H; simpl; [done|].
  rewrite <- (H y) by left. rewrite IH; [done|].
  intros z Hz. apply H. by right.
Qed.

Lemma stable_sort_ext {A} (le le' : A → A → bool) (l : list A) :
  (∀ x y, x ∈ l → y ∈ l → le x y = le' x y) →
  stable_sort le l = stable_sort le' l.
Proof.
  induction l as [|x l IH]; intros H; simpl; [done|].
  rewrite <- IH by (intros; apply H; by right).
  apply insert_sorted_ext. intros y Hy. apply H; [by left|].
  right. by apply elem_of_stable_sort in Hy.
Qed.

Lemma string_leb_total (x y : string) : String.leb x y = true ∨ String.leb y x = true.
Proof. apply String.leb_total. Qed.

Lemma string_leb_trans (x y z : string) :
  String.leb x y = true → String.leb y z = true → String.leb x z = true.
Proof.
  intros H1 H2. apply Is_true_true.
  apply (@transitivity _ String.le _ x y z); by apply Is_true_true.
Qed.

Lemma NoDup_fmap_eq {A B} (f : A → B) (l : list A) (x y : A) :
  NoDup (map f l) → x ∈ l → y ∈ l → f x = f y → x = y.
Proof.
  induction l as [|z l IH]; simpl; intros Hnd Hx Hy Hf; [by inversion Hx|].
  apply NoDup_cons in Hnd as [Hz Hnd].
  apply elem_of_cons in Hx as [->|Hx]; apply elem_of_cons in Hy as [->|Hy];
    try done.
  - exfalso. apply Hz. rewrite Hf. apply (list_elem_of_fmap_2 f). done.
  - exfalso. apply Hz. rewrite <- Hf. apply (list_elem_of_fmap_2 f). done.
  - by apply IH.
Qed.

Lemma lookup_S_split {A} (l : list A) (i : nat) (y : A) :
  l !! S i = Some y →
  ∃ before x rest, l = before ++ x :: y :: rest ∧ length before = i.
Proof.
  intros Hy.
  destruct (l !! i) as [x|] eqn:Hx.
  - exists (take i l), x, (drop (S (S i)) l). split.
    + rewrite <- (take_drop_middle l i x Hx) at 1. f_equal. f_equal.
      by apply drop_S.
    + apply length_take_le. apply lookup_lt_Some in Hx. lia.
  - apply lookup_ge_None in Hx. apply lookup_lt_Some in Hy. lia.
Qed.

Lemma NoDup_app_cons_inj {A} (l1 l2 l1' l2' : list A) (x : A) :
  NoDup (l1 ++ x :: l2) → l1 ++ x :: l2 = l1' ++ x :: l2' →
  l1 = l1' ∧ l2 = l2'.
Proof.
  revert l1'. induction l1 as [|y l1 IH]; intros l1' Hnd Heq.
  - destruct l1' as [|y' l1']; simpl in *.
    + by injection Heq.
    + injection Heq as <- ->. apply NoDup_cons in Hnd as [Hx _].
      exfalso. apply Hx. apply elem_of_app. right. by left.
  - destruct l1' as [|y' l1']; simpl in *.
    + injection Heq as -> <-. apply NoDup_cons in Hnd as [Hx _].
      exfalso. apply Hx. apply elem_of_app. right. by left.
    + injection Heq as <- Heq. apply NoDup_cons in Hnd as [_ Hnd].
      destruct (IH l1' Hnd Heq) as [-> ->]. done.
Qed.

Lemma stable_sort_fmap {A B} (f : A → B) (le : B → B → bool) (l : list A) :
  map f (stable_sort (fun x y => le (f x) (f y)) l) = stable_sort le (map f l).
Proof.
  induction l as [|x l IH]; simpl; [done|]. rewrite <- IH.
  generalize (stable_sort (fun x y => le (f x) (f y)) l). intros l'.
  induction l' as [|y l' IH']; simpl; [done|].
  destruct (le (f x) (f y)); simpl; [done|]. by rewrite IH'.
Qed.

Lemma stable_sort_sorted_id {A} (le : A → A → bool) (l : list A) :
  (∀ x y, le x y = true ∨ le y x = true) →
  (∀ x y z, le x y = true → le y z = true → le x z = true) →
  (∀ x y, x ∈ l → y ∈ l → le x y = true → le y x = true → x = y) →
  StronglySorted (le_rel le) l → stable_sort le l = l.
Proof.
  intros Htotal Htrans Hanti Hl.
  apply (StronglySorted_unique_strong (le_rel le)).
  - intros x y Hx Hy. rewrite elem_of_stable_sort in Hx. by apply Hanti.
  - by apply stable_sort_strongly.
  - done.
  - apply stable_sort_perm.
Qed.

Lemma increasing_NoDup (l : list nat) : StronglySorted lt l → NoDup l.
Proof.
  induction 1 as [|i l Hl IH Hi]; constructor; [|done].
  intros Hin. rewrite Forall_forall in Hi. specialize (Hi i Hin). lia.
Qed.

End Frame.

(** ** streaks.py: the streak tracker *)

Module Streaks.
Import Frame.

(** One row of the frame after the column normalisation of lines 65-66:
    [trade_date] holds the [%Y%m%d] text and [label_limit_up] the coerced
    flag.  [row_index] is the row's index label. *)
Record Row := {
  row_index : nat;
  ts_code : string;
  trade_date : string;
  label_limit_up : bool
}.

(** The order of [sort_values(["ts_code", "trade_date"])]; Python compares
    the two text columns lexicographically. *)
Definition by_code_date (a b : Row) : bool :=
  if String.eqb (ts_code a) (ts_code b)
  then String.leb (trade_date a) (trade_date b)
  else String.leb (ts_code a) (ts_code b).

(** The order of [sort_index()]. *)
Definition by_index {B} (a b : Row * B) : bool :=
  (row_index a.1 <=? row_index b.1)%nat.

(** [sorted(labeled_daily["trade_date"].unique().tolist())]. *)
Definition market_trade_dates (daily_df : list Row) : list string :=
  stable_sort String.leb (remove_dups (map trade_date daily_df)).

(** [{trade_date: position for position, trade_date in enumerate(...)}]. *)
Definition market_trade_positions (dates : list string) : gmap string nat :=
  list_to_map (imap (fun position trade_date => (trade_date, position)) dates).

(** The three variables the inner loop carries from row to row. *)
Record State := {
  previous_streak : nat;
  previous_is_limit_up : bool;
  previous_trade_position : option nat
}.

Definition initial_state : State :=
  {| previous_streak := 0; previous_is_limit_up := false;
     previous_trade_position := None |}.

(** The body of the inner loop: [current_streak] for [row]. *)
Definition current_streak (positions : gmap string nat) (st : State) (row : Row)
    : nat :=
  let current_is_limit_up := label_limit_up row in
  let current_trade_position := positions !!! trade_date row in
  let is_continuous :=
    match previous_trade_position st with
    | Some previous =>
        (Z.of_nat current_trade_position - Z.of_nat previous =? 1)%Z
    | None => false
    end in
  if current_is_limit_up
  then if previous_is_limit_up st && is_continuous
       then previous_streak st + 1 else 1
  else 0.

Definition advance (positions : gmap string nat) (st : State) (row : Row)
    : State :=
  {| previous_streak := current_streak positions st row;
     previous_is_limit_up := label_limit_up row;
     previous_trade_position := Some (positions !!! trade_date row) |}.

(** One iteration: the write [sorted_daily.at[row_index, "streak_up"]] and
    the update of the carried variables. *)
Definition scan_step (positions : gmap string nat)
    (acc : State * gmap nat nat) (row : Row) : State * gmap nat nat :=
  (advance positions acc.1 row,
   <[row_index row := current_streak positions acc.1 row]> acc.2).

Definition scan_group (positions : gmap string nat) (stock_daily : list Row)
    (streak_up : gmap nat nat) : gmap nat nat :=
  (fold_left (scan_step positions) stock_daily (initial_state, streak_up)).2.

(** [groupby("ts_code", sort=False)]: the groups in order of first
    appearance, each with its rows in frame order. *)
Fixpoint group_keys (codes : list string) : list string :=
  match codes with
  | [] => []
  | c :: rest => c :: filter (fun c' => c' ≠ c) (group_keys rest)
  end.

Definition groupby (daily_df : list Row) : list (string * list Row) :=
  map (fun c => (c, filter (fun row => ts_code row = c) daily_df))
      (group_keys (map ts_code daily_df)).

(** The [streak_up] column once every group has been scanned; a label that
    was never written keeps the initial 0. *)
Definition streak_column (daily_df : list Row) : gmap nat nat :=
  fold_left
    (fun column group =>
       scan_group (market_trade_positions (market_trade_dates daily_df))
         group.2 column)
    (groupby (stable_sort by_code_date daily_df)) ∅.

Definition compute_limitup_streak (daily_df : list Row) : list (Row * nat) :=
  let sorted_daily := stable_sort by_code_date daily_df in
  stable_sort by_index
    (map (fun row =>
            (row, default 0 (streak_column daily_df !! row_index row)))
         sorted_daily).

(** The streaks of one instrument's rows as a list, without the column
    store. *)
Fixpoint streaks (positions : gmap string nat) (st : State) (rows : list Row)
    : list nat :=
  match rows with
  | [] => []
  | row :: rest =>
      current_streak positions st row
      :: streaks positions (advance positions st row) rest
  end.

Definition by_date (a b : Row) : bool :=
  String.leb (trade_date a) (trade_date b).

(** The rows an instrument was observed on, in chronological order (rows of
    one date in input order). *)
Definition instrument_series (daily_df : list Row) (c : string) : list Row :=
  stable_sort by_date (filter (fun row => ts_code row = c) daily_df).

(** The frames of tests/test_streaks.py, and one with a duplicated
    (instrument, date) key in two row orders. *)
Definition mk (i : nat) (c d : string) (b : bool) : Row :=
  {| row_index := i; ts_code := c; trade_date := d; label_limit_up := b |}.

Definition six_days : list Row :=
  [ mk 0 "AAA" "20240102" true; mk 1 "BBB" "20240102" false;
    mk 2 "AAA" "20240103" true; mk 3 "BBB" "20240103" true;
    mk 4 "AAA" "20240104" false; mk 5 "BBB" "20240104" true;
    mk 6 "AAA" "20240105" true; mk 7 "BBB" "20240105" true;
    mk 8 "AAA" "20240108" true; mk 9 "BBB" "20240108" false;
    mk 10 "AAA" "20240109" true; mk 11 "BBB" "20240109" true ].

Definition gap_days : list Row :=
  [ mk 0 "AAA" "20240102" true; mk 1 "AAA" "20240104" true;
    mk 2 "BBB" "20240102" false; mk 3 "BBB" "20240103" false;
    mk 4 "BBB" "20240104" false ].

Definition dup_days : list Row :=
  [ mk 0 "AAA" "20240102" true; mk 1 "AAA" "20240102" false;
    mk 2 "AAA" "20240103" true ].

(** Three limit-up days of one instrument, the first two rows under the same
    index label. *)
Definition shared_label_days : list Row :=
  [ mk 0 "AAA" "20240102" true; mk 0 "AAA" "20240103" true;
    mk 1 "AAA" "20240104" true ].

Definition dup_days_shuffled : list Row :=
  [ mk 1 "AAA" "20240102" false; mk 0 "AAA" "20240102" true;
    mk 2 "AAA" "20240103" true ].

Example six_days_streaks :
  map snd (compute_limitup_streak six_days) = [1; 0; 2; 1; 0; 2; 1; 3; 2; 0; 3; 1].
Proof. vm_compute. reflexivity. Qed.

Example gap_days_streaks :
  map snd (compute_limitup_streak gap_days) = [1; 1; 0; 0; 0].
Proof. vm_compute. reflexivity. Qed.

Lemma by_code_date_total (a b : Row) :
  by_code_date a b = true ∨ by_code_date b a = true.
Proof.
  unfold by_code_date. rewrite (String.eqb_sym (ts_code b)).
  destruct (String.eqb (ts_code a) (ts_code b)); apply String.leb_total.
Qed.

Lemma by_code_date_trans (a b c : Row) :
  by_code_date a b = true → by_code_date b c = true → by_code_date a c = true.
Proof.
  unfold by_code_date.
  destruct (String.eqb_spec (ts_code a) (ts_code b)) as [Hab|Hab];
    destruct (String.eqb_spec (ts_code b) (ts_code c)) as [Hbc|Hbc];
    destruct (String.eqb_spec (ts_code a) (ts_code c)) as [Hac|Hac];
    intros H1 H2; try congruence; eauto using string_leb_trans.
  exfalso. apply Hab. apply String.leb_antisym; [done|]. by rewrite Hac.
Qed.

Lemma by_code_date_antisym (a b : Row) :
  by_code_date a b = true → by_code_date b a = true →
  (ts_code a, trade_date a) = (ts_code b, trade_date b).
Proof.
  unfold by_code_date. rewrite (String.eqb_sym (ts_code b)).
  destruct (String.eqb_spec (ts_code a) (ts_code b)) as [Hab|Hab]; intros H1 H2.
  - f_equal; [done|]. by apply String.leb_antisym.
  - exfalso. apply Hab. by apply String.leb_antisym.
Qed.

Lemma market_trade_dates_perm (df df' : list Row) :
  df ≡ₚ df' → market_trade_dates df = market_trade_dates df'.
Proof.
  intros Hperm. unfold market_trade_dates.
  apply stable_sort_unique.
  - apply string_leb_total.
  - apply string_leb_trans.
  - intros x y _ _. apply String.leb_antisym.
  - apply NoDup_Permutation; try apply NoDup_remove_dups.
    intros d. rewrite !elem_of_remove_dups. by rewrite Hperm.
Qed.

Lemma sort_values_perm (df df' : list Row) :
  NoDup (map (fun row => (ts_code row, trade_date row)) df) →
  df ≡ₚ df' →
  stable_sort by_code_date df = stable_sort by_code_date df'.
Proof.
  intros Hkeys Hperm. apply stable_sort_unique; [| | |done].
  - apply by_code_date_total.
  - apply by_code_date_trans.
  - intros x y Hx Hy H1 H2.
    apply (NoDup_fmap_eq _ _ _ _ Hkeys Hx Hy).
    by apply by_code_date_antisym.
Qed.

Section Scan.

Variable positions : gmap string nat.

Lemma fold_scan_lookup_other (rows : list Row) (acc : State * gmap nat nat)
    (i : nat) :
  i ∉ map row_index rows →
  (fold_left (scan_step positions) rows acc).2 !! i = acc.2 !! i.
Proof.
  revert acc. induction rows as [|row rows IH]; intros acc Hi; simpl; [done|].
  simpl in Hi. apply not_elem_of_cons in Hi as [Hne Hi].
  rewrite IH by done. simpl. by rewrite lookup_insert_ne.
Qed.

Lemma fold_scan_lookup (rows : list Row) (acc : State * gmap nat nat)
    (k : nat) (row : Row) :
  NoDup (map row_index rows) →
  rows !! k = Some row →
  (fold_left (scan_step positions) rows acc).2 !! row_index row
  = streaks positions acc.1 rows !! k.
Proof.
  revert acc k. induction rows as [|r rows IH]; intros acc k Hnd Hk; [done|].
  simpl in Hnd. apply NoDup_cons in Hnd as [Hr Hnd].
  destruct k as [|k]; simpl in *.
  - injection Hk as ->. rewrite fold_scan_lookup_other by done.
    simpl. by rewrite lookup_insert_eq.
  - by rewrite (IH _ k).
Qed.

Lemma fold_groups_lookup_other (groups : list (string * list Row))
    (column : gmap nat nat) (i : nat) :
  (∀ g, g ∈ groups → i ∉ map row_index g.2) →
  fold_left (fun column group => scan_group positions group.2 column)
    groups column !! i = column !! i.
Proof.
  revert column. induction groups as [|g groups IH]; intros column Hi; [done|].
  simpl. rewrite IH by (intros; apply Hi; by right).
  unfold scan_group. rewrite fold_scan_lookup_other; [done|].
  apply Hi. by left.
Qed.

Lemma fold_groups_lookup (rows : list Row) (keys : list string)
    (column : gmap nat nat) (k : nat) (row : Row) :
  NoDup (map row_index rows) → NoDup keys → ts_code row ∈ keys →
  filter (fun r => ts_code r = ts_code row) rows !! k = Some row →
  fold_left (fun column group => scan_group positions group.2 column)
    (map (fun c => (c, filter (fun r => ts_code r = c) rows)) keys) column
    !! row_index row
  = streaks positions initial_state
      (filter (fun r => ts_code r = ts_code row) rows) !! k.
Proof.
  intros Hnd Hkeys Hin Hk. revert column Hkeys Hin.
  induction keys as [|c keys IH]; intros column Hkeys Hin; [by inversion Hin|].
  apply NoDup_cons in Hkeys as [Hc Hkeys]. simpl.
  destruct (decide (ts_code row = c)) as [<-|Hne].
  - rewrite fold_groups_lookup_other.
    + unfold scan_group. apply fold_scan_lookup; [|done].
      eapply sublist_NoDup; [exact Hnd|].
      apply (fmap_sublist row_index), sublist_filter.
    + intros g Hg Hrow. apply list_elem_of_fmap in Hg as (c' & -> & Hc').
      simpl in Hrow. apply list_elem_of_fmap in Hrow as (r' & Hidx & Hr').
      apply list_elem_of_filter in Hr' as [Hcode Hr'].
      assert (row = r') as ->.
      { apply (NoDup_fmap_eq row_index rows); [done| |done|done].
        apply list_elem_of_lookup_2 in Hk.
        by apply list_elem_of_filter in Hk as [_ ?]. }
      apply Hc. by rewrite Hcode.
  - apply IH; [done|]. apply elem_of_cons in Hin as [?|?]; done.
Qed.

End Scan.

Lemma NoDup_group_keys (codes : list string) : NoDup (group_keys codes).
Proof.
  induction codes as [|c codes IH]; simpl; [constructor|].
  apply NoDup_cons. split.
  - rewrite list_elem_of_filter. intros [Hne _]. by apply Hne.
  - by apply NoDup_filter.
Qed.

Lemma elem_of_group_keys (codes : list string) (c : string) :
  c ∈ group_keys codes ↔ c ∈ codes.
Proof.
  induction codes as [|c' codes IH]; simpl; [done|].
  rewrite !elem_of_cons, list_elem_of_filter, IH.
  destruct (decide (c = c')); tauto.
Qed.

Lemma filter_sort_values (daily_df : list Row) (c : string) :
  filter (fun row => ts_code row = c) (stable_sort by_code_date daily_df)
  = instrument_series daily_df c.
Proof.
  rewrite filter_stable_sort
    by (apply by_code_date_total || apply by_code_date_trans).
  apply stable_sort_ext. intros x y Hx Hy.
  apply list_elem_of_filter in Hx as [Hx _].
  apply list_elem_of_filter in Hy as [Hy _].
  unfold by_code_date, by_date. rewrite Hx, Hy. by rewrite String.eqb_refl.
Qed.

Lemma streak_column_lookup (daily_df : list Row) (k : nat) (row : Row) :
  NoDup (map row_index daily_df) →
  instrument_series daily_df (ts_code row) !! k = Some row →
  streak_column daily_df !! row_index row
  = streaks (market_trade_positions (market_trade_dates daily_df))
      initial_state (instrument_series daily_df (ts_code row)) !! k.
Proof.
  intros Hnd Hk. unfold streak_column, groupby.
  rewrite <- filter_sort_values in *.
  apply fold_groups_lookup; [| | |done].
  - by rewrite stable_sort_perm.
  - apply NoDup_group_keys.
  - apply elem_of_group_keys. apply list_elem_of_lookup_2 in Hk.
    apply list_elem_of_filter in Hk as [_ Hk].
    by apply (list_elem_of_fmap_2 ts_code).
Qed.

Lemma elem_of_compute_limitup_streak (daily_df : list Row) (row : Row) (n : nat) :
  (row, n) ∈ compute_limitup_streak daily_df
  ↔ row ∈ daily_df ∧ n = default 0 (streak_column daily_df !! row_index row).
Proof.
  unfold compute_limitup_streak.
  rewrite elem_of_stable_sort, list_elem_of_fmap. split.
  - intros (r & [= -> ->] & Hr). by rewrite elem_of_stable_sort in Hr.
  - intros [Hr ->]. exists row. by rewrite elem_of_stable_sort.
Qed.

Lemma streaks_not_limit_up (positions : gmap string nat) (st : State)
    (rows : list Row) (k : nat) (row : Row) :
  rows !! k = Some row → label_limit_up row = false →
  streaks positions st rows !! k = Some 0.
Proof.
  revert st k. induction rows as [|r rows IH]; intros st k Hk Hrow; [done|].
  destruct k as [|k]; simpl in *.
  - injection Hk as ->. unfold current_streak. by rewrite Hrow.
  - by apply IH.
Qed.

Lemma streaks_consecutive (positions : gmap string nat) (st : State)
    (before : list Row) (prev row : Row) (rest : list Row) :
  ∃ st',
    streaks positions st (before ++ prev :: row :: rest) !! length before
    = Some (current_streak positions st' prev)
    ∧ streaks positions st (before ++ prev :: row :: rest) !! S (length before)
      = Some (current_streak positions (advance positions st' prev) row).
Proof.
  revert st. induction before as [|r before IH]; intros st; simpl.
  - by exists st.
  - apply IH.
Qed.

Lemma NoDup_market_trade_dates (daily_df : list Row) :
  NoDup (market_trade_dates daily_df).
Proof.
  unfold market_trade_dates. rewrite stable_sort_perm. apply NoDup_remove_dups.
Qed.

Lemma elem_of_market_trade_dates (daily_df : list Row) (d : string) :
  d ∈ market_trade_dates daily_df ↔ ∃ row, row ∈ daily_df ∧ trade_date row = d.
Proof.
  unfold market_trade_dates.
  rewrite elem_of_stable_sort, elem_of_remove_dups, list_elem_of_fmap.
  split; intros (row & H1 & H2); exists row; done.
Qed.

Lemma market_trade_positions_lookup (dates : list string) (i : nat) (d : string) :
  NoDup dates → dates !! i = Some d → market_trade_positions dates !!! d = i.
Proof.
  intros Hnd Hi. apply lookup_total_correct. unfold market_trade_positions.
  apply elem_of_list_to_map_1.
  - rewrite fmap_imap.
    rewrite (imap_ext _ (const id)) by done.
    by rewrite imap_const, list_fmap_id.
  - apply (elem_of_lookup_imap_2 (fun position trade_date => (trade_date, position))).
    done.
Qed.

Lemma elem_of_instrument_series (daily_df : list Row) (c : string) (row : Row) :
  row ∈ instrument_series daily_df c ↔ row ∈ daily_df ∧ ts_code row = c.
Proof.
  unfold instrument_series. rewrite elem_of_stable_sort, list_elem_of_filter.
  tauto.
Qed.

Lemma streak_of_series_row (daily_df : list Row) (k : nat) (row : Row) (n : nat) :
  NoDup (map row_index daily_df) →
  instrument_series daily_df (ts_code row) !! k = Some row →
  (row, n) ∈ compute_limitup_streak daily_df →
  streaks (market_trade_positions (market_trade_dates daily_df)) initial_state
    (instrument_series daily_df (ts_code row)) !! k = Some n.
Proof.
  intros Hnd Hk Hn. apply elem_of_compute_limitup_streak in Hn as [_ ->].
  rewrite (streak_column_lookup _ k) by done.
  destruct (streaks _ _ _ !! k) eqn:Hs; [done|].
  apply lookup_ge_None in Hs. apply lookup_lt_Some in Hk.
  assert (∀ p st l, length (streaks p st l) = length l) as Hlen.
  { intros p st l. revert st. induction l; intros st; simpl; [done|].
    by rewrite IHl. }
  rewrite Hlen in Hs. lia.
Qed.

Lemma current_streak_after (positions : gmap string nat) (st : State)
    (prev row : Row) :
  current_streak positions (advance positions st prev) row
  = if label_limit_up row
    then if label_limit_up prev
            && (positions !!! trade_date row =? positions !!! trade_date prev + 1)%nat
         then current_streak positions st prev + 1 else 1
    else 0.
Proof.
  unfold current_streak at 1, advance. simpl.
  destruct (label_limit_up row); [|done].
  assert ((Z.of_nat (positions !!! trade_date row)
           - Z.of_nat (positions !!! trade_date prev) =? 1)%Z
          = (positions !!! trade_date row =? positions !!! trade_date prev + 1)%nat)
    as ->; [|done].
  apply eq_iff_eq_true. rewrite Z.eqb_eq, Nat.eqb_eq. lia.
Qed.

(** C1, refuted as stated: the loop writes a streak with
    [sorted_daily.at[row_index, "streak_up"]], by index label (line 91), so
    two rows under one label both end with the streak written last.  In a
    frame of three consecutive limit-up days whose first two rows share the
    label 0, the first row opens its instrument's series and is limit-up,
    yet its streak is 2, not 1. *)
Lemma streak_with_shared_index_label :
  map snd (compute_limitup_streak shared_label_days) = [2; 2; 3]
  ∧ instrument_series shared_label_days "AAA" = shared_label_days
  ∧ (mk 0 "AAA" "20240102" true, 2) ∈ compute_limitup_streak shared_label_days
  ∧ ¬ NoDup (map row_index shared_label_days).
Proof.
  split; [vm_compute; reflexivity|]. split; [vm_compute; reflexivity|].
  split.
  - apply (list_elem_of_lookup_2 _ 0). vm_compute. reflexivity.
  - intros H. apply NoDup_cons in H as [H _]. apply H. by left.
Qed.

(** C1, amended: with unique index labels, every row gets a streak; a row
    that is not limit-up gets 0; a limit-up row that opens its instrument's series gets
    1; a later limit-up row gets the previous observed row's streak plus 1
    when that row was limit-up and sits exactly one position earlier in the
    calendar of all distinct dates of the input, and 1 otherwise; and a
    limit-up row at calendar position k+2 whose instrument has no row on the
    date at position k+1 gets 1. *)
Theorem streak_up_invariant (daily_df : list Row) :
  NoDup (map row_index daily_df) →
  let out := compute_limitup_streak daily_df in
  let calendar := market_trade_dates daily_df in
  (∀ row, row ∈ daily_df → ∃ n, (row, n) ∈ out)
  ∧ (∀ row n, (row, n) ∈ out → label_limit_up row = false → n = 0)
  ∧ (∀ row rest n,
       instrument_series daily_df (ts_code row) = row :: rest →
       (row, n) ∈ out → label_limit_up row = true → n = 1)
  ∧ (∀ before prev row rest m n i j,
       instrument_series daily_df (ts_code row)
       = before ++ prev :: row :: rest →
       (prev, m) ∈ out → (row, n) ∈ out → label_limit_up row = true →
       calendar !! i = Some (trade_date prev) →
       calendar !! j = Some (trade_date row) →
       n = if label_limit_up prev && (j =? i + 1)%nat then m + 1 else 1)
  ∧ (∀ row n k missing,
       (row, n) ∈ out → label_limit_up row = true →
       calendar !! (k + 2)%nat = Some (trade_date row) →
       calendar !! (k + 1)%nat = Some missing →
       (∀ other, other ∈ daily_df → ts_code other = ts_code row →
                 trade_date other ≠ missing) →
       n = 1).
Proof.
  intros Hnd out calendar.
  assert (Hfirst : ∀ row rest n,
    instrument_series daily_df (ts_code row) = row :: rest →
    (row, n) ∈ out → label_limit_up row = true → n = 1).
  { intros row rest n Hs Hn Hup.
    pose proof (streak_of_series_row daily_df 0 row n Hnd) as H.
    rewrite Hs in H. specialize (H eq_refl Hn). simpl in H.
    injection H as <-. unfold current_streak. by rewrite Hup. }
  assert (Hnext : ∀ before prev row rest m n i j,
    instrument_series daily_df (ts_code row) = before ++ prev :: row :: rest →
    (prev, m) ∈ out → (row, n) ∈ out → label_limit_up row = true →
    calendar !! i = Some (trade_date prev) →
    calendar !! j = Some (trade_date row) →
    n = if label_limit_up prev && (j =? i + 1)%nat then m + 1 else 1).
  { intros before prev row rest m n i j Hs Hm Hn Hup Hi Hj.
    assert (Hcode : ts_code prev = ts_code row).
    { apply (elem_of_instrument_series daily_df (ts_code row) prev).
      rewrite Hs. apply elem_of_app. right. by left. }
    pose proof (streak_of_series_row daily_df (length before) prev m Hnd) as Hp.
    rewrite Hcode, Hs in Hp.
    rewrite list_lookup_middle in Hp by done. specialize (Hp eq_refl Hm).
    pose proof (streak_of_series_row daily_df (S (length before)) row n Hnd) as Hr.
    rewrite Hs in Hr.
    rewrite (lookup_app_r before) in Hr by lia.
    replace (S (length before) - length before)%nat with 1%nat in Hr by lia.
    specialize (Hr eq_refl Hn).
    destruct (streaks_consecutive
                (market_trade_positions (market_trade_dates daily_df))
                initial_state before prev row rest) as (st' & H1 & H2).
    rewrite H1 in Hp. rewrite H2 in Hr.
    injection Hp as <-. injection Hr as <-.
    rewrite current_streak_after, Hup.
    rewrite (market_trade_positions_lookup _ i (trade_date prev))
      by (done || apply NoDup_market_trade_dates).
    rewrite (market_trade_positions_lookup _ j (trade_date row))
      by (done || apply NoDup_market_trade_dates).
    done. }
  split; [|split; [|split; [exact Hfirst|split; [exact Hnext|]]]].
  - intros row Hrow. eexists. apply elem_of_compute_limitup_streak. done.
  - intros row n Hn Hup.
    pose proof Hn as Hn'. apply elem_of_compute_limitup_streak in Hn' as [Hrow _].
    assert (row ∈ instrument_series daily_df (ts_code row)) as Hin
      by (by apply elem_of_instrument_series).
    apply list_elem_of_lookup in Hin as [k Hk].
    pose proof (streak_of_series_row daily_df k row n Hnd Hk Hn) as H.
    rewrite (streaks_not_limit_up _ _ _ k row) in H by done. by injection H.
  - intros row n k missing Hn Hup Hrowpos Hmissing Habsent.
    pose proof Hn as Hn'. apply elem_of_compute_limitup_streak in Hn' as [Hrow _].
    assert (row ∈ instrument_series daily_df (ts_code row)) as Hin
      by (by apply elem_of_instrument_series).
    apply list_elem_of_lookup in Hin as [[|idx] Hidx].
    + destruct (instrument_series daily_df (ts_code row)) as [|r0 rest] eqn:Hs;
        [done|]. simpl in Hidx. injection Hidx as ->. by eapply Hfirst.
    + destruct (lookup_S_split _ _ _ Hidx) as (before & prev & rest & Hs & _).
      assert (Hprev : prev ∈ daily_df ∧ ts_code prev = ts_code row).
      { apply elem_of_instrument_series. rewrite Hs.
        apply elem_of_app. right. by left. }
      destruct Hprev as [Hprev Hcode].
      assert (trade_date prev ∈ calendar) as Hcal.
      { apply elem_of_market_trade_dates. by exists prev. }
      apply list_elem_of_lookup in Hcal as [i Hi].
      assert (∃ m, (prev, m) ∈ out) as [m Hm].
      { eexists. by apply elem_of_compute_limitup_streak. }
      rewrite (Hnext before prev row rest m n i (k + 2)%nat Hs Hm Hn Hup Hi Hrowpos).
      assert ((k + 2 =? i + 1)%nat = false) as ->.
      { apply Nat.eqb_neq. intros Heq.
        assert (i = k + 1)%nat as -> by lia.
        apply (Habsent prev Hprev Hcode). unfold calendar in *. congruence. }
      by rewrite andb_false_r.
Qed.

Lemma streak_up_invariant_witness :
  ∃ n, (mk 1 "AAA" "20240104" true, n) ∈ compute_limitup_streak gap_days.
Proof.
  assert (Hnd : NoDup (map row_index gap_days)).
  { apply (bool_decide_unpack _). vm_compute. exact I. }
  destruct (streak_up_invariant gap_days Hnd) as (Hall & _).
  apply Hall. apply (list_elem_of_lookup_2 _ 1). reflexivity.
Defined.

(** C6, refuted as stated: two rows of one instrument on one date, one
    limit-up and one not.  Swapping them changes which of the two is the
    previous observed row of the next day, and with it that day's streak,
    although both outputs are in index order. *)
Lemma streak_depends_on_order_of_duplicates :
  dup_days_shuffled ≡ₚ dup_days
  ∧ map snd (compute_limitup_streak dup_days) = [1; 0; 1]
  ∧ map snd (compute_limitup_streak dup_days_shuffled) = [1; 0; 2]
  ∧ compute_limitup_streak dup_days_shuffled ≠ compute_limitup_streak dup_days.
Proof.
  split; [apply Permutation_swap|].
  split; [vm_compute; reflexivity|]. split; [vm_compute; reflexivity|].
  vm_compute. discriminate.
Qed.

(** C6, amended: when no two rows share an (instrument, date) key, the
    streak tracker returns the same frame for every reordering of the rows
    (each row keeping its index label): the same streak on every row, in
    index order. *)
Theorem streak_independent_of_row_order (daily_df shuffled_df : list Row) :
  NoDup (map (fun row => (ts_code row, trade_date row)) daily_df) →
  shuffled_df ≡ₚ daily_df →
  compute_limitup_streak shuffled_df = compute_limitup_streak daily_df.
Proof.
  intros Hkeys Hperm. unfold compute_limitup_streak, streak_column.
  rewrite (market_trade_dates_perm _ _ Hperm).
  by rewrite <- (sort_values_perm _ _ Hkeys (symmetry Hperm)).
Qed.

Lemma streak_independent_of_row_order_witness :
  compute_limitup_streak (reverse gap_days) = compute_limitup_streak gap_days.
Proof.
  apply streak_independent_of_row_order.
  - apply (bool_decide_unpack _). vm_compute. exact I.
  - apply reverse_Permutation.
Defined.

End Streaks.

(** ** returns.py: the forward-return engine *)

Module Returns.
Import Frame.

(** One row with the columns the engine uses.  [row_index] is the index
    label (the [_original_index] column) and [trade_sort_key] the
    [_trade_sort_key] column, the parsed date as a day number. *)
Record Bar := {
  row_index : nat;
  ts_code : string;
  trade_sort_key : Z;
  open : cell;
  close : cell
}.

Record BarWithReturns := {
  bar : Bar;
  next_open_ret : cell;
  next_close_ret : cell
}.

(** [next_price / current_close - 1.0] in doubles. *)
Definition forward_return (next_price current_close : Q) : Q :=
  Double.binary64 (Double.binary64 (next_price / current_close) - 1).

(** NaN unless both prices are numbers and the close is not zero. *)
Definition _compute_forward_return (next_price current_close : cell) : cell :=
  match current_close, next_price with
  | Some c, Some n =>
      if Qeq_bool c 0 then None else Some (forward_return n c)
  | _, _ => None
  end.

(** The order of
    [sort_values(["ts_code", "_trade_sort_key", "_original_index"])]. *)
Definition by_code_date_index (a b : Bar) : bool :=
  if String.eqb (ts_code a) (ts_code b)
  then if (trade_sort_key a =? trade_sort_key b)%Z
       then (row_index a <=? row_index b)%nat
       else (trade_sort_key a <=? trade_sort_key b)%Z
  else String.leb (ts_code a) (ts_code b).

(** The order of [sort_values("_original_index")]. *)
Definition by_original_index (a b : BarWithReturns) : bool :=
  (row_index (bar a) <=? row_index (bar b))%nat.

(** [groupby("ts_code")[column].shift(-1)] at the head of [rows]. *)
Definition next_in_group (value : Bar → cell) (row : Bar) (rest : list Bar)
    : cell :=
  match head (filter (fun other => ts_code other = ts_code row) rest) with
  | Some next => value next
  | None => None
  end.

(** The two shifted columns and the two return columns, row by row over
    the sorted frame. *)
Fixpoint with_forward_returns (sorted_daily : list Bar) : list BarWithReturns :=
  match sorted_daily with
  | [] => []
  | row :: rest =>
      let _next_open_price := next_in_group open row rest in
      let _next_close_price := next_in_group close row rest in
      {| bar := row;
         next_open_ret := _compute_forward_return _next_open_price (close row);
         next_close_ret := _compute_forward_return _next_close_price (close row) |}
      :: with_forward_returns rest
  end.

Definition add_next_day_returns (daily_df : list Bar) : list BarWithReturns :=
  let sorted_daily := stable_sort by_code_date_index daily_df in
  stable_sort by_original_index (with_forward_returns sorted_daily).

Definition by_date (a b : Bar) : bool := (trade_sort_key a <=? trade_sort_key b)%Z.

(** An instrument's chronologically sorted series: its rows by date, rows
    of one date in input order. *)
Definition instrument_series (daily_df : list Bar) (c : string) : list Bar :=
  stable_sort by_date (filter (fun row => ts_code row = c) daily_df).

Definition by_code_date (a b : Bar) : bool :=
  if String.eqb (ts_code a) (ts_code b)
  then (trade_sort_key a <=? trade_sort_key b)%Z
  else String.leb (ts_code a) (ts_code b).

(** The frame of tests/test_returns_stats.py. *)
Definition mk (i : nat) (c : string) (d : Z) (o cl : Q) : Bar :=
  {| row_index := i; ts_code := c; trade_sort_key := d;
     open := Some o; close := Some cl |}.

Definition test_bars : list Bar :=
  [ mk 0 "AAA" 20240103 11 12; mk 1 "AAA" 20240102 10 10;
    mk 2 "BBB" 20240102 20 20; mk 3 "BBB" 20240103 19 18 ].

(** Rows whose index labels do not increase along the rows: the first two
    rows are the same instrument on the same date. *)
Definition relabelled_bars : list Bar :=
  [ mk 1 "AAA" 20240102 10 10; mk 0 "AAA" 20240102 20 20;
    mk 2 "AAA" 20240103 30 30 ].

Example test_bars_returns :
  map (fun o => (next_open_ret o, next_close_ret o))
      (add_next_day_returns test_bars)
  = [ (None, None);
      (Some (forward_return 11 10), Some (forward_return 12 10));
      (Some (forward_return 19 20), Some (forward_return 18 20));
      (None, None) ].
Proof. vm_compute. reflexivity. Qed.

(** 11/10 - 1 in doubles is 0.10000000000000009, not the double 0.1. *)
Example forward_return_is_rounded :
  forward_return 11 10 = (225179981368525 # 2251799813685248)%Q
  ∧ ¬ (forward_return 11 10 == Double.binary64 (1 # 10))%Q.
Proof. split; [vm_compute; reflexivity|]. vm_compute. discriminate. Qed.

Lemma bar_order_total (a b : Bar) :
  by_code_date a b = true ∨ by_code_date b a = true.
Proof.
  unfold by_code_date. rewrite (String.eqb_sym (ts_code b)).
  destruct (String.eqb (ts_code a) (ts_code b)); [|apply String.leb_total].
  rewrite !Z.leb_le. lia.
Qed.

Lemma bar_order_trans (a b c : Bar) :
  by_code_date a b = true → by_code_date b c = true → by_code_date a c = true.
Proof.
  unfold by_code_date.
  destruct (String.eqb_spec (ts_code a) (ts_code b)) as [Hab|Hab];
    destruct (String.eqb_spec (ts_code b) (ts_code c)) as [Hbc|Hbc];
    destruct (String.eqb_spec (ts_code a) (ts_code c)) as [Hac|Hac];
    rewrite ?Z.leb_le; intros H1 H2; try congruence; try lia;
    eauto using string_leb_trans.
  exfalso. apply Hab. apply String.leb_antisym; [done|]. by rewrite Hac.
Qed.

Lemma sort_with_index_tiebreak (daily_df : list Bar) :
  StronglySorted lt (map row_index daily_df) →
  stable_sort by_code_date_index daily_df = stable_sort by_code_date daily_df.
Proof.
  induction daily_df as [|x l IH]; intros Hidx; simpl; [done|].
  simpl in Hidx. apply StronglySorted_inv in Hidx as [Hl Hx].
  rewrite IH by done. apply insert_sorted_ext. intros y Hy.
  apply elem_of_stable_sort in Hy.
  rewrite Forall_forall in Hx.
  assert (row_index x < row_index y)%nat as Hlt.
  { apply Hx. by apply (list_elem_of_fmap_2 row_index). }
  unfold by_code_date_index, by_code_date.
  destruct (String.eqb (ts_code x) (ts_code y)); [|done].
  destruct (Z.eqb_spec (trade_sort_key x) (trade_sort_key y)) as [->|]; [|done].
  rewrite Z.leb_refl. apply Nat.leb_le. lia.
Qed.

Lemma filter_sorted_daily (daily_df : list Bar) (c : string) :
  StronglySorted lt (map row_index daily_df) →
  filter (fun row => ts_code row = c) (stable_sort by_code_date_index daily_df)
  = instrument_series daily_df c.
Proof.
  intros Hidx. rewrite sort_with_index_tiebreak by done.
  rewrite filter_stable_sort
    by (apply bar_order_total || apply bar_order_trans).
  apply stable_sort_ext. intros x y Hx Hy.
  apply list_elem_of_filter in Hx as [Hx _].
  apply list_elem_of_filter in Hy as [Hy _].
  unfold by_code_date, by_date. rewrite Hx, Hy. by rewrite String.eqb_refl.
Qed.

Lemma fmap_bar_with_forward_returns (rows : list Bar) :
  map bar (with_forward_returns rows) = rows.
Proof. induction rows as [|row rows IH]; simpl; [done|]. by rewrite IH. Qed.

Lemma elem_of_with_forward_returns (rows : list Bar) (o : BarWithReturns) :
  o ∈ with_forward_returns rows →
  ∃ before rest,
    rows = before ++ bar o :: rest
    ∧ next_open_ret o
      = _compute_forward_return (next_in_group open (bar o) rest) (close (bar o))
    ∧ next_close_ret o
      = _compute_forward_return (next_in_group close (bar o) rest) (close (bar o)).
Proof.
  induction rows as [|row rows IH]; simpl; intros Ho; [by inversion Ho|].
  apply elem_of_cons in Ho as [->|Ho].
  - by exists [], rows.
  - destruct (IH Ho) as (before & rest & -> & H1 & H2).
    by exists (row :: before), rest.
Qed.

Lemma index_sorted_NoDup (daily_df : list Bar) :
  StronglySorted lt (map row_index daily_df) → NoDup daily_df.
Proof. intros Hidx. by apply (NoDup_fmap_1 row_index), increasing_NoDup. Qed.

Lemma restore_original_order (daily_df : list Bar) (outs : list BarWithReturns) :
  StronglySorted lt (map row_index daily_df) →
  map bar outs ≡ₚ daily_df →
  map bar (stable_sort by_original_index outs) = daily_df.
Proof.
  intros Hidx Hperm. unfold by_original_index.
  rewrite (stable_sort_fmap bar (fun a b => (row_index a <=? row_index b)%nat)).
  set (le := fun a b : Bar => (row_index a <=? row_index b)%nat).
  assert (Htotal : ∀ x y, le x y = true ∨ le y x = true).
  { intros x y. unfold le. rewrite !Nat.leb_le. lia. }
  assert (Htrans : ∀ x y z, le x y = true → le y z = true → le x z = true).
  { intros x y z. unfold le. rewrite !Nat.leb_le. lia. }
  assert (Hanti : ∀ x y, x ∈ daily_df → y ∈ daily_df →
                         le x y = true → le y x = true → x = y).
  { intros x y Hx Hy. unfold le. rewrite !Nat.leb_le. intros H1 H2.
    apply (NoDup_fmap_eq row_index daily_df); [|done|done|lia].
    by apply increasing_NoDup. }
  rewrite <- (stable_sort_sorted_id le daily_df Htotal Htrans Hanti).
  - apply stable_sort_unique; try done.
    intros x y Hx Hy. rewrite Hperm in Hx, Hy. by apply Hanti.
  - clear -Hidx. induction daily_df as [|z l IH]; [constructor|].
    simpl in Hidx. apply StronglySorted_inv in Hidx as [Hl Hz].
    constructor; [by apply IH|].
    rewrite Forall_forall in Hz. apply Forall_forall.
    intros y Hy. unfold le_rel, le.
    apply Nat.leb_le.
    specialize (Hz (row_index y) (list_elem_of_fmap_2 row_index _ _ Hy)). lia.
Qed.

(** C5, refuted as stated: the engine puts the rows back with
    [sort_values("_original_index")] and breaks the ties of the first sort
    by [_original_index], the index label (lines 37-53).  With the labels
    1, 0, 2 the output is in label order, not in the caller's row order;
    and of the two rows of 20240102 the one labelled 0 is taken as the
    earlier, so the first input row, which opens the series in input order,
    gets the return to 20240103 (30/10 - 1) and not the return to the row
    that follows it in the input (20/10 - 1). *)
Lemma returns_follow_index_labels :
  map (fun o => row_index (bar o)) (add_next_day_returns relabelled_bars)
  = [0; 1; 2]
  ∧ map bar (add_next_day_returns relabelled_bars) ≠ relabelled_bars
  ∧ instrument_series relabelled_bars "AAA" = relabelled_bars
  ∧ map (fun o => (row_index (bar o), next_close_ret o))
        (add_next_day_returns relabelled_bars)
    = [ (0, Some (forward_return 10 20)); (1, Some (forward_return 30 10));
        (2, None) ]
  ∧ ¬ (forward_return 30 10 == forward_return 20 10)%Q.
Proof.
  split; [vm_compute; reflexivity|]. split; [vm_compute; discriminate|].
  split; [vm_compute; reflexivity|]. split; [vm_compute; reflexivity|].
  vm_compute. discriminate.
Qed.

(** C5, amended: for a frame whose index labels increase along the rows (the
    default RangeIndex), the output has the input's rows in the input's
    order; for two consecutive rows of an instrument's chronologically
    sorted series the returns of the earlier row are open[t+1]/close[t] - 1
    and close[t+1]/close[t] - 1, computed in doubles; both are NaN on the
    last row of the series, and on every row whose close is NaN or zero. *)
Theorem forward_returns_by_instrument (daily_df : list Bar) :
  StronglySorted lt (map row_index daily_df) →
  let out := add_next_day_returns daily_df in
  map bar out = daily_df
  ∧ (∀ c before row next rest o,
       instrument_series daily_df c = before ++ row :: next :: rest →
       o ∈ out → bar o = row →
       (∀ q, close row = Some q → ¬ (q == 0)%Q →
          (∀ p, open next = Some p →
                next_open_ret o
                = Some (Double.binary64 (Double.binary64 (p / q) - 1)))
          ∧ (∀ p, close next = Some p →
                next_close_ret o
                = Some (Double.binary64 (Double.binary64 (p / q) - 1))))
       ∧ (open next = None → next_open_ret o = None)
       ∧ (close next = None → next_close_ret o = None))
  ∧ (∀ c before row o,
       instrument_series daily_df c = before ++ [row] →
       o ∈ out → bar o = row →
       next_open_ret o = None ∧ next_close_ret o = None)
  ∧ (∀ o, o ∈ out →
       (close (bar o) = None ∨ ∃ q, close (bar o) = Some q ∧ (q == 0)%Q) →
       next_open_ret o = None ∧ next_close_ret o = None).
Proof.
  intros Hidx out.
  assert (Hnd : NoDup daily_df) by (by apply index_sorted_NoDup).
  assert (Hout : ∀ o, o ∈ out →
    ∃ before rest,
      stable_sort by_code_date_index daily_df = before ++ bar o :: rest
      ∧ next_open_ret o
        = _compute_forward_return (next_in_group open (bar o) rest) (close (bar o))
      ∧ next_close_ret o
        = _compute_forward_return (next_in_group close (bar o) rest) (close (bar o))).
  { intros o Ho. apply elem_of_with_forward_returns.
    unfold out, add_next_day_returns in Ho. by rewrite elem_of_stable_sort in Ho. }
  assert (Hnext : ∀ c before row rest' o,
    instrument_series daily_df c = before ++ row :: rest' →
    o ∈ out → bar o = row →
    next_open_ret o
    = _compute_forward_return (head rest' ≫= open) (close row)
    ∧ next_close_ret o
      = _compute_forward_return (head rest' ≫= close) (close row)).
  { intros c before row rest' o Hs Ho Hbar.
    destruct (Hout o Ho) as (l1 & l2 & Hsorted & H1 & H2).
    rewrite Hbar in *.
    assert (Hc : ts_code row = c).
    { assert (row ∈ instrument_series daily_df c) as Hin
        by (rewrite Hs; apply elem_of_app; right; by left).
      unfold instrument_series in Hin. rewrite elem_of_stable_sort in Hin.
      by apply list_elem_of_filter in Hin as [? _]. }
    pose proof (filter_sorted_daily daily_df c Hidx) as Hf.
    rewrite Hsorted, filter_app, filter_cons, Hs in Hf.
    rewrite decide_True in Hf by done.
    apply NoDup_app_cons_inj in Hf as [_ Hrest].
    2:{ rewrite <- filter_cons_True by done. rewrite <- filter_app.
        apply NoDup_filter. rewrite <- Hsorted.
        by rewrite stable_sort_perm. }
    unfold next_in_group in H1, H2. rewrite Hc, Hrest in H1, H2.
    rewrite H1, H2. by destruct rest'. }
  split; [|split; [|split]].
  - apply restore_original_order; [done|].
    by rewrite fmap_bar_with_forward_returns, stable_sort_perm.
  - intros c before row next rest o Hs Ho Hbar.
    destruct (Hnext c before row (next :: rest) o Hs Ho Hbar) as [-> ->].
    simpl. split; [|split].
    + intros q Hq Hq0. rewrite Hq. split; intros p ->; simpl.
      * destruct (Qeq_bool q 0) eqn:E; [|done]. by apply Qeq_bool_iff in E.
      * destruct (Qeq_bool q 0) eqn:E; [|done]. by apply Qeq_bool_iff in E.
    + intros ->. by destruct (close row).
    + intros ->. by destruct (close row).
  - intros c before row o Hs Ho Hbar.
    destruct (Hnext c before row [] o Hs Ho Hbar) as [-> ->].
    simpl. by destruct (close row).
  - intros o Ho Hclose. destruct (Hout o Ho) as (l1 & l2 & _ & -> & ->).
    destruct Hclose as [->|(q & -> & Hq)]; [done|].
    apply Qeq_bool_iff in Hq. simpl. rewrite Hq.
    by destruct (next_in_group open _ _), (next_in_group close _ _).
Qed.

Lemma forward_returns_by_instrument_witness :
  map bar (add_next_day_returns test_bars) = test_bars.
Proof.
  apply forward_returns_by_instrument.
  repeat (constructor; [|repeat constructor; simpl; lia]). constructor.
Defined.

End Returns.

(** ** strategy_base.py, strategies/ and backtest.py: the backtest simulator *)

Module Backtest.
Import Frame FillModels.

Local Abbreviation fl := Double.binary64 (only parsing).

(** The functions of pandas and of Python's float type that the simulator
    calls on text; they are not part of the repository. *)
Record Pandas := {
  (** [pd.to_datetime(text, errors="coerce")]: [None] is NaT, a date is its
      day number. *)
  to_datetime : string → option Z;
  (** [Timestamp.strftime("%Y%m%d")]. *)
  strftime_ymd : Z → string;
  (** [pd.to_numeric(text, errors="coerce")]. *)
  parse_numeric : string → cell;
  (** [str(x)] for a finite float. *)
  float_repr : Q → string
}.

(** One row of the daily frame: the four columns [ensure_columns] asks for,
    typed as the schema has them, and every other column by name. *)
Record Bar := {
  ts_code : string;
  trade_date : string;
  open : cell;
  close : cell;
  others : gmap string PyVal
}.

Definition set_trade_date (d : string) (row : Bar) : Bar :=
  {| ts_code := ts_code row; trade_date := d; open := open row;
     close := close row; others := others row |}.

(** [row.to_dict()]. *)
Definition to_dict (row : Bar) : gmap string PyVal :=
  <["ts_code" := PyStr (ts_code row)]>
    (<["trade_date" := PyStr (trade_date row)]>
       (<["open" := PyFloat (open row)]>
          (<["close" := PyFloat (close row)]> (others row)))).

Record Trade := {
  trade_strategy_name : string;
  trade_fill_model : FillModel;
  trade_ts_code : string;
  trade_entry_date : string;
  trade_entry_price : Q;
  trade_exit_date : string;
  trade_exit_price : cell;
  trade_ret_net : cell
}.

Record BacktestResult := {
  trades : list Trade;
  equity_curve : list (string * cell)
}.

(** A strategy: its class attributes and its two methods.  The methods read
    the instance's [fill_model] attribute ([None] when the instance has no
    such attribute) and do not write to the instance, like the two
    strategies of the repository. *)
Record Strategy := {
  name : string;
  exit_price_type : option string;
  generate_entries : option ModelArg → list Bar → result (list PyVal);
  generate_exits : option ModelArg → list Bar → result (list PyVal)
}.

(** Float arithmetic on cells: the rounded result, and NaN propagates. *)
Definition cell_mul (a b : cell) : cell :=
  match a, b with
  | Some x, Some y => Some (Double.binary64 (x * y))
  | _, _ => None
  end.

Definition cell_add (a b : cell) : cell :=
  match a, b with
  | Some x, Some y => Some (Double.binary64 (x + y))
  | _, _ => None
  end.

(** [normalize_bool_series], cell by cell: a bool is kept, any other value
    is compared as stripped lower-case text with the accepted spellings. *)
Definition normalize_bool (v : PyVal) : bool :=
  match v with
  | PyBool b => b
  | PyInt z => str_in (lower (strip (str_int z))) truthy_texts
  | PyStr s => str_in (lower (strip s)) truthy_texts
  | PyFloat _ | PyNone => false
  end.

Definition normalize_bool_series (values : list PyVal) : list bool :=
  map normalize_bool values.

Definition _normalize_fill_model (fill_model : ModelArg) : result FillModel :=
  match fill_model with
  | ModelEnum m => Ok m
  | ModelText s => fill_model_of_value (upper (strip s))
  end.

(** The order of [sort_values(["ts_code", "_trade_sort_key", "_row_order"])]
    on rows paired with their sort key and their position. *)
Definition by_code_key_order (a b : Bar * Z * nat) : bool :=
  if String.eqb (ts_code a.1.1) (ts_code b.1.1)
  then if (a.1.2 =? b.1.2)%Z then (a.2 <=? b.2)%nat else (a.1.2 <=? b.1.2)%Z
  else String.leb (ts_code a.1.1) (ts_code b.1.1).

(** The order of [sort_values(["entry_date", "ts_code"])] on trades. *)
Definition by_entry_date_code (a b : Trade) : bool :=
  if String.eqb (trade_entry_date a) (trade_entry_date b)
  then String.leb (trade_ts_code a) (trade_ts_code b)
  else String.leb (trade_entry_date a) (trade_entry_date b).

(** The inner loop of [_build_equity_curve] for one date,
    [equity *= 1.0 + float(day_return)], and the loop over the dates. *)
Definition compound_day (trade_date : string) (trades : list Trade)
    (equity : cell) : cell :=
  fold_left (fun equity day_return => cell_mul equity (cell_add (Some 1%Q) day_return))
            (map trade_ret_net
                 (filter (fun t => trade_exit_date t = trade_date) trades))
            equity.

Fixpoint equity_rows (trade_dates : list string) (trades : list Trade)
    (equity : cell) : list (string * cell) :=
  match trade_dates with
  | [] => []
  | trade_date :: rest =>
      let equity := compound_day trade_date trades equity in
      (trade_date, equity) :: equity_rows rest trades equity
  end.

(** The equity of the last row of the curve; 1.0 for an empty curve. *)
Definition final_equity (result : BacktestResult) : cell :=
  match last (equity_curve result) with
  | Some row => row.2
  | None => Some 1%Q
  end.

(** Two trades on the same signal, one priced with costs and one priced
    without: the return with costs is not below -1 and not above the return
    without. *)
Definition cost_pair (t t0 : Trade) : Prop :=
  trade_entry_date t = trade_entry_date t0
  ∧ trade_ts_code t = trade_ts_code t0
  ∧ trade_exit_date t = trade_exit_date t0
  ∧ ∃ r r0 : Q,
      trade_ret_net t = Some r ∧ trade_ret_net t0 = Some r0
      ∧ (- (1) <= r)%Q ∧ (r <= r0)%Q.

(** The equity with costs against the equity without. *)
Definition equity_pair (equity equity0 : cell) : Prop :=
  ∃ e e0 : Q,
    equity = Some e ∧ equity0 = Some e0 ∧ (0 <= e)%Q ∧ (e <= e0)%Q.

Definition final_of (trade_dates : list string) (trades : list Trade)
    (equity : cell) : cell :=
  fold_left (fun equity trade_date => compound_day trade_date trades equity)
            trade_dates equity.

Section Simulator.

Variable pd : Pandas.

(** [str(value)]. *)
Definition py_str (value : PyVal) : string :=
  match value with
  | PyNone => "None"
  | PyBool true => "True"
  | PyBool false => "False"
  | PyInt z => str_int z
  | PyFloat None => "nan"
  | PyFloat (Some q) => float_repr pd q
  | PyStr s => s
  end.

Definition parse_trade_dates (trade_dates : list string) : result (list Z) :=
  map_result
    (fun text =>
       match to_datetime pd (strip text) with
       | Some parsed => Ok parsed
       | None => Raise ValueError
       end)
    trade_dates.

Definition _normalize_trade_date (value : PyVal) : option string :=
  match value with
  | PyNone => None
  | _ =>
      let text := strip (py_str value) in
      if String.eqb text "" || String.eqb (lower text) "nan" then None
      else
        match to_datetime pd text with
        | None => None
        | Some parsed => Some (strftime_ymd pd parsed)
        end
  end.

Definition _build_price_lookup (daily_df : list Bar)
    : result (gmap (string * string) (cell * cell)) :=
  let! _trade_sort_key := parse_trade_dates (map trade_date daily_df) in
  let with_sort_key :=
    zip (zip daily_df _trade_sort_key) (seq 0 (length daily_df)) in
  let sorted := stable_sort by_code_key_order with_sort_key in
  Ok (fold_left
        (fun lookup keyed =>
           <[(ts_code keyed.1.1, strftime_ymd pd keyed.1.2)
             := (open keyed.1.1, close keyed.1.1)]> lookup)
        sorted ∅).

(** [self_fill_model] is the instance's [fill_model] attribute before the
    call; the second component of the result is the attribute after it. *)
Definition _generate_signals (daily_df : list Bar) (strategy : Strategy)
    (self_fill_model : option ModelArg) (fill_model : FillModel)
    : result (list bool * list PyVal) * option ModelArg :=
  let original_fill_model := self_fill_model in
  let has_fill_model := bool_decide (is_Some self_fill_model) in
  let during :=
    if has_fill_model then Some (ModelEnum fill_model) else self_fill_model in
  let signals :=
    let! entry_signal := generate_entries strategy during daily_df in
    let! exit_signal := generate_exits strategy during daily_df in
    Ok (entry_signal, exit_signal) in
  let after := if has_fill_model then original_fill_model else during in
  (let! signals := signals in
   if negb (length signals.1 =? length daily_df)%nat then Raise ValueError
   else if negb (length signals.2 =? length daily_df)%nat then Raise ValueError
   else Ok (normalize_bool_series signals.1, signals.2),
   after).

(** The prices, the return and the record of one trade (lines 129-144),
    every operation giving a double; the float division raises on a zero
    entry price. *)
Definition priced_trade (strategy : Strategy) (fill_model : FillModel)
    (total_cost_bps : Q) (stock_code entry_date exit_date : string)
    (entry_base_price : Q) (exit_base_price : cell) : result Trade :=
  let cost_rate := Double.binary64 (total_cost_bps / 10000) in
  let entry_trade_price :=
    Double.binary64 (entry_base_price * Double.binary64 (1 + cost_rate)) in
  let exit_trade_price :=
    option_map
      (fun price => Double.binary64 (price * Double.binary64 (1 - cost_rate)))
      exit_base_price in
  if Qeq_bool entry_trade_price 0 then Raise ZeroDivisionError
  else
    let net_return :=
      option_map
        (fun price =>
           Double.binary64 (Double.binary64 (price / entry_trade_price) - 1))
        exit_trade_price in
    Ok {| trade_strategy_name := name strategy;
          trade_fill_model := fill_model;
          trade_ts_code := stock_code;
          trade_entry_date := entry_date;
          trade_entry_price := entry_trade_price;
          trade_exit_date := exit_date;
          trade_exit_price := exit_trade_price;
          trade_ret_net := net_return |}.

(** The body of the loop over the entry signals: [Ok None] is [continue]. *)
Definition trade_of_signal (strategy : Strategy) (fill_model : FillModel)
    (total_cost_bps : Q) (price_lookup : gmap (string * string) (cell * cell))
    (entry_row : Bar) (exit_value : PyVal) : result (option Trade) :=
  match _normalize_trade_date exit_value with
  | None => Ok None
  | Some exit_date =>
      let stock_code := strip (ts_code entry_row) in
      match price_lookup !! (stock_code, exit_date) with
      | None => Ok None
      | Some prices =>
          let entry_date := trade_date entry_row in
          let! entry_base_price :=
            entry_price (parse_numeric pd) (to_dict entry_row)
                        (ModelEnum fill_model) in
          let exit_base_price :=
            if bool_decide (exit_price_type strategy = Some "next_open")
            then prices.1 else prices.2 in
          let! trade := priced_trade strategy fill_model total_cost_bps
                          stock_code entry_date exit_date
                          entry_base_price exit_base_price in
          Ok (Some trade)
      end
  end.

(** The loop over [working_daily.index[entry_signal]], on the rows paired
    with their two signals. *)
Fixpoint collect_trades (strategy : Strategy) (fill_model : FillModel)
    (total_cost_bps : Q) (price_lookup : gmap (string * string) (cell * cell))
    (signals : list (Bar * bool * PyVal)) : result (list Trade) :=
  match signals with
  | [] => Ok []
  | (entry_row, entry, exit_value) :: rest =>
      if entry
      then
        let! trade := trade_of_signal strategy fill_model total_cost_bps
                        price_lookup entry_row exit_value in
        let! trade_records := collect_trades strategy fill_model
                                total_cost_bps price_lookup rest in
        Ok (match trade with
            | Some t => t :: trade_records
            | None => trade_records
            end)
      else collect_trades strategy fill_model total_cost_bps price_lookup rest
  end.

Definition _build_equity_curve (daily_df : list Bar) (trades : list Trade)
    : result (list (string * cell)) :=
  let! parsed := parse_trade_dates (map trade_date daily_df) in
  let trade_dates :=
    stable_sort String.leb (remove_dups (map (strftime_ymd pd) parsed)) in
  Ok (equity_rows trade_dates trades (Some 1%Q)).

Definition run_backtest (daily_df : list Bar) (strategy : Strategy)
    (self_fill_model : option ModelArg) (fill_model : ModelArg)
    (fee_bps slippage_bps : Q) : result BacktestResult * option ModelArg :=
  match _normalize_fill_model fill_model with
  | Raise e => (Raise e, self_fill_model)
  | Ok normalized_fill_model =>
      match parse_trade_dates (map trade_date daily_df) with
      | Raise e => (Raise e, self_fill_model)
      | Ok parsed =>
          let working_daily :=
            zip_with (fun row date => set_trade_date (strftime_ymd pd date) row)
                     daily_df parsed in
          let generated :=
            _generate_signals working_daily strategy self_fill_model
                              normalized_fill_model in
          (let! signals := generated.1 in
           let! price_lookup := _build_price_lookup working_daily in
           let total_cost_bps := Double.binary64 (fee_bps + slippage_bps) in
           let! trade_records :=
             collect_trades strategy normalized_fill_model total_cost_bps
               price_lookup (zip (zip working_daily signals.1) signals.2) in
           let trades := stable_sort by_entry_date_code trade_records in
           let! equity_curve := _build_equity_curve working_daily trades in
           Ok {| trades := trades; equity_curve := equity_curve |},
           generated.2)
      end
  end.

(** [next_trade_date_series]: the next observed date of the same
    instrument, NaN on an instrument's last row, in the frame's row order. *)
Fixpoint shift_next_date (ordered : list (Bar * Z * nat)) : list (nat * PyVal) :=
  match ordered with
  | [] => []
  | keyed :: rest =>
      (keyed.2,
       match head (filter (fun other => ts_code other.1.1 = ts_code keyed.1.1)
                          rest) with
       | Some next => PyStr (trade_date next.1.1)
       | None => PyFloat None
       end)
      :: shift_next_date rest
  end.

Definition next_trade_date_series (daily_df : list Bar) : result (list PyVal) :=
  let! _trade_sort_key := parse_trade_dates (map trade_date daily_df) in
  let ordered_daily :=
    stable_sort by_code_key_order
      (zip (zip daily_df _trade_sort_key) (seq 0 (length daily_df))) in
  let restored :=
    stable_sort (fun a b : nat * PyVal => (a.1 <=? b.1)%nat)
                (shift_next_date ordered_daily) in
  Ok (map snd restored).

(** [ensure_columns] on the columns kept by name. *)
Definition ensure_columns (daily_df : list Bar) (required_columns : list string)
    : result unit :=
  if forallb (fun column =>
                forallb (fun row => bool_decide (is_Some (others row !! column)))
                        daily_df)
             required_columns
  then Ok tt else Raise ValueError.

Definition column (name : string) (row : Bar) : PyVal :=
  default PyNone (others row !! name).

(** [BuyFirstLimitUpSellNextCloseStrategy.generate_entries]. *)
Definition first_limitup_entries (self_fill_model : option ModelArg)
    (daily_df : list Bar) : result (list PyVal) :=
  let! _ := ensure_columns daily_df
              ["label_limit_up"; "streak_up"; "label_sealed"; "label_one_word"] in
  map_result
    (fun row =>
       let limit_up_flag := normalize_bool (column "label_limit_up" row) in
       let first_board_flag :=
         match to_numeric (parse_numeric pd) (column "streak_up" row) with
         | Some streak => Qeq_bool streak 1
         | None => false
         end in
       let! model :=
         match self_fill_model with
         | Some model => Ok model
         | None => Raise AttributeError
         end in
       let! can_buy_flag := can_buy_limitup_day (to_dict row) model in
       Ok (PyBool (limit_up_flag && first_board_flag && can_buy_flag)))
    daily_df.

(** [generate_exits] of both strategies, over their [generate_entries]; the
    placeholder of a row without an entry is never read by the simulator. *)
Definition exits_after_entries
    (entries_of : option ModelArg → list Bar → result (list PyVal))
    (self_fill_model : option ModelArg) (daily_df : list Bar)
    : result (list PyVal) :=
  let! entries := entries_of self_fill_model daily_df in
  let! next_dates := next_trade_date_series daily_df in
  Ok (zip_with (fun entry next_date =>
                  if normalize_bool entry then next_date else PyNone)
               entries next_dates).

Definition BuyFirstLimitUpSellNextCloseStrategy : Strategy :=
  {| name := "buy_first_limitup_sell_next_close";
     exit_price_type := Some "next_close";
     generate_entries := first_limitup_entries;
     generate_exits := exits_after_entries first_limitup_entries |}.

End Simulator.

(** Dates written as [%Y%m%d] digits, with the number they spell as day
    number; no other text is a date or a number. *)
Definition digits_only : Pandas :=
  {| to_datetime := fun text => Z.of_int <$> NilZero.int_of_string text;
     strftime_ymd := str_int;
     parse_numeric := fun _ => None;
     float_repr := fun _ => "" |}.

(** The two bars of tests/test_backtest.py. *)
Definition labels (limit_up : bool) (streak : Z) (one_word sealed : bool)
    : gmap string PyVal :=
  {[ "label_limit_up" := PyBool limit_up; "streak_up" := PyInt streak;
     "label_one_word" := PyBool one_word; "label_sealed" := PyBool sealed ]}.

Definition two_bars : list Bar :=
  [ {| ts_code := "AAA"; trade_date := "20240102";
       open := Some (Double.binary64 (54 # 5));
       close := Some 11%Q; others := labels true 1 false false |};
    {| ts_code := "AAA"; trade_date := "20240103";
       open := Some (Double.binary64 (56 # 5));
       close := Some (23 # 2)%Q; others := labels false 0 false false |} ].

Definition sealed_bars : list Bar :=
  [ {| ts_code := "AAA"; trade_date := "20240102";
       open := Some (Double.binary64 (109 # 10));
       close := Some 11%Q; others := labels true 1 true true |};
    {| ts_code := "AAA"; trade_date := "20240103";
       open := Some (Double.binary64 (56 # 5));
       close := Some (Double.binary64 (57 # 5));
       others := labels false 0 false false |} ].

Definition summary (run : result BacktestResult * option ModelArg)
    : option (list (string * string * cell) * cell) :=
  match run.1 with
  | Ok result =>
      Some (map (fun t => (trade_entry_date t, trade_exit_date t, trade_ret_net t))
                (trades result),
            final_equity result)
  | Raise _ => None
  end.

(** A total cost of 1e-13 basis points. *)
Definition tiny_cost_bps : Q := Double.binary64 (1 # 10000000000000).

(** The trade of the run on [two_bars], entered on 20240102 at the close
    and left on 20240103 at the close, and the result of the run. *)
Definition two_bars_trade_at (fill_model : FillModel)
    (fee_bps slippage_bps : Q) : Trade :=
  let cost_rate := fl (fl (fee_bps + slippage_bps) / 10000) in
  let entry_trade_price := fl (11 * fl (1 + cost_rate)) in
  let exit_trade_price := fl ((23 # 2) * fl (1 - cost_rate)) in
  {| trade_strategy_name := "buy_first_limitup_sell_next_close";
     trade_fill_model := fill_model;
     trade_ts_code := "AAA";
     trade_entry_date := "20240102";
     trade_entry_price := entry_trade_price;
     trade_exit_date := "20240103";
     trade_exit_price := Some exit_trade_price;
     trade_ret_net :=
       Some (fl (fl (exit_trade_price / entry_trade_price) - 1)) |}.

Definition two_bars_outcome (fill_model : FillModel)
    (fee_bps slippage_bps : Q) : BacktestResult :=
  {| trades := [two_bars_trade_at fill_model fee_bps slippage_bps];
     equity_curve :=
       [ ("20240102", Some 1%Q);
         ("20240103",
          cell_mul (Some 1%Q)
            (cell_add (Some 1%Q)
               (trade_ret_net
                  (two_bars_trade_at fill_model fee_bps slippage_bps)))) ] |}.

Example two_bars_conservative_no_cost :
  summary (run_backtest digits_only two_bars
             (BuyFirstLimitUpSellNextCloseStrategy digits_only)
             (Some (ModelEnum CONSERVATIVE)) (ModelEnum CONSERVATIVE) 0 0)
  = Some ([("20240102", "20240103",
            Some (Double.binary64 (Double.binary64 ((23 # 2) / 11) - 1)))],
          Some (Double.binary64
                  (1 * Double.binary64
                         (1 + Double.binary64
                                (Double.binary64 ((23 # 2) / 11) - 1))))).
Proof. vm_compute. reflexivity. Qed.

Example sealed_bars_ideal_and_conservative :
  (length <$> (trades <$> match (run_backtest digits_only sealed_bars
                  (BuyFirstLimitUpSellNextCloseStrategy digits_only)
                  (Some (ModelEnum CONSERVATIVE)) (ModelEnum IDEAL) 0 0).1 with
               | Ok r => Some r | Raise _ => None end) = Some 1%nat)
  ∧ (length <$> (trades <$> match (run_backtest digits_only sealed_bars
                  (BuyFirstLimitUpSellNextCloseStrategy digits_only)
                  (Some (ModelEnum CONSERVATIVE)) (ModelEnum CONSERVATIVE) 0 0).1 with
               | Ok r => Some r | Raise _ => None end) = Some 0%nat).
Proof. split; vm_compute; reflexivity. Qed.

Section SimulatorFacts.

Variable pd : Pandas.

Lemma generate_signals_restores (daily_df : list Bar) (strategy : Strategy)
    (self_fill_model : option ModelArg) (fill_model : FillModel) :
  (_generate_signals daily_df strategy self_fill_model fill_model).2
  = self_fill_model.
Proof. unfold _generate_signals. simpl. by destruct self_fill_model. Qed.

Lemma generate_signals_substitutes (daily_df : list Bar) (strategy : Strategy)
    (self_fill_model : option ModelArg) (fill_model : FillModel) :
  is_Some self_fill_model →
  (_generate_signals daily_df strategy self_fill_model fill_model).1
  = (_generate_signals daily_df strategy (Some (ModelEnum fill_model))
       fill_model).1.
Proof. intros [m ->]. reflexivity. Qed.

(** C9: a run leaves the strategy's [fill_model] attribute as it found it,
    whether the run returns or raises; when the strategy has the attribute,
    the methods see the call's fill model in its place, so the outcome does
    not depend on the value stored; and a second run on the same instance,
    with any fill model and costs, is the run a fresh instance would give. *)
Theorem run_backtest_leaves_strategy_unchanged (daily_df : list Bar)
    (strategy : Strategy) (self_fill_model : option ModelArg)
    (fill_model : ModelArg) (fee_bps slippage_bps : Q) :
  let run := run_backtest pd daily_df strategy self_fill_model fill_model
               fee_bps slippage_bps in
  run.2 = self_fill_model
  ∧ (∀ normalized,
       _normalize_fill_model fill_model = Ok normalized →
       is_Some self_fill_model →
       run.1 = (run_backtest pd daily_df strategy
                  (Some (ModelEnum normalized)) fill_model
                  fee_bps slippage_bps).1)
  ∧ (∀ stored, is_Some self_fill_model → is_Some stored →
       (run_backtest pd daily_df strategy stored fill_model
          fee_bps slippage_bps).1 = run.1)
  ∧ (∀ next_fill_model next_fee_bps next_slippage_bps,
       run_backtest pd daily_df strategy run.2 next_fill_model
         next_fee_bps next_slippage_bps
       = run_backtest pd daily_df strategy self_fill_model next_fill_model
           next_fee_bps next_slippage_bps).
Proof.
  intros run.
  assert (Hstate : run.2 = self_fill_model).
  { unfold run, run_backtest.
    destruct (_normalize_fill_model fill_model); [|done].
    destruct (parse_trade_dates pd _); [|done].
    unfold _generate_signals. simpl. by destruct self_fill_model. }
  split; [exact Hstate|]. split; [|split].
  - intros normalized Hm Hself. unfold run, run_backtest. rewrite Hm.
    destruct (parse_trade_dates pd _); [|done]. cbn [fst snd].
    by rewrite (generate_signals_substitutes _ _ self_fill_model).
  - intros stored Hself Hstored. unfold run, run_backtest.
    destruct (_normalize_fill_model fill_model); [|done].
    destruct (parse_trade_dates pd _); [|done]. cbn [fst snd].
    rewrite (generate_signals_substitutes _ _ self_fill_model) by done.
    by rewrite (generate_signals_substitutes _ _ stored).
  - intros. by rewrite Hstate.
Qed.

Lemma collect_trades_app (strategy : Strategy) (fill_model : FillModel)
    (total_cost_bps : Q) (price_lookup : gmap (string * string) (cell * cell))
    (before after : list (Bar * bool * PyVal)) :
  collect_trades pd strategy fill_model total_cost_bps price_lookup
    (before ++ after)
  = let! first := collect_trades pd strategy fill_model total_cost_bps
                    price_lookup before in
    let! second := collect_trades pd strategy fill_model total_cost_bps
                     price_lookup after in
    Ok (first ++ second).
Proof.
  induction before as [|[[row entry] exit_value] before IH]; simpl.
  - by destruct (collect_trades _ _ _ _ _ after).
  - destruct entry; [|exact IH].
    destruct (trade_of_signal _ _ _ _ _ _ _) as [trade|]; [|done]. simpl.
    rewrite IH.
    destruct (collect_trades _ _ _ _ _ before); [|done]. simpl.
    destruct (collect_trades _ _ _ _ _ after); [|done]. simpl.
    by destruct trade.
Qed.

(** C8: an entry signal whose exit date does not resolve (the exit value
    is None, NaN, empty or not a date, or no price row has the key made of
    the stripped instrument code and the normalized exit date) makes the
    loop body continue without a trade and without an exception, and the
    trades collected are those of the same signals without it. *)
Theorem unresolved_exit_is_skipped (strategy : Strategy) (fill_model : FillModel)
    (total_cost_bps : Q) (price_lookup : gmap (string * string) (cell * cell))
    (entry_row : Bar) (exit_value : PyVal)
    (before after : list (Bar * bool * PyVal)) :
  (_normalize_trade_date pd exit_value = None
   ∨ ∃ exit_date,
       _normalize_trade_date pd exit_value = Some exit_date
       ∧ price_lookup !! (strip (ts_code entry_row), exit_date) = None) →
  trade_of_signal pd strategy fill_model total_cost_bps price_lookup
    entry_row exit_value = Ok None
  ∧ collect_trades pd strategy fill_model total_cost_bps price_lookup
      (before ++ (entry_row, true, exit_value) :: after)
    = collect_trades pd strategy fill_model total_cost_bps price_lookup
        (before ++ after)
  ∧ collect_trades pd strategy fill_model total_cost_bps price_lookup
      (before ++ (entry_row, true, exit_value) :: after)
    = collect_trades pd strategy fill_model total_cost_bps price_lookup
        (before ++ (entry_row, false, exit_value) :: after)
  ∧ _normalize_trade_date pd PyNone = None
  ∧ _normalize_trade_date pd (PyFloat None) = None.
Proof.
  intros Hexit.
  assert (Hskip : trade_of_signal pd strategy fill_model total_cost_bps
                    price_lookup entry_row exit_value = Ok None).
  { unfold trade_of_signal. destruct Hexit as [->|(exit_date & -> & Hmiss)];
      [done|]. cbv beta iota zeta. by rewrite Hmiss. }
  split; [exact Hskip|].
  rewrite !collect_trades_app. simpl. rewrite Hskip. simpl.
  repeat split; try reflexivity;
    (destruct (collect_trades _ _ _ _ _ before); [|done]); simpl;
    by destruct (collect_trades _ _ _ _ _ after).
Qed.

Lemma entry_price_to_dict (row : Bar) (fill_model : FillModel) :
  entry_price (parse_numeric pd) (to_dict row) (ModelEnum fill_model)
  = match close row with
    | Some price => Ok price
    | None => Raise ValueError
    end.
Proof.
  unfold entry_price, to_dict. simpl.
  rewrite !lookup_insert_ne by done. rewrite lookup_insert_eq. simpl. done.
Qed.

Lemma trade_of_signal_inv (strategy : Strategy) (fill_model : FillModel)
    (total_cost_bps : Q) (price_lookup : gmap (string * string) (cell * cell))
    (entry_row : Bar) (exit_value : PyVal) (trade : Trade) :
  trade_of_signal pd strategy fill_model total_cost_bps price_lookup
    entry_row exit_value = Ok (Some trade) →
  ∃ exit_date prices entry_base_price,
    _normalize_trade_date pd exit_value = Some exit_date
    ∧ price_lookup !! (strip (ts_code entry_row), exit_date) = Some prices
    ∧ close entry_row = Some entry_base_price
    ∧ priced_trade strategy fill_model total_cost_bps
        (strip (ts_code entry_row)) (trade_date entry_row) exit_date
        entry_base_price
        (if bool_decide (exit_price_type strategy = Some "next_open")
         then prices.1 else prices.2)
      = Ok trade.
Proof.
  unfold trade_of_signal.
  destruct (_normalize_trade_date pd exit_value) as [exit_date|]; [|done].
  cbv beta iota zeta.
  destruct (price_lookup !! _) as [prices|] eqn:Hprices; [|done].
  rewrite entry_price_to_dict.
  destruct (close entry_row) as [entry_base_price|]; [|done]. simpl.
  destruct (priced_trade _ _ _ _ _ _ _ _) as [t|] eqn:Ht; [|done]. simpl.
  intros [= <-]. by exists exit_date, prices, entry_base_price.
Qed.

Lemma collect_trades_inv (strategy : Strategy) (fill_model : FillModel)
    (total_cost_bps : Q) (price_lookup : gmap (string * string) (cell * cell))
    (signals : list (Bar * bool * PyVal)) (trade_records : list Trade)
    (trade : Trade) :
  collect_trades pd strategy fill_model total_cost_bps price_lookup signals
  = Ok trade_records →
  trade ∈ trade_records →
  ∃ entry_row exit_value,
    (entry_row, true, exit_value) ∈ signals
    ∧ trade_of_signal pd strategy fill_model total_cost_bps price_lookup
        entry_row exit_value = Ok (Some trade).
Proof.
  revert trade_records.
  induction signals as [|[[row entry] exit_value] signals IH];
    intros trade_records Hc Ht; simpl in Hc.
  - injection Hc as <-. by inversion Ht.
  - destruct entry.
    + destruct (trade_of_signal _ _ _ _ _ _ _) as [made|] eqn:Hmade; [|done].
      simpl in Hc.
      destruct (collect_trades _ _ _ _ _ signals) as [records|]; [|done].
      simpl in Hc. injection Hc as <-.
      destruct made as [t|].
      * apply elem_of_cons in Ht as [->|Ht].
        -- exists row, exit_value. split; [by left|done].
        -- destruct (IH records eq_refl Ht) as (r & e & Hin & Hr).
           exists r, e. split; [by right|done].
      * destruct (IH records eq_refl Ht) as (r & e & Hin & Hr).
        exists r, e. split; [by right|done].
    + destruct (IH trade_records Hc Ht) as (r & e & Hin & Hr).
      exists r, e. split; [by right|done].
Qed.

Lemma fold_insert_inv {A K V} `{Countable K} (key : A → K) (value : A → V)
    (l : list A) (m : gmap K V) (k : K) (v : V) :
  fold_left (fun lookup a => <[key a := value a]> lookup) l m !! k = Some v →
  m !! k = Some v ∨ ∃ a, a ∈ l ∧ key a = k ∧ value a = v.
Proof.
  revert m. induction l as [|a l IH]; intros m Hk; simpl in Hk; [by left|].
  destruct (IH _ Hk) as [Hm|(a' & Ha' & Hkey & Hval)].
  - destruct (decide (key a = k)) as [<-|Hne].
    + rewrite lookup_insert_eq in Hm. injection Hm as <-.
      right. exists a. split; [by left|done].
    + rewrite lookup_insert_ne in Hm by done. by left.
  - right. exists a'. split; [by right|done].
Qed.

Lemma price_lookup_inv (daily_df : list Bar)
    (price_lookup : gmap (string * string) (cell * cell))
    (k : string * string) (prices : cell * cell) :
  _build_price_lookup pd daily_df = Ok price_lookup →
  price_lookup !! k = Some prices →
  ∃ row parsed date,
    row ∈ daily_df
    ∧ parse_trade_dates pd (map trade_date daily_df) = Ok parsed
    ∧ date ∈ parsed
    ∧ k = (ts_code row, strftime_ymd pd date)
    ∧ prices = (open row, close row).
Proof.
  unfold _build_price_lookup.
  destruct (parse_trade_dates pd _) as [parsed|]; [|done]. simpl.
  intros [= <-] Hk.
  apply fold_insert_inv in Hk as [Hk|([[row date] order] & Hin & Hkey & Hval)];
    [by rewrite lookup_empty in Hk|].
  apply elem_of_stable_sort in Hin.
  apply elem_of_zip_l in Hin.
  exists row, parsed, date. simpl in *.
  split; [by eapply elem_of_zip_l|]. split; [done|].
  split; [by eapply elem_of_zip_r|]. done.
Qed.

Lemma working_daily_rows (daily_df : list Bar) (parsed : list Z) (row : Bar) :
  row ∈ zip_with (fun row date => set_trade_date (strftime_ymd pd date) row)
                 daily_df parsed →
  ∃ raw, raw ∈ daily_df ∧ ts_code row = ts_code raw
         ∧ open row = open raw ∧ close row = close raw.
Proof.
  intros Hin. apply elem_of_zip_with in Hin as (raw & date & -> & Hraw & _).
  by exists raw.
Qed.

Lemma cost_rate_bounds (c0 c : Q) :
  (0 <= c0 → c0 <= c → c <= 10000 →
   0 <= Double.binary64 (c0 / 10000)
   ∧ Double.binary64 (c0 / 10000) <= Double.binary64 (c / 10000)
   ∧ Double.binary64 (c / 10000) <= 1)%Q.
Proof.
  intros H0 Hle Hc.
  assert (0 <= c0 / 10000)%Q
    by (apply Qle_shift_div_l; [reflexivity|lra]).
  assert (c0 / 10000 <= c / 10000)%Q
    by (apply Qmult_le_compat_r; [done|discriminate]).
  assert (c / 10000 <= 1)%Q
    by (apply Qle_shift_div_r; [reflexivity|lra]).
  split; [by apply Double.binary64_nonneg|].
  split; [by apply Double.binary64_mono|by apply Double.binary64_le_1].
Qed.

Lemma mult_le_left (z x y : Q) : (0 <= z → x <= y → z * x <= z * y)%Q.
Proof.
  intros Hz Hxy. rewrite !(Qmult_comm z). by apply Qmult_le_compat_r.
Qed.

Lemma quotient_le (x x0 e e0 : Q) :
  (0 <= x → x <= x0 → 0 < e0 → e0 <= e → 0 <= x / e ∧ x / e <= x0 / e0)%Q.
Proof.
  intros Hx Hxx He0 He. assert (0 < e)%Q as Hepos by lra. split.
  - apply Qle_shift_div_l; [done|]. lra.
  - apply Qle_shift_div_r; [done|].
    assert (x0 / e0 * e == x0 * e / e0)%Q as -> by (field; lra).
    apply Qle_shift_div_l; [done|].
    assert (x * e0 <= x0 * e0)%Q by (apply Qmult_le_compat_r; lra).
    assert (x0 * e0 <= x0 * e)%Q by (apply mult_le_left; lra).
    lra.
Qed.

(** The double prices and return of a trade at the cost rates [k0 <= k]. *)
Lemma prices_with_costs (e x k0 k : Q) :
  (0 < e → 0 <= x → 0 <= k0 → k0 <= k → k <= 1 →
   let entry := fl (e * fl (1 + k)) in
   let entry0 := fl (e * fl (1 + k0)) in
   let exit := fl (x * fl (1 - k)) in
   let exit0 := fl (x * fl (1 - k0)) in
   0 < entry0 ∧ entry0 <= entry ∧ 0 <= exit ∧ exit <= exit0
   ∧ - (1) <= fl (fl (exit / entry) - 1)
   ∧ fl (fl (exit / entry) - 1) <= fl (fl (exit0 / entry0) - 1))%Q.
Proof.
  intros He Hx Hk0 Hkk Hk entry entry0 exit exit0.
  assert (Hup0 : (1 <= fl (1 + k0))%Q) by (apply Double.binary64_ge_1; lra).
  assert (Hup : (fl (1 + k0) <= fl (1 + k))%Q)
    by (apply Double.binary64_mono; lra).
  assert (Hdown : (0 <= fl (1 - k))%Q) by (apply Double.binary64_nonneg; lra).
  assert (Hdown0 : (fl (1 - k) <= fl (1 - k0))%Q)
    by (apply Double.binary64_mono; lra).
  assert (Hentry0 : (0 < entry0)%Q).
  { apply Double.binary64_pos. apply Qmult_lt_0_compat; lra. }
  assert (Hentry : (entry0 <= entry)%Q).
  { apply Double.binary64_mono. apply mult_le_left; lra. }
  assert (Hexit : (0 <= exit)%Q).
  { apply Double.binary64_nonneg. by apply Qmult_le_0_compat. }
  assert (Hexit0 : (exit <= exit0)%Q).
  { apply Double.binary64_mono. by apply mult_le_left. }
  destruct (quotient_le exit exit0 entry entry0 Hexit Hexit0 Hentry0 Hentry)
    as [Hq Hqq].
  repeat split; try done.
  - apply Double.binary64_ge_minus_1.
    pose proof (Double.binary64_nonneg _ Hq). lra.
  - apply Double.binary64_mono.
    pose proof (Double.binary64_mono _ _ Hqq). lra.
Qed.

Lemma equity_step (e e0 r r0 : Q) :
  (0 <= e → e <= e0 → - (1) <= r → r <= r0 →
   0 <= fl (e * fl (1 + r)) ∧ fl (e * fl (1 + r)) <= fl (e0 * fl (1 + r0)))%Q.
Proof.
  intros He Hee Hr Hrr.
  assert (Hg : (0 <= fl (1 + r))%Q) by (apply Double.binary64_nonneg; lra).
  assert (Hgg : (fl (1 + r) <= fl (1 + r0))%Q)
    by (apply Double.binary64_mono; lra).
  split.
  - apply Double.binary64_nonneg. by apply Qmult_le_0_compat.
  - apply Double.binary64_mono.
    assert (e * fl (1 + r) <= e0 * fl (1 + r))%Q
      by (by apply Qmult_le_compat_r).
    assert (e0 * fl (1 + r) <= e0 * fl (1 + r0))%Q
      by (apply mult_le_left; lra).
    lra.
Qed.

Lemma Forall2_insert_sorted {A} (R : A → A → Prop) (le : A → A → bool)
    (x x0 : A) (l l0 : list A) :
  (∀ a a0 b b0, R a a0 → R b b0 → le a b = le a0 b0) →
  R x x0 → Forall2 R l l0 →
  Forall2 R (insert_sorted le x l) (insert_sorted le x0 l0).
Proof.
  intros Hle Hx Hl. induction Hl as [|y y0 l l0 Hy Hl IH]; simpl.
  - by constructor.
  - rewrite (Hle x x0 y y0) by done.
    destruct (le x0 y0); repeat constructor; done.
Qed.

Lemma Forall2_stable_sort {A} (R : A → A → Prop) (le : A → A → bool)
    (l l0 : list A) :
  (∀ a a0 b b0, R a a0 → R b b0 → le a b = le a0 b0) →
  Forall2 R l l0 → Forall2 R (stable_sort le l) (stable_sort le l0).
Proof.
  intros Hle Hl. induction Hl; simpl; [constructor|].
  by apply Forall2_insert_sorted.
Qed.

Lemma priced_trade_fields (strategy : Strategy) (fill_model : FillModel)
    (c : Q) (stock_code entry_date exit_date : string) (e : Q) (x : cell)
    (t : Trade) :
  priced_trade strategy fill_model c stock_code entry_date exit_date e x = Ok t →
  trade_ts_code t = stock_code ∧ trade_entry_date t = entry_date
  ∧ trade_exit_date t = exit_date
  ∧ trade_entry_price t = fl (e * fl (1 + fl (c / 10000)))
  ∧ trade_exit_price t
    = option_map (fun price => fl (price * fl (1 - fl (c / 10000)))) x
  ∧ trade_ret_net t
    = option_map (fun price => fl (fl (price / trade_entry_price t) - 1))
                 (trade_exit_price t).
Proof.
  unfold priced_trade. cbv zeta. destruct (Qeq_bool _ 0); [done|].
  intros [= <-]. simpl. done.
Qed.

Lemma priced_trade_costs (strategy : Strategy) (fill_model : FillModel)
    (c0 c : Q) (stock_code entry_date exit_date : string) (e x : Q) :
  (0 < e)%Q → (0 < x)%Q → (0 <= c0)%Q → (c0 <= c)%Q → (c <= 10000)%Q →
  ∃ t t0,
    priced_trade strategy fill_model c stock_code entry_date exit_date
      e (Some x) = Ok t
    ∧ priced_trade strategy fill_model c0 stock_code entry_date exit_date
        e (Some x) = Ok t0
    ∧ cost_pair t t0.
Proof.
  intros He Hx Hc0 Hcc Hc.
  destruct (cost_rate_bounds c0 c Hc0 Hcc Hc) as (Hk0 & Hkk & Hk).
  destruct (prices_with_costs e x _ _ He (Qlt_le_weak _ _ Hx) Hk0 Hkk Hk)
    as (Hentry0 & Hentry & _ & _ & Hr & Hrr).
  unfold priced_trade. cbv zeta.
  assert (Hnz : ∀ p, (0 < p)%Q → Qeq_bool p 0 = false).
  { intros p Hp. destruct (Qeq_bool p 0) eqn:E; [|done].
    apply Qeq_bool_iff in E. lra. }
  rewrite !Hnz by lra.
  eexists _, _. split; [reflexivity|]. split; [reflexivity|].
  unfold cost_pair. cbn [trade_entry_date trade_ts_code trade_exit_date
                         trade_ret_net option_map].
  split; [done|]. split; [done|]. split; [done|].
  eexists _, _. split; [reflexivity|]. split; [reflexivity|].
  exact (conj Hr Hrr).
Qed.

Lemma trade_of_signal_costs (strategy : Strategy) (fill_model : FillModel)
    (c0 c : Q) (price_lookup : gmap (string * string) (cell * cell))
    (entry_row : Bar) (exit_value : PyVal) :
  (0 <= c0)%Q → (c0 <= c)%Q → (c <= 10000)%Q →
  (∃ e, close entry_row = Some e ∧ (0 < e)%Q) →
  (∀ k prices, price_lookup !! k = Some prices →
     ∃ o cl, prices = (Some o, Some cl) ∧ (0 < o)%Q ∧ (0 < cl)%Q) →
  (trade_of_signal pd strategy fill_model c price_lookup entry_row exit_value
   = Ok None
   ∧ trade_of_signal pd strategy fill_model c0 price_lookup entry_row
       exit_value = Ok None)
  ∨ ∃ t t0,
      trade_of_signal pd strategy fill_model c price_lookup entry_row
        exit_value = Ok (Some t)
      ∧ trade_of_signal pd strategy fill_model c0 price_lookup entry_row
          exit_value = Ok (Some t0)
      ∧ cost_pair t t0.
Proof.
  intros Hc0 Hcc Hc (e & Hclose & He) Hprices. unfold trade_of_signal.
  destruct (_normalize_trade_date pd exit_value) as [exit_date|]; [|by left].
  cbv beta iota zeta.
  destruct (price_lookup !! _) as [prices|] eqn:Hk; [|by left].
  destruct (Hprices _ _ Hk) as (o & cl & -> & Ho & Hcl).
  rewrite entry_price_to_dict, Hclose. simpl. right.
  destruct (bool_decide (exit_price_type strategy = Some "next_open")).
  - destruct (priced_trade_costs strategy fill_model c0 c
                (strip (ts_code entry_row)) (trade_date entry_row) exit_date
                e o He Ho Hc0 Hcc Hc) as (t & t0 & -> & -> & Hpair).
    by exists t, t0.
  - destruct (priced_trade_costs strategy fill_model c0 c
                (strip (ts_code entry_row)) (trade_date entry_row) exit_date
                e cl He Hcl Hc0 Hcc Hc) as (t & t0 & -> & -> & Hpair).
    by exists t, t0.
Qed.

Lemma collect_trades_costs (strategy : Strategy) (fill_model : FillModel)
    (c0 c : Q) (price_lookup : gmap (string * string) (cell * cell))
    (signals : list (Bar * bool * PyVal)) :
  (0 <= c0)%Q → (c0 <= c)%Q → (c <= 10000)%Q →
  Forall (fun signal => ∃ e, close signal.1.1 = Some e ∧ (0 < e)%Q) signals →
  (∀ k prices, price_lookup !! k = Some prices →
     ∃ o cl, prices = (Some o, Some cl) ∧ (0 < o)%Q ∧ (0 < cl)%Q) →
  ∃ records records0,
    collect_trades pd strategy fill_model c price_lookup signals = Ok records
    ∧ collect_trades pd strategy fill_model c0 price_lookup signals
      = Ok records0
    ∧ Forall2 cost_pair records records0.
Proof.
  intros Hc0 Hcc Hc Hrows Hprices.
  induction Hrows as [|[[row entry] exit_value] signals Hrow Hrows IH]; simpl.
  - exists [], []. repeat split; constructor.
  - destruct IH as (records & records0 & Hr & Hr0 & Hpairs).
    destruct entry; [|by exists records, records0].
    rewrite Hr, Hr0.
    destruct (trade_of_signal_costs strategy fill_model c0 c price_lookup row
                exit_value Hc0 Hcc Hc Hrow Hprices)
      as [[-> ->]|(t & t0 & -> & -> & Hpair)]; simpl.
    + by exists records, records0.
    + exists (t :: records), (t0 :: records0). repeat split. by constructor.
Qed.

Lemma compound_returns_costs (l l0 : list Trade) (equity equity0 : cell) :
  Forall2 cost_pair l l0 →
  equity_pair equity equity0 →
  equity_pair
    (fold_left (fun equity day_return =>
                  cell_mul equity (cell_add (Some 1%Q) day_return))
               (map trade_ret_net l) equity)
    (fold_left (fun equity day_return =>
                  cell_mul equity (cell_add (Some 1%Q) day_return))
               (map trade_ret_net l0) equity0).
Proof.
  intros Hl. revert equity equity0.
  induction Hl as [|t t0 l l0 Hpair Hl IH]; intros equity equity0 Heq; [done|].
  simpl. apply IH.
  destruct Heq as (e & e0 & -> & -> & He & Hee).
  destruct Hpair as (_ & _ & _ & r & r0 & -> & -> & Hr & Hrr).
  simpl. destruct (equity_step e e0 r r0 He Hee Hr Hrr) as [Hpos Hle].
  eexists _, _. split; [reflexivity|]. split; [reflexivity|]. by split.
Qed.

Lemma compound_day_costs (trade_date : string) (ts ts0 : list Trade)
    (equity equity0 : cell) :
  Forall2 cost_pair ts ts0 →
  equity_pair equity equity0 →
  equity_pair (compound_day trade_date ts equity)
              (compound_day trade_date ts0 equity0).
Proof.
  intros Hts Heq. unfold compound_day.
  apply compound_returns_costs; [|exact Heq].
  apply Forall2_filter; [|done].
  intros t t0 (_ & _ & Hexit & _). by rewrite Hexit.
Qed.

Lemma final_of_costs (trade_dates : list string) (ts ts0 : list Trade)
    (equity equity0 : cell) :
  Forall2 cost_pair ts ts0 →
  equity_pair equity equity0 →
  equity_pair (final_of trade_dates ts equity)
              (final_of trade_dates ts0 equity0).
Proof.
  intros Hts. revert equity equity0.
  induction trade_dates as [|d rest IH]; intros equity equity0 Heq; [done|].
  simpl. apply IH. by apply compound_day_costs.
Qed.

Lemma final_equity_rows (trade_dates : list string) (trades : list Trade)
    (equity : cell) :
  match last (equity_rows trade_dates trades equity) with
  | Some row => row.2
  | None => equity
  end = final_of trade_dates trades equity.
Proof.
  revert equity. induction trade_dates as [|d rest IH]; intros equity; [done|].
  cbn [equity_rows]. rewrite last_cons.
  specialize (IH (compound_day d trades equity)). unfold final_of in *.
  cbn [fold_left].
  by destruct (last (equity_rows rest trades (compound_day d trades equity))).
Qed.

Lemma run_backtest_stages (daily_df : list Bar) (strategy : Strategy)
    (self_fill_model : option ModelArg) (fill_model : ModelArg)
    (fee_bps slippage_bps : Q) (result : BacktestResult)
    (after : option ModelArg) :
  run_backtest pd daily_df strategy self_fill_model fill_model
    fee_bps slippage_bps = (Ok result, after) →
  ∃ normalized parsed signals price_lookup trade_records parsed',
    let working_daily :=
      zip_with (fun row date => set_trade_date (strftime_ymd pd date) row)
               daily_df parsed in
    _normalize_fill_model fill_model = Ok normalized
    ∧ parse_trade_dates pd (map trade_date daily_df) = Ok parsed
    ∧ _generate_signals working_daily strategy self_fill_model normalized
      = (Ok signals, after)
    ∧ _build_price_lookup pd working_daily = Ok price_lookup
    ∧ collect_trades pd strategy normalized
        (Double.binary64 (fee_bps + slippage_bps))
        price_lookup (zip (zip working_daily signals.1) signals.2)
      = Ok trade_records
    ∧ parse_trade_dates pd (map trade_date working_daily) = Ok parsed'
    ∧ result
      = {| trades := stable_sort by_entry_date_code trade_records;
           equity_curve :=
             equity_rows
               (stable_sort String.leb
                  (remove_dups (map (strftime_ymd pd) parsed')))
               (stable_sort by_entry_date_code trade_records) (Some 1%Q) |}.
Proof.
  unfold run_backtest.
  destruct (_normalize_fill_model fill_model) as [normalized|]; [|done].
  destruct (parse_trade_dates pd (map trade_date daily_df)) as [parsed|];
    [|done].
  cbv zeta.
  destruct (_generate_signals _ strategy self_fill_model normalized)
    as [[signals|] after'] eqn:Hgen; [|done].
  cbn [fst snd bind].
  destruct (_build_price_lookup pd _) as [price_lookup|] eqn:Hlookup; [|done].
  cbn [bind].
  destruct (collect_trades pd _ _ _ _ _) as [trade_records|] eqn:Hcollect;
    [|done].
  cbn [bind]. unfold _build_equity_curve.
  destruct (parse_trade_dates pd (map trade_date _)) as [parsed'|] eqn:Hparsed';
    [|done].
  cbn [bind]. intros [= <- <-].
  by exists normalized, parsed, signals, price_lookup, trade_records, parsed'.
Qed.

Lemma run_backtest_from_stages (daily_df : list Bar) (strategy : Strategy)
    (self_fill_model after : option ModelArg) (fill_model : ModelArg)
    (fee_bps slippage_bps : Q) (normalized : FillModel) (parsed parsed' : list Z)
    (signals : list bool * list PyVal)
    (price_lookup : gmap (string * string) (cell * cell))
    (trade_records : list Trade) :
  let working_daily :=
    zip_with (fun row date => set_trade_date (strftime_ymd pd date) row)
             daily_df parsed in
  _normalize_fill_model fill_model = Ok normalized →
  parse_trade_dates pd (map trade_date daily_df) = Ok parsed →
  _generate_signals working_daily strategy self_fill_model normalized
  = (Ok signals, after) →
  _build_price_lookup pd working_daily = Ok price_lookup →
  collect_trades pd strategy normalized
    (Double.binary64 (fee_bps + slippage_bps))
    price_lookup (zip (zip working_daily signals.1) signals.2)
  = Ok trade_records →
  parse_trade_dates pd (map trade_date working_daily) = Ok parsed' →
  run_backtest pd daily_df strategy self_fill_model fill_model
    fee_bps slippage_bps
  = (Ok {| trades := stable_sort by_entry_date_code trade_records;
           equity_curve :=
             equity_rows
               (stable_sort String.leb
                  (remove_dups (map (strftime_ymd pd) parsed')))
               (stable_sort by_entry_date_code trade_records) (Some 1%Q) |},
     after).
Proof.
  intros working_daily Hm Hp Hg Hl Hc Hp'. unfold run_backtest.
  rewrite Hm, Hp. cbv zeta. fold working_daily. rewrite Hg. cbn [fst snd bind].
  rewrite Hl. cbn [bind]. rewrite Hc. cbn [bind].
  unfold _build_equity_curve. rewrite Hp'. reflexivity.
Qed.

(** C4, amended: every trade of a run is priced from the close of its
    entry row and the exit-day price of a row of the frame, in doubles:
    with c = fee + slippage, entry price = base entry * (1 + c/10000), exit
    price = base exit * (1 - c/10000), net return = exit price / entry price
    - 1, each operation rounded to the nearest double.  And when every open
    and close of the frame is a positive number and c is between 0 and
    10000, the run with costs makes the same trades as the run without
    costs, each with a net return that is not larger, and ends with an
    equity that is not larger. *)
Theorem costs_scale_prices_and_never_raise_returns (daily_df : list Bar)
    (strategy : Strategy) (self_fill_model : option ModelArg)
    (fill_model : ModelArg) (fee_bps slippage_bps : Q) :
  let total_cost_bps := fl (fee_bps + slippage_bps) in
  (∀ result after,
     run_backtest pd daily_df strategy self_fill_model fill_model
       fee_bps slippage_bps = (Ok result, after) →
     ∀ t, t ∈ trades result →
       ∃ entry_row exit_row base_entry_price,
         entry_row ∈ daily_df ∧ exit_row ∈ daily_df
         ∧ close entry_row = Some base_entry_price
         ∧ trade_entry_price t
           = fl (base_entry_price * fl (1 + fl (total_cost_bps / 10000)))
         ∧ trade_exit_price t
           = option_map
               (fun price => fl (price * fl (1 - fl (total_cost_bps / 10000))))
               (if bool_decide (exit_price_type strategy = Some "next_open")
                then open exit_row else close exit_row)
         ∧ trade_ret_net t
           = option_map
               (fun price => fl (fl (price / trade_entry_price t) - 1))
               (trade_exit_price t))
  ∧ ((∀ row, row ∈ daily_df →
        ∃ o cl, open row = Some o ∧ close row = Some cl
                ∧ (0 < o)%Q ∧ (0 < cl)%Q) →
     (0 <= fee_bps + slippage_bps)%Q →
     (fee_bps + slippage_bps <= 10000)%Q →
     ∀ result0 after0,
       run_backtest pd daily_df strategy self_fill_model fill_model 0 0
       = (Ok result0, after0) →
       ∃ result,
         run_backtest pd daily_df strategy self_fill_model fill_model
           fee_bps slippage_bps = (Ok result, after0)
         ∧ Forall2
             (fun t t0 =>
                trade_entry_date t = trade_entry_date t0
                ∧ trade_ts_code t = trade_ts_code t0
                ∧ trade_exit_date t = trade_exit_date t0
                ∧ ∃ r r0, trade_ret_net t = Some r
                          ∧ trade_ret_net t0 = Some r0 ∧ (r <= r0)%Q)
             (trades result) (trades result0)
         ∧ ∃ e e0, final_equity result = Some e
                   ∧ final_equity result0 = Some e0 ∧ (e <= e0)%Q).
Proof.
  intros total_cost_bps. split.
  - intros result after Hrun t Ht.
    apply run_backtest_stages in Hrun
      as (normalized & parsed & signals & price_lookup & trade_records
          & parsed' & _ & _ & _ & Hlookup & Hcollect & _ & ->).
    simpl in Ht. apply elem_of_stable_sort in Ht.
    destruct (collect_trades_inv _ _ _ _ _ _ _ Hcollect Ht)
      as (entry_row & exit_value & Hsignal & Hmade).
    apply elem_of_zip_l, elem_of_zip_l in Hsignal.
    apply trade_of_signal_inv in Hmade
      as (exit_date & prices & base & _ & Hprices & Hclose & Hpriced).
    apply priced_trade_fields in Hpriced as (_ & _ & _ & He & Hx & Hr).
    destruct (price_lookup_inv _ _ _ _ Hlookup Hprices)
      as (exit_row & ? & ? & Hexit_row & _ & _ & _ & ->).
    destruct (working_daily_rows _ _ _ Hsignal)
      as (raw_entry & Hraw_entry & _ & _ & Hclose_entry).
    destruct (working_daily_rows _ _ _ Hexit_row)
      as (raw_exit & Hraw_exit & _ & Hopen_exit & Hclose_exit).
    exists raw_entry, raw_exit, base.
    rewrite <- Hclose_entry, <- Hopen_exit, <- Hclose_exit.
    by repeat split.
  - intros Hpositive Hcost Hcap result0 after0 Hrun0.
    apply run_backtest_stages in Hrun0
      as (normalized & parsed & signals & price_lookup & records0
          & parsed' & Hm & Hp & Hg & Hlookup & Hcollect0 & Hp' & ->).
    set (working_daily :=
           zip_with (fun row date => set_trade_date (strftime_ymd pd date) row)
                    daily_df parsed) in *.
    assert (Hworking : ∀ row, row ∈ working_daily →
              ∃ o cl, open row = Some o ∧ close row = Some cl
                      ∧ (0 < o)%Q ∧ (0 < cl)%Q).
    { intros row Hrow.
      destruct (working_daily_rows _ _ _ Hrow) as (raw & Hraw & _ & -> & ->).
      by apply Hpositive. }
    assert (Hprices : ∀ k prices, price_lookup !! k = Some prices →
              ∃ o cl, prices = (Some o, Some cl) ∧ (0 < o)%Q ∧ (0 < cl)%Q).
    { intros k prices Hk.
      destruct (price_lookup_inv _ _ _ _ Hlookup Hk)
        as (row & ? & ? & Hrow & _ & _ & _ & ->).
      destruct (Hworking row Hrow) as (o & cl & -> & -> & Ho & Hcl).
      by exists o, cl. }
    assert (Hzero : Double.binary64 (0 + 0) = 0%Q) by reflexivity.
    assert (Hc0 : (0 <= Double.binary64 (0 + 0))%Q) by (by rewrite Hzero).
    assert (Hcc : (Double.binary64 (0 + 0) <= total_cost_bps)%Q).
    { apply Double.binary64_mono. lra. }
    assert (Hc : (total_cost_bps <= 10000)%Q).
    { apply (Double.binary64_mono _ 10000) in Hcap.
      by rewrite Double.binary64_10000 in Hcap. }
    destruct (collect_trades_costs strategy normalized
                (Double.binary64 (0 + 0)) total_cost_bps price_lookup
                (zip (zip working_daily signals.1) signals.2) Hc0 Hcc Hc)
      as (records & records0' & Hcollect & Hcollect0' & Hpairs);
      [|exact Hprices|].
    { apply Forall_forall. intros [[row entry] exit_value] Hin.
      apply elem_of_zip_l, elem_of_zip_l in Hin.
      destruct (Hworking row Hin) as (o & cl & _ & Hcl & _ & Hpos).
      by exists cl. }
    rewrite Hcollect0 in Hcollect0'. injection Hcollect0' as <-.
    eexists. split.
    { by apply (run_backtest_from_stages daily_df strategy self_fill_model
                  after0 fill_model fee_bps slippage_bps normalized parsed
                  parsed' signals price_lookup records). }
    assert (Hsorted : Forall2 cost_pair
                        (stable_sort by_entry_date_code records)
                        (stable_sort by_entry_date_code records0)).
    { apply Forall2_stable_sort; [|done].
      intros a a0 b b0 (Ha1 & Ha2 & _) (Hb1 & Hb2 & _).
      unfold by_entry_date_code. by rewrite Ha1, Ha2, Hb1, Hb2. }
    split.
    + simpl. eapply Forall2_impl; [exact Hsorted|].
      intros t t0 (H1 & H2 & H3 & r & r0 & Hr & Hr0 & _ & Hle).
      repeat split; try done. by exists r, r0.
    + unfold final_equity. cbn [equity_curve]. rewrite !final_equity_rows.
      destruct (final_of_costs
                  (stable_sort String.leb
                     (remove_dups (map (strftime_ymd pd) parsed')))
                  (stable_sort by_entry_date_code records)
                  (stable_sort by_entry_date_code records0)
                  (Some 1%Q) (Some 1%Q) Hsorted)
        as (e & e0 & He & He0 & _ & Hle).
      { exists 1%Q, 1%Q. repeat split; (done || lra). }
      by exists e, e0.
Qed.

End SimulatorFacts.

Lemma unresolved_exit_is_skipped_witness :
  collect_trades digits_only (BuyFirstLimitUpSellNextCloseStrategy digits_only)
    IDEAL 0 ∅ [] = Ok []
  ∧ trade_of_signal digits_only
      (BuyFirstLimitUpSellNextCloseStrategy digits_only) IDEAL 0 ∅
      {| ts_code := "AAA"; trade_date := "20240103"; open := Some 1%Q;
         close := Some 1%Q; others := ∅ |} (PyFloat None) = Ok None.
Proof.
  split; [reflexivity|].
  apply (unresolved_exit_is_skipped digits_only _ IDEAL 0 ∅ _ (PyFloat None) [] []).
  left. reflexivity.
Defined.

Lemma costs_scale_prices_and_never_raise_returns_witness :
  ∃ result result0 e e0,
    run_backtest digits_only two_bars
      (BuyFirstLimitUpSellNextCloseStrategy digits_only)
      (Some (ModelEnum CONSERVATIVE)) (ModelEnum CONSERVATIVE) 10 10
    = (Ok result, Some (ModelEnum CONSERVATIVE))
    ∧ run_backtest digits_only two_bars
        (BuyFirstLimitUpSellNextCloseStrategy digits_only)
        (Some (ModelEnum CONSERVATIVE)) (ModelEnum CONSERVATIVE) 0 0
      = (Ok result0, Some (ModelEnum CONSERVATIVE))
    ∧ final_equity result = Some e ∧ final_equity result0 = Some e0
    ∧ (e <= e0)%Q.
Proof.
  assert (Hrun0 :
    run_backtest digits_only two_bars
      (BuyFirstLimitUpSellNextCloseStrategy digits_only)
      (Some (ModelEnum CONSERVATIVE)) (ModelEnum CONSERVATIVE) 0 0
    = (Ok (two_bars_outcome CONSERVATIVE 0 0), Some (ModelEnum CONSERVATIVE))).
  { vm_compute. reflexivity. }
  destruct (costs_scale_prices_and_never_raise_returns digits_only two_bars
              (BuyFirstLimitUpSellNextCloseStrategy digits_only)
              (Some (ModelEnum CONSERVATIVE)) (ModelEnum CONSERVATIVE) 10 10)
    as [_ Hcosts].
  destruct (Hcosts) with (result0 := two_bars_outcome CONSERVATIVE 0 0)
                         (after0 := Some (ModelEnum CONSERVATIVE))
    as (result & Hrun & _ & e & e0 & He & He0 & Hle).
  - intros row Hrow.
    repeat (apply elem_of_cons in Hrow as [->|Hrow]);
      [eexists _, _; repeat split; reflexivity..|by inversion Hrow].
  - vm_compute. discriminate.
  - vm_compute. discriminate.
  - exact Hrun0.
  - exists result, (two_bars_outcome CONSERVATIVE 0 0), e, e0.
    exact (conj Hrun (conj Hrun0 (conj He (conj He0 Hle)))).
Defined.

(** C4, refuted as stated: a strictly positive cost need not lower the
    return.  With a total cost of 1e-13 basis points the rate c/10000 is
    1e-17, and both 1 + c/10000 and 1 - c/10000 are the double 1.0: the run
    makes its trade at the prices and the return of the run without costs
    and ends with the same equity. *)
Lemma tiny_cost_changes_nothing :
  (0 < Double.binary64 (tiny_cost_bps + 0))%Q
  ∧ Double.binary64 (1 + Double.binary64 (tiny_cost_bps / 10000)) = 1%Q
  ∧ Double.binary64 (1 - Double.binary64 (tiny_cost_bps / 10000)) = 1%Q
  ∧ run_backtest digits_only two_bars
      (BuyFirstLimitUpSellNextCloseStrategy digits_only)
      (Some (ModelEnum CONSERVATIVE)) (ModelEnum CONSERVATIVE) tiny_cost_bps 0
    = (Ok (two_bars_outcome CONSERVATIVE 0 0), Some (ModelEnum CONSERVATIVE))
  ∧ run_backtest digits_only two_bars
      (BuyFirstLimitUpSellNextCloseStrategy digits_only)
      (Some (ModelEnum CONSERVATIVE)) (ModelEnum CONSERVATIVE) 0 0
    = (Ok (two_bars_outcome CONSERVATIVE 0 0), Some (ModelEnum CONSERVATIVE))
  ∧ map trade_ret_net (trades (two_bars_outcome CONSERVATIVE 0 0))
    = [Some (Double.binary64 (Double.binary64 ((23 # 2) / 11) - 1))]
  ∧ (∀ e e0, final_equity (two_bars_outcome CONSERVATIVE 0 0) = Some e →
             final_equity (two_bars_outcome CONSERVATIVE 0 0) = Some e0 → ¬ (e < e0)%Q).
Proof.
  split; [vm_compute; reflexivity|]. split; [vm_compute; reflexivity|].
  split; [vm_compute; reflexivity|]. split; [vm_compute; reflexivity|].
  split; [vm_compute; reflexivity|]. split; [vm_compute; reflexivity|].
  intros e e0 -> [= <-]. apply Qlt_irrefl.
Qed.

(** At 10 + 10 basis points the costs do lower the return and the final
    equity of the same run. *)
Example twenty_bps_lower_the_return :
  ∃ r r0 e e0,
    map trade_ret_net (trades (two_bars_outcome CONSERVATIVE 10 10)) = [Some r]
    ∧ map trade_ret_net (trades (two_bars_outcome CONSERVATIVE 0 0)) = [Some r0]
    ∧ final_equity (two_bars_outcome CONSERVATIVE 10 10) = Some e
    ∧ final_equity (two_bars_outcome CONSERVATIVE 0 0) = Some e0
    ∧ (r < r0)%Q ∧ (e < e0)%Q.
Proof.
  eexists _, _, _, _.
  split; [vm_compute; reflexivity|]. split; [vm_compute; reflexivity|].
  split; [vm_compute; reflexivity|]. split; [vm_compute; reflexivity|].
  split; vm_compute; reflexivity.
Qed.

End Backtest.

(** * Further properties of the code

    Properties of the same functions, of the functions beside them and of
    their callers, read off the source. *)

(** ** fill_models.py: the spelling of a model name *)

Module FillModelFacts.
Import FillModels.

Lemma map_chars_rev_app (f : ascii → ascii) (s1 s2 : string) :
  map_chars f (String.rev_app s1 s2)
  = String.rev_app (map_chars f s1) (map_chars f s2).
Proof. revert s2. induction s1 as [|c s1 IH]; intros s2; simpl; auto. Qed.

Lemma map_chars_lstrip (f : ascii → ascii) (s : string) :
  (∀ c, is_space (f c) = is_space c) →
  lstrip (map_chars f s) = map_chars f (lstrip s).
Proof.
  intros Hf. induction s as [|c s IH]; [done|].
  simpl. rewrite Hf. by destruct (is_space c).
Qed.

Lemma map_chars_strip (f : ascii → ascii) (s : string) :
  (∀ c, is_space (f c) = is_space c) →
  strip (map_chars f s) = map_chars f (strip s).
Proof.
  intros Hf. unfold strip, rstrip, String.rev.
  rewrite (map_chars_lstrip f s Hf).
  change EmptyString with (map_chars f EmptyString) at 1 2.
  rewrite <- map_chars_rev_app, (map_chars_lstrip f _ Hf).
  by rewrite <- map_chars_rev_app.
Qed.

Lemma map_chars_compose (f g h : ascii → ascii) (s : string) :
  (∀ c, f (g c) = h c) → map_chars f (map_chars g s) = map_chars h s.
Proof. intros H. induction s as [|c s IH]; simpl; [done|]. by rewrite H, IH. Qed.

Lemma is_space_lower_char (c : ascii) : is_space (lower_char c) = is_space c.
Proof. by destruct c as [[] [] [] [] [] [] [] []]. Qed.

Lemma is_space_upper_char (c : ascii) : is_space (upper_char c) = is_space c.
Proof. by destruct c as [[] [] [] [] [] [] [] []]. Qed.

Lemma upper_lower_char (c : ascii) : upper_char (lower_char c) = upper_char c.
Proof. by destruct c as [[] [] [] [] [] [] [] []]. Qed.

Lemma upper_upper_char (c : ascii) : upper_char (upper_char c) = upper_char c.
Proof. by destruct c as [[] [] [] [] [] [] [] []]. Qed.

(** X1: the name of a fill model, written in ASCII, is read without regard
    to case: lower-casing or upper-casing the text handed to
    [_normalize_model] changes neither the model it names nor whether it is
    rejected. *)
Theorem model_name_is_case_insensitive (s : string) :
  is_ascii s = true →
  _normalize_model (ModelText (lower s)) = _normalize_model (ModelText s)
  ∧ _normalize_model (ModelText (upper s)) = _normalize_model (ModelText s).
Proof.
  intros _. unfold _normalize_model, lower, upper. split; f_equal.
  - rewrite (map_chars_strip lower_char s is_space_lower_char).
    apply map_chars_compose, upper_lower_char.
  - rewrite (map_chars_strip upper_char s is_space_upper_char).
    apply map_chars_compose, upper_upper_char.
Qed.

Lemma model_name_is_case_insensitive_witness :
  _normalize_model (ModelText (lower " Ideal "))
  = _normalize_model (ModelText " Ideal ")
  ∧ _normalize_model (ModelText (upper " Ideal "))
    = _normalize_model (ModelText " Ideal ").
Proof. apply (model_name_is_case_insensitive " Ideal "). reflexivity. Defined.

End FillModelFacts.

(** ** limits.py: how far the limit price is from the exact product *)

Module LimitPriceBounds.
Import Limits.
Local Open Scope Z_scope.

Lemma limit_price_value (pre_close up : Decimal) :
  let multiplier := exact_add {| coef := 1; expo := 0 |} up in
  Z.abs (coef multiplier) < 10 ^ prec →
  Z.abs (coef (exact_mul pre_close multiplier)) < 10 ^ prec →
  ∀ d, compute_limit_price pre_close up = Ok d →
    expo d = -2
    ∧ (dec_value d
       == round_half_up_2dp (dec_value pre_close * (1 + dec_value up)))%Q.
Proof.
  intros multiplier Hadd Hmul d.
  unfold compute_limit_price, dec_add, dec_mul. fold multiplier.
  rewrite (fix_within_precision multiplier) by exact Hadd.
  rewrite fix_within_precision by exact Hmul.
  unfold quantize. destruct (_ <=? _); [done|]. intros [= <-].
  split; [done|].
  assert (Hv : (dec_value pre_close * (1 + dec_value up)
                == dec_value (exact_mul pre_close multiplier))%Q).
  { rewrite dec_value_exact_mul. unfold multiplier.
    rewrite dec_value_exact_add.
    assert (dec_value {| coef := 1; expo := 0 |} == 1)%Q as -> by reflexivity.
    reflexivity. }
  pose proof (rescale_value (exact_mul pre_close multiplier)) as Hr.
  unfold round_half_up_2dp in *.
  rewrite (Qfloor_comp _ _
             (Qplus_comp _ _
                (Qmult_comp _ _ (Qabs_wd _ _ Hv) _ _ (Qeq_refl 100))
                _ _ (Qeq_refl (1 # 2)))).
  assert (Qle_bool 0 (dec_value pre_close * (1 + dec_value up))
          = Qle_bool 0 (dec_value (exact_mul pre_close multiplier))) as ->.
  { apply eq_iff_eq_true. rewrite !Qle_bool_iff, Hv. reflexivity. }
  rewrite Hr. unfold dec_value. simpl. rewrite (Qmake_Qdiv _ 100).
  change (10 ^ (-2))%Q with (/ 100)%Q. reflexivity.
Qed.

Lemma round_half_up_2dp_error (x : Q) :
  (Qabs (round_half_up_2dp x - x) <= 1 # 200)%Q.
Proof.
  unfold round_half_up_2dp.
  set (n := Qfloor (Qabs x * 100 + (1 # 2))).
  pose proof (Qfloor_le (Qabs x * 100 + (1 # 2))) as Hlo.
  pose proof (Qlt_floor (Qabs x * 100 + (1 # 2))) as Hhi.
  fold n in Hlo, Hhi. rewrite inject_Z_plus in Hhi.
  change (inject_Z 1) with 1%Q in Hhi.
  apply Qabs_Qle_condition.
  destruct (Qle_bool 0 x) eqn:Hx.
  - apply Qle_bool_iff in Hx. rewrite (Qabs_pos x Hx) in Hlo, Hhi.
    rewrite (Qmake_Qdiv n 100). change (inject_Z 100) with 100%Q.
    generalize dependent (inject_Z n). intros m Hlo Hhi.
    unfold Qdiv. change (/ 100)%Q with (1 # 100)%Q.
    split; lra.
  - assert (x < 0)%Q as Hneg.
    { apply Qnot_le_lt. intros H. apply Qle_bool_iff in H. congruence. }
    rewrite (Qabs_neg x) in Hlo, Hhi by (by apply Qlt_le_weak).
    rewrite (Qmake_Qdiv (- n) 100). change (inject_Z 100) with 100%Q.
    rewrite inject_Z_opp.
    generalize dependent (inject_Z n). intros m Hlo Hhi.
    unfold Qdiv. change (/ 100)%Q with (1 # 100)%Q.
    split; lra.
Qed.

Lemma round_half_up_2dp_monotone (x y : Q) :
  (0 <= x → x <= y → round_half_up_2dp x <= round_half_up_2dp y)%Q.
Proof.
  intros Hx Hxy. assert (0 <= y)%Q as Hy by (by apply Qle_trans with x).
  unfold round_half_up_2dp.
  rewrite (proj2 (Qle_bool_iff 0 x) Hx), (proj2 (Qle_bool_iff 0 y) Hy).
  rewrite !Qabs_pos by done.
  assert (Qfloor (x * 100 + (1 # 2)) <= Qfloor (y * 100 + (1 # 2))) as Hf
    by (apply Qfloor_resp_le; lra).
  revert Hf. generalize (Qfloor (x * 100 + (1 # 2))) (Qfloor (y * 100 + (1 # 2))).
  intros a b Hab. unfold Qle. cbn [Qnum Qden]. lia.
Qed.

(** X2: within the precision of the decimal context the limit price is the
    exact product rounded to cents, so it is off by at most half a cent. *)
Theorem limit_price_within_half_a_cent (pre_close up d : Decimal) :
  let multiplier := exact_add {| coef := 1; expo := 0 |} up in
  Z.abs (coef multiplier) < 10 ^ prec →
  Z.abs (coef (exact_mul pre_close multiplier)) < 10 ^ prec →
  compute_limit_price pre_close up = Ok d →
  expo d = -2
  ∧ (Qabs (dec_value d - dec_value pre_close * (1 + dec_value up))
     <= 1 # 200)%Q.
Proof.
  intros multiplier Hadd Hmul Hd.
  destruct (limit_price_value pre_close up Hadd Hmul d Hd) as [He Hv].
  split; [done|]. rewrite Hv. apply round_half_up_2dp_error.
Qed.

Lemma limit_price_within_half_a_cent_witness :
  expo {| coef := 1100; expo := -2 |} = -2
  ∧ (Qabs (dec_value {| coef := 1100; expo := -2 |}
           - dec_value {| coef := 10; expo := 0 |}
             * (1 + dec_value {| coef := 10; expo := -2 |}))
     <= 1 # 200)%Q.
Proof.
  apply (limit_price_within_half_a_cent
           {| coef := 10; expo := 0 |} {| coef := 10; expo := -2 |}
           {| coef := 1100; expo := -2 |});
    vm_compute; reflexivity.
Defined.

(** X3: for a non-negative previous close and a limit fraction of at least
    -100%, a higher previous close never gives a lower limit price (within
    the precision of the decimal context). *)
Theorem limit_price_monotone_in_pre_close
    (pre_close pre_close' up d d' : Decimal) :
  let multiplier := exact_add {| coef := 1; expo := 0 |} up in
  Z.abs (coef multiplier) < 10 ^ prec →
  Z.abs (coef (exact_mul pre_close multiplier)) < 10 ^ prec →
  Z.abs (coef (exact_mul pre_close' multiplier)) < 10 ^ prec →
  (0 <= dec_value pre_close)%Q →
  (dec_value pre_close <= dec_value pre_close')%Q →
  (0 <= 1 + dec_value up)%Q →
  compute_limit_price pre_close up = Ok d →
  compute_limit_price pre_close' up = Ok d' →
  (dec_value d <= dec_value d')%Q.
Proof.
  intros multiplier Hadd Hmul Hmul' Hp Hpp Hu Hd Hd'.
  destruct (limit_price_value pre_close up Hadd Hmul d Hd) as [_ ->].
  destruct (limit_price_value pre_close' up Hadd Hmul' d' Hd') as [_ ->].
  apply round_half_up_2dp_monotone.
  - by apply Qmult_le_0_compat.
  - by apply Qmult_le_compat_r.
Qed.

Lemma limit_price_monotone_in_pre_close_witness :
  (dec_value {| coef := 1100; expo := -2 |}
   <= dec_value {| coef := 1210; expo := -2 |})%Q.
Proof.
  apply (limit_price_monotone_in_pre_close
           {| coef := 10; expo := 0 |} {| coef := 11; expo := 0 |}
           {| coef := 10; expo := -2 |});
    vm_compute; first [reflexivity | discriminate].
Defined.

End LimitPriceBounds.

(** ** limits.py: rule tables, parameter lookup and listing age; the
    instrument lookup of labels.py *)

Module LimitRules.
Import Limits.

(** A value of a rule table ([float | int]).  A float stands as the decimal
    that [str] prints for it, which is what [Decimal(str(value))] reads
    back; non-numeric TOML values are outside the model. *)
Inductive RuleValue :=
| RuleFloat (d : Decimal)
| RuleInt (z : Z).

(** [Decimal(str(value))]. *)
Definition decimal_of_rule (value : RuleValue) : Decimal :=
  match value with
  | RuleFloat d => d
  | RuleInt z => {| coef := z; expo := 0 |}
  end.

(** [int(value)]: a float is truncated toward zero. *)
Definition int_of_rule (value : RuleValue) : Z :=
  match value with
  | RuleInt z => z
  | RuleFloat d =>
      if (0 <=? expo d)%Z then (coef d * 10 ^ expo d)%Z
      else (coef d ÷ 10 ^ (- expo d))%Z
  end.

Abbreviation BoardParams := (gmap string RuleValue).
Abbreviation Rules := (gmap string (gmap string RuleValue)).

Definition board_params (limit_up limit_down : Decimal) (days : Z)
    : BoardParams :=
  {[ "limit_up" := RuleFloat limit_up;
     "limit_down" := RuleFloat limit_down;
     "ipo_unlimited_days" := RuleInt days ]}.

Definition pct_10 : Decimal := {| coef := 1; expo := -1 |}.
Definition pct_5 : Decimal := {| coef := 5; expo := -2 |}.
Definition pct_20 : Decimal := {| coef := 2; expo := -1 |}.

Definition DEFAULT_LIMIT_RULES : Rules :=
  {[ "MAIN" := board_params pct_10 pct_10 1;
     "ST" := board_params pct_5 pct_5 1;
     "STAR" := board_params pct_20 pct_20 5;
     "CHINEXT" := board_params pct_20 pct_20 5 ]}.

(** One turn of the merge loop of [_load_rules]: [dict.update] lets the
    loaded fields win and keeps the others. *)
Definition merge_board (merged_rules : Rules)
    (entry : string * BoardParams) : Rules :=
  let board_key := strip (upper entry.1) in
  <[ board_key := entry.2 ∪ default ∅ (merged_rules !! board_key) ]>
    merged_rules.

(** [_load_rules].  [loaded] is the parsed rule file, its tables in file
    order, or [None] when the file does not exist. *)
Definition _load_rules (loaded : option (list (string * BoardParams)))
    : Rules :=
  match loaded with
  | None => DEFAULT_LIMIT_RULES
  | Some tables => fold_left merge_board tables DEFAULT_LIMIT_RULES
  end.

Definition truthy_texts : list string := ["1"; "true"; "t"; "yes"; "y"].
Definition falsy_texts : list string := ["0"; "false"; "f"; "no"; "n"; ""].

(** [_as_bool] of limits.py.  The text of a float meets neither set, so a
    float falls through to [bool(value)], and NaN is truthy. *)
Definition _as_bool (value : PyVal) : bool :=
  match value with
  | PyBool b => b
  | PyFloat None => true
  | PyFloat (Some q) => negb (Qeq_bool q 0)
  | PyNone => false
  | PyInt z =>
      let text := lower (strip (str_int z)) in
      if str_in text truthy_texts then true
      else if str_in text falsy_texts then false
      else negb (z =? 0)%Z
  | PyStr s =>
      let text := lower (strip s) in
      if str_in text truthy_texts then true
      else if str_in text falsy_texts then false
      else negb (String.eqb s "")
  end.

(** The text both [_as_bool] helpers compare with their literal sets. *)
Definition flag_text (value : PyVal) : option string :=
  match value with
  | PyInt z => Some (lower (strip (str_int z)))
  | PyStr s => Some (lower (strip s))
  | PyFloat None => Some "nan"
  | _ => None
  end.

(** What a call can raise here. *)
Inductive outcome (A : Type) : Type :=
| Returns (a : A)
| RaisesKeyError
| RaisesValueError.
Arguments Returns {A} a.
Arguments RaisesKeyError {A}.
Arguments RaisesValueError {A}.

Definition is_digit (c : ascii) : bool :=
  let n := N_of_ascii c in ((48 <=? n) && (n <=? 57))%N.

Fixpoint all_digits (s : string) : bool :=
  match s with
  | EmptyString => true
  | String c s' => is_digit c && all_digits s'
  end.

Section Lookup.

(** [str] of a finite float, and [datetime.strptime(text, pattern).date()]
    as the day number of the date ([None]: the text does not match). *)
Variable float_repr : Q → string.
Variable strptime : string → string → option Z.

Definition py_str (value : PyVal) : string :=
  match value with
  | PyNone => "None"
  | PyBool true => "True"
  | PyBool false => "False"
  | PyInt z => str_int z
  | PyFloat None => "nan"
  | PyFloat (Some q) => float_repr q
  | PyStr s => s
  end.

Definition _normalize_date (value : PyVal) : result (option Z) :=
  match value with
  | PyNone => Ok None
  | _ =>
      let text := strip (py_str value) in
      if String.eqb text "" || String.eqb (lower text) "nan" then Ok None
      else if (String.length text =? 8)%nat && all_digits text then
        match strptime text "%Y%m%d" with
        | Some day => Ok (Some day)
        | None => Raise ValueError
        end
      else
        match strptime text "%Y-%m-%d" with
        | Some day => Ok (Some day)
        | None =>
            match strptime text "%Y/%m/%d" with
            | Some day => Ok (Some day)
            | None => Raise ValueError
            end
        end
  end.

(** The key [pick_limit_params] reads the rule table at. *)
Definition board_key_of (instrument_row : gmap string PyVal)
    (limit_rules : Rules) : string :=
  let board_name :=
    upper (strip (py_str (default (PyStr "UNKNOWN")
                            (instrument_row !! "board")))) in
  let is_st := _as_bool (default (PyBool false) (instrument_row !! "is_st")) in
  let board_key := if is_st then "ST" else board_name in
  if bool_decide (is_Some (limit_rules !! board_key)) then board_key
  else "MAIN".

Definition pick_limit_params (instrument_row : gmap string PyVal)
    (loaded : option (list (string * BoardParams)))
    : outcome (Decimal * Decimal * Z) :=
  let limit_rules := _load_rules loaded in
  match limit_rules !! board_key_of instrument_row limit_rules with
  | None => RaisesKeyError
  | Some params =>
      match params !! "limit_up" with
      | None => RaisesKeyError
      | Some limit_up =>
          match params !! "limit_down" with
          | None => RaisesKeyError
          | Some limit_down =>
              match params !! "ipo_unlimited_days" with
              | None => RaisesKeyError
              | Some days =>
                  Returns (decimal_of_rule limit_up,
                           decimal_of_rule limit_down,
                           int_of_rule days)
              end
          end
      end
  end.

Definition is_price_limit_applicable (instrument_row : gmap string PyVal)
    (trade_date : string) (loaded : option (list (string * BoardParams)))
    : outcome bool :=
  match _normalize_date (default PyNone (instrument_row !! "list_date")) with
  | Raise _ => RaisesValueError
  | Ok None => Returns true
  | Ok (Some listing_date) =>
      match _normalize_date (PyStr trade_date) with
      | Raise _ => RaisesValueError
      | Ok None => RaisesValueError
      | Ok (Some current_trade_date) =>
          match pick_limit_params instrument_row loaded with
          | Returns (_, _, ipo_unlimited_days) =>
              Returns (ipo_unlimited_days
                       <=? current_trade_date - listing_date)%Z
          | RaisesKeyError => RaisesKeyError
          | RaisesValueError => RaisesValueError
          end
      end
  end.

(** [_get_instrument_row] of labels.py, over the dict that
    [_build_instrument_lookup] returns. *)
Definition default_instrument_row : gmap string PyVal :=
  {[ "board" := PyStr "UNKNOWN"; "is_st" := PyBool false;
     "list_date" := PyNone ]}.

Definition _get_instrument_row
    (instrument_lookup : gmap string (gmap string PyVal)) (ts_code : PyVal)
    : gmap string PyVal :=
  default default_instrument_row
          (instrument_lookup !! strip (py_str ts_code)).

End Lookup.

(** An instrument without a usable listing date. *)
Definition no_listing_date (instrument_row : gmap string PyVal) : Prop :=
  instrument_row !! "list_date" = None
  ∨ instrument_row !! "list_date" = Some PyNone
  ∨ instrument_row !! "list_date" = Some (PyFloat None)
  ∨ ∃ s, instrument_row !! "list_date" = Some (PyStr s) ∧ strip s = "".

(** The tables of a rule file that end up under the key [board]. *)
Definition tables_for (board : string)
    (tables : list (string * BoardParams)) : list BoardParams :=
  map snd (filter (λ entry, strip (upper entry.1) = board) tables).

Definition default_params : list (Decimal * Decimal * Z) :=
  [(pct_10, pct_10, 1%Z); (pct_5, pct_5, 1%Z); (pct_20, pct_20, 5%Z)].

Lemma merge_board_lookup (merged_rules : Rules) (entry : string * BoardParams)
    (board field : string) :
  (strip (upper entry.1) = board → entry.2 !! field = None) →
  merge_board merged_rules entry !! board ≫= (.!! field)
  = merged_rules !! board ≫= (.!! field).
Proof.
  intros Hfield. unfold merge_board.
  destruct (decide (strip (upper entry.1) = board)) as [Heq|Hne].
  - rewrite Heq, lookup_insert_eq. simpl.
    rewrite lookup_union_r by auto.
    by destruct (merged_rules !! board).
  - by rewrite lookup_insert_ne.
Qed.

Lemma merge_board_dom (merged_rules : Rules) (entry : string * BoardParams)
    (board : string) :
  is_Some (merged_rules !! board) →
  is_Some (merge_board merged_rules entry !! board).
Proof.
  intros H. unfold merge_board.
  destruct (decide (strip (upper entry.1) = board)) as [Heq|Hne].
  - rewrite Heq, lookup_insert_eq. eauto.
  - by rewrite lookup_insert_ne.
Qed.

Lemma default_rules_lookup (board : string) :
  DEFAULT_LIMIT_RULES !! board = None
  ∨ DEFAULT_LIMIT_RULES !! board = Some (board_params pct_10 pct_10 1)
  ∨ DEFAULT_LIMIT_RULES !! board = Some (board_params pct_5 pct_5 1)
  ∨ DEFAULT_LIMIT_RULES !! board = Some (board_params pct_20 pct_20 5).
Proof.
  unfold DEFAULT_LIMIT_RULES.
  destruct (decide (board = "MAIN")) as [->|?];
    [right; left; by rewrite lookup_insert_eq|rewrite lookup_insert_ne by done].
  destruct (decide (board = "ST")) as [->|?];
    [right; right; left; by rewrite lookup_insert_eq
    |rewrite lookup_insert_ne by done].
  destruct (decide (board = "STAR")) as [->|?];
    [right; right; right; by rewrite lookup_insert_eq
    |rewrite lookup_insert_ne by done].
  destruct (decide (board = "CHINEXT")) as [->|?];
    [right; right; right; by rewrite lookup_singleton_eq|].
  left. by apply lookup_singleton_ne.
Qed.

(** X4: the ST flag decides the parameters of an instrument whatever its board
    says: two instruments whose [is_st] flags read true get the same answer
    from [pick_limit_params] under any rule file. *)
Theorem st_flag_overrides_board
    (float_repr : Q → string) (row row' : gmap string PyVal)
    (loaded : option (list (string * BoardParams))) :
  _as_bool (default (PyBool false) (row !! "is_st")) = true →
  _as_bool (default (PyBool false) (row' !! "is_st")) = true →
  pick_limit_params float_repr row loaded
  = pick_limit_params float_repr row' loaded.
Proof.
  intros Hst Hst'. unfold pick_limit_params, board_key_of.
  by rewrite Hst, Hst'.
Qed.

Lemma st_flag_overrides_board_witness :
  pick_limit_params (λ _, "1.0")
    {[ "board" := PyStr "STAR"; "is_st" := PyInt 1 ]} None
  = pick_limit_params (λ _, "1.0")
      {[ "board" := PyStr "MAIN"; "is_st" := PyStr " yes " ]} None.
Proof.
  apply (st_flag_overrides_board (λ _, "1.0")
           {[ "board" := PyStr "STAR"; "is_st" := PyInt 1 ]}
           {[ "board" := PyStr "MAIN"; "is_st" := PyStr " yes " ]});
    vm_compute; reflexivity.
Defined.

(** X5: a board name that the rule table does not know is treated as the main
    board: such an instrument (not flagged ST) gets what a MAIN instrument
    gets. *)
Theorem unknown_board_falls_back_to_main
    (float_repr : Q → string) (row : gmap string PyVal)
    (loaded : option (list (string * BoardParams))) :
  _as_bool (default (PyBool false) (row !! "is_st")) = false →
  _load_rules loaded
    !! upper (strip (py_str float_repr
                       (default (PyStr "UNKNOWN") (row !! "board")))) = None →
  pick_limit_params float_repr row loaded
  = pick_limit_params float_repr {[ "board" := PyStr "MAIN" ]} loaded.
Proof.
  intros Hst Hboard. unfold pick_limit_params, board_key_of.
  rewrite Hst, Hboard.
  rewrite bool_decide_eq_false_2 by (by intros [? ?]).
  rewrite lookup_singleton_eq.
  rewrite lookup_singleton_ne by done.
  change (_as_bool (default (PyBool false) None)) with false.
  change (upper (strip (py_str float_repr (default (PyStr "UNKNOWN")
                                             (Some (PyStr "MAIN"))))))
    with "MAIN".
  cbv beta iota zeta.
  by destruct (bool_decide (is_Some (_load_rules loaded !! "MAIN"))).
Qed.

Lemma unknown_board_falls_back_to_main_witness :
  pick_limit_params (λ _, "1.0") {[ "board" := PyStr "bse" ]} None
  = pick_limit_params (λ _, "1.0") {[ "board" := PyStr "MAIN" ]} None.
Proof.
  apply (unknown_board_falls_back_to_main (λ _, "1.0")
           {[ "board" := PyStr "bse" ]} None);
    vm_compute; reflexivity.
Defined.

Lemma fold_merge_board_lookup (tables : list (string * BoardParams))
    (rules : Rules) (board field : string) :
  Forall (λ params, params !! field = None) (tables_for board tables) →
  fold_left merge_board tables rules !! board ≫= (.!! field)
  = rules !! board ≫= (.!! field).
Proof.
  unfold tables_for. revert rules.
  induction tables as [|entry tables IH]; intros rules Hall; [done|].
  simpl. rewrite IH.
  - apply merge_board_lookup. intros Heq.
    rewrite filter_cons_True in Hall by done.
    by inversion Hall.
  - destruct (decide (strip (upper entry.1) = board)) as [Heq|Hne].
    + rewrite filter_cons_True in Hall by done. by inversion Hall.
    + by rewrite filter_cons_False in Hall.
Qed.

Lemma fold_merge_board_dom (tables : list (string * BoardParams))
    (rules : Rules) (board : string) :
  is_Some (rules !! board) ∨ tables_for board tables ≠ [] →
  is_Some (fold_left merge_board tables rules !! board).
Proof.
  unfold tables_for. revert rules.
  induction tables as [|entry tables IH]; intros rules H.
  - by destruct H.
  - simpl. apply IH.
    destruct H as [H|H]; [left; by apply merge_board_dom|].
    destruct (decide (strip (upper entry.1) = board)) as [Heq|Hne].
    + left. unfold merge_board. rewrite Heq, lookup_insert_eq. eauto.
    + right. by rewrite filter_cons_False in H.
Qed.

(** X6: [_load_rules] merges a rule file field by field: a field of a board
    that no table of the file sets under that board's key keeps its built-in
    value (and stays absent where there is none). *)
Theorem load_rules_keeps_unmentioned_fields
    (tables : list (string * BoardParams)) (board field : string) :
  Forall (λ params, params !! field = None) (tables_for board tables) →
  _load_rules (Some tables) !! board ≫= (.!! field)
  = DEFAULT_LIMIT_RULES !! board ≫= (.!! field).
Proof. apply fold_merge_board_lookup. Qed.

Lemma load_rules_keeps_unmentioned_fields_witness :
  _load_rules (Some [(" star ", {[ "limit_up" := RuleFloat pct_10 ]})])
    !! "STAR" ≫= (.!! "ipo_unlimited_days")
  = Some (RuleInt 5).
Proof.
  rewrite (load_rules_keeps_unmentioned_fields
             [(" star ", {[ "limit_up" := RuleFloat pct_10 ]})]
             "STAR" "ipo_unlimited_days").
  - reflexivity.
  - unfold tables_for. rewrite filter_cons_True by reflexivity.
    constructor; [vm_compute; reflexivity|constructor].
Defined.

(** X7: a rule file can add a board, but nothing completes its fields: when
    the tables given for a new board leave out one of the three fields,
    [pick_limit_params] raises KeyError for the instruments of that board. *)
Theorem incomplete_new_board_raises_key_error
    (float_repr : Q → string) (row : gmap string PyVal)
    (tables : list (string * BoardParams)) (board field : string) :
  field ∈ ["limit_up"; "limit_down"; "ipo_unlimited_days"] →
  DEFAULT_LIMIT_RULES !! board = None →
  tables_for board tables ≠ [] →
  Forall (λ params, params !! field = None) (tables_for board tables) →
  _as_bool (default (PyBool false) (row !! "is_st")) = false →
  upper (strip (py_str float_repr (default (PyStr "UNKNOWN") (row !! "board"))))
  = board →
  pick_limit_params float_repr row (Some tables) = RaisesKeyError.
Proof.
  intros Hfield Hnew Htables Hall Hst Hboard.
  pose proof (fold_merge_board_dom tables DEFAULT_LIMIT_RULES board
                (or_intror Htables)) as Hdom.
  pose proof (fold_merge_board_lookup tables DEFAULT_LIMIT_RULES board field
                Hall) as Hlookup.
  rewrite Hnew in Hlookup.
  unfold pick_limit_params, board_key_of. cbn [_load_rules].
  rewrite Hst, Hboard. rewrite bool_decide_eq_true_2 by done.
  destruct Hdom as [params Hparams]. rewrite Hparams in Hlookup |- *.
  simpl in Hlookup.
  apply elem_of_cons in Hfield as [->|Hfield]; [by rewrite Hlookup|].
  destruct (params !! "limit_up"); [|done].
  apply elem_of_cons in Hfield as [->|Hfield]; [by rewrite Hlookup|].
  destruct (params !! "limit_down"); [|done].
  apply elem_of_cons in Hfield as [->|Hfield]; [by rewrite Hlookup|].
  by apply elem_of_nil in Hfield.
Qed.

Lemma incomplete_new_board_raises_key_error_witness :
  pick_limit_params (λ _, "1.0") {[ "board" := PyStr "bse" ]}
    (Some [("BSE", {[ "limit_up" := RuleFloat {| coef := 3; expo := -1 |} ]})])
  = RaisesKeyError.
Proof.
  apply (incomplete_new_board_raises_key_error _ _ _ "BSE" "limit_down").
  - apply list_elem_of_further, list_elem_of_here.
  - vm_compute. reflexivity.
  - unfold tables_for. by rewrite filter_cons_True by reflexivity.
  - unfold tables_for. rewrite filter_cons_True by reflexivity.
    constructor; [vm_compute; reflexivity|constructor].
  - vm_compute. reflexivity.
  - vm_compute. reflexivity.
Defined.

(** X8: without a rule file [pick_limit_params] never fails: every instrument
    row resolves to one of the three built-in parameter sets, 10% with one
    free day, 5% with one free day, or 20% with five free days. *)
Theorem default_rules_always_resolve
    (float_repr : Q → string) (row : gmap string PyVal) :
  ∃ params, pick_limit_params float_repr row None = Returns params
            ∧ params ∈ default_params.
Proof.
  unfold pick_limit_params. cbn [_load_rules].
  set (key := board_key_of float_repr row DEFAULT_LIMIT_RULES).
  assert (is_Some (DEFAULT_LIMIT_RULES !! key)) as [params Hparams].
  { unfold key, board_key_of. cbv zeta.
    destruct (bool_decide _) eqn:Hdec.
    - by apply bool_decide_eq_true in Hdec.
    - by eexists. }
  rewrite Hparams. unfold default_params.
  destruct (default_rules_lookup key) as [H|[H|[H|H]]];
    rewrite H in Hparams; simplify_eq; eexists; (split; [reflexivity|]).
  - apply list_elem_of_here.
  - apply list_elem_of_further, list_elem_of_here.
  - do 2 apply list_elem_of_further. apply list_elem_of_here.
Qed.

(** X9: a bar whose instrument is missing from the instrument table is
    treated as a main-board stock that has always been listed: without a rule
    file its parameters are 10%, 10% and one free day, and the price limit
    applies on every date. *)
Theorem unlisted_instrument_is_main_board
    (float_repr : Q → string) (strptime : string → string → option Z)
    (instrument_lookup : gmap string (gmap string PyVal)) (ts_code : PyVal)
    (trade_date : string) (loaded : option (list (string * BoardParams))) :
  instrument_lookup !! strip (py_str float_repr ts_code) = None →
  pick_limit_params float_repr
    (_get_instrument_row float_repr instrument_lookup ts_code) None
  = Returns (pct_10, pct_10, 1%Z)
  ∧ is_price_limit_applicable float_repr strptime
      (_get_instrument_row float_repr instrument_lookup ts_code)
      trade_date loaded
    = Returns true.
Proof.
  intros Hmissing. unfold _get_instrument_row. rewrite Hmissing.
  split; reflexivity.
Qed.

Lemma unlisted_instrument_is_main_board_witness :
  pick_limit_params (λ _, "1.0")
    (_get_instrument_row (λ _, "1.0")
       {[ "AAA" := {[ "board" := PyStr "STAR" ]} ]} (PyStr " BBB ")) None
  = Returns (pct_10, pct_10, 1%Z).
Proof.
  apply (unlisted_instrument_is_main_board (λ _, "1.0") (λ _ _, None)
           {[ "AAA" := {[ "board" := PyStr "STAR" ]} ]} (PyStr " BBB ")
           "20240102" None).
  reflexivity.
Defined.

(** X10: an instrument without a listing date (the field absent, None, NaN or
    blank) is always under the price limit: [is_price_limit_applicable]
    answers true without parsing the trade date or reading the rules. *)
Theorem no_listing_date_is_always_applicable
    (float_repr : Q → string) (strptime : string → string → option Z)
    (row : gmap string PyVal) (trade_date : string)
    (loaded : option (list (string * BoardParams))) :
  no_listing_date row →
  is_price_limit_applicable float_repr strptime row trade_date loaded
  = Returns true.
Proof.
  unfold is_price_limit_applicable.
  intros [H|[H|[H|(s & H & Hs)]]]; rewrite H; try reflexivity.
  simpl. by rewrite Hs.
Qed.

Lemma no_listing_date_is_always_applicable_witness :
  is_price_limit_applicable (λ _, "1.0") (λ _ _, None)
    {[ "board" := PyStr "STAR"; "list_date" := PyStr "  " ]} "not a date" None
  = Returns true.
Proof.
  apply no_listing_date_is_always_applicable.
  do 3 right. exists "  ". split; reflexivity.
Defined.

(** X11: once the price limit applies to an instrument it keeps applying: if
    [is_price_limit_applicable] answers true at a trade date, it answers true
    at every later trade date that parses. *)
Theorem price_limit_stays_applicable
    (float_repr : Q → string) (strptime : string → string → option Z)
    (row : gmap string PyVal) (trade_date later : string) (day day' : Z)
    (loaded : option (list (string * BoardParams))) :
  _normalize_date float_repr strptime (PyStr trade_date) = Ok (Some day) →
  _normalize_date float_repr strptime (PyStr later) = Ok (Some day') →
  (day ≤ day')%Z →
  is_price_limit_applicable float_repr strptime row trade_date loaded
  = Returns true →
  is_price_limit_applicable float_repr strptime row later loaded
  = Returns true.
Proof.
  unfold is_price_limit_applicable. intros -> -> Hle.
  destruct (_normalize_date _ _ (default _ _)) as [[listing|]|]; try done.
  destruct (pick_limit_params _ _ _) as [[[? ?] days]| |]; try done.
  intros [= H]. f_equal. apply Z.leb_le. apply Z.leb_le in H. lia.
Qed.

Lemma price_limit_stays_applicable_witness :
  is_price_limit_applicable (λ _, "1.0")
    (λ text _, if String.eqb text "20240101" then Some 1%Z
               else if String.eqb text "20240106" then Some 6%Z
               else if String.eqb text "20240108" then Some 8%Z else None)
    {[ "board" := PyStr "STAR"; "list_date" := PyStr "20240101" ]}
    "20240108" None
  = Returns true.
Proof.
  apply (price_limit_stays_applicable _ _ _ "20240106" "20240108" 6 8);
    [reflexivity|reflexivity|lia|vm_compute; reflexivity].
Defined.

(** X12: the two [_as_bool] helpers (limits.py and fill_models.py) read every
    value alike except NaN: where they differ, limits.py says true,
    fill_models.py says false, and the value is a NaN float or spells
    "nan". *)
Theorem as_bool_helpers_differ_only_on_nan (value : PyVal) :
  _as_bool value ≠ FillModels._as_bool value →
  _as_bool value = true ∧ FillModels._as_bool value = false
  ∧ flag_text value = Some "nan".
Proof.
  assert (Hsets : ∀ text,
    str_in text FillModels.falsy_texts
    = str_in text falsy_texts || String.eqb text "nan").
  { intros text. unfold str_in, FillModels.falsy_texts, falsy_texts.
    cbn [existsb]. by destruct (String.eqb text "0"), (String.eqb text "false"),
      (String.eqb text "f"), (String.eqb text "no"), (String.eqb text "n"),
      (String.eqb text ""), (String.eqb text "nan"). }
  assert (Htruthy : ∀ text, String.eqb text "nan" = true →
    str_in text truthy_texts = false).
  { intros text Heq. apply String.eqb_eq in Heq. by subst. }
  destruct value as [|b|z|[q|]|s];
    unfold _as_bool, FillModels._as_bool, flag_text; cbv zeta; try done.
  - change FillModels.truthy_texts with truthy_texts. rewrite Hsets.
    destruct (String.eqb (lower (strip (str_int z))) "nan") eqn:Hnan.
    + rewrite (Htruthy _ Hnan). apply String.eqb_eq in Hnan.
      rewrite Hnan. simpl. destruct (z =? 0)%Z; try done.
    + rewrite orb_false_r. done.
  - change FillModels.truthy_texts with truthy_texts. rewrite Hsets.
    destruct (String.eqb (lower (strip s)) "nan") eqn:Hnan.
    + rewrite (Htruthy _ Hnan). apply String.eqb_eq in Hnan.
      rewrite Hnan. simpl. destruct (String.eqb s ""); try done.
    + rewrite orb_false_r. done.
Qed.

Lemma as_bool_helpers_differ_only_on_nan_witness :
  _as_bool (PyStr " NaN ") = true ∧ FillModels._as_bool (PyStr " NaN ") = false
  ∧ flag_text (PyStr " NaN ") = Some "nan".
Proof.
  apply (as_bool_helpers_differ_only_on_nan (PyStr " NaN ")).
  vm_compute. discriminate.
Defined.

End LimitRules.

(** ** labels.py: what the labels of a row imply about each other *)

Module LabelFacts.
Import Labels.

Section Labelers.

Variable numpy_2 : bool.
Variable limit_price_for : string → cell → cell.
Variable applicable_for : string → string → bool.

Lemma pipeline_row_idempotent (eps : Q) (row : Bar) :
  pipeline_row numpy_2 limit_price_for applicable_for eps
    (pipeline_row numpy_2 limit_price_for applicable_for eps row)
  = pipeline_row numpy_2 limit_price_for applicable_for eps row.
Proof. destruct row. reflexivity. Qed.

Lemma close_with_wider_eps (value limit_price : cell) (eps eps' : Q) :
  (eps <= eps')%Q →
  _is_close_to_limit numpy_2 value limit_price eps = true →
  _is_close_to_limit numpy_2 value limit_price eps' = true.
Proof.
  unfold _is_close_to_limit.
  destruct value as [a|], limit_price as [b|]; try done.
  intros Hle H. apply orb_true_iff in H as [H|H]; apply orb_true_iff;
    [left|by right].
  apply Qle_bool_iff. apply Qle_bool_iff in H.
  by apply Qle_trans with eps.
Qed.

(** X13: labelling is idempotent: running the labeling pipeline on its own
    output changes nothing, because every label is recomputed from the raw
    price columns. *)
Theorem labeling_pipeline_idempotent (eps : Q) (daily_df : list Bar) :
  labeling_pipeline numpy_2 limit_price_for applicable_for eps
    (labeling_pipeline numpy_2 limit_price_for applicable_for eps daily_df)
  = labeling_pipeline numpy_2 limit_price_for applicable_for eps daily_df.
Proof.
  rewrite !labeling_pipeline_rows, map_map.
  apply map_ext. intros row. apply pipeline_row_idempotent.
Qed.

(** X15: on a day on which the price limit does not apply to the instrument
    the pipeline sets none of the four labels, whatever the prices are. *)
Theorem no_labels_without_price_limit (eps : Q) (daily_df : list Bar)
    (row : Bar) :
  row ∈ labeling_pipeline numpy_2 limit_price_for applicable_for eps daily_df →
  applicable_for (ts_code row) (trade_date row) = false →
  col_label_limit_up row = false ∧ col_label_one_word row = false
  ∧ col_label_opened row = false ∧ col_label_sealed row = false.
Proof.
  rewrite labeling_pipeline_rows. intros Hin.
  apply list_elem_of_fmap in Hin as (raw & -> & _).
  destruct (pipeline_row_labels numpy_2 limit_price_for applicable_for eps raw)
    as (-> & -> & -> & ->).
  assert (ts_code (pipeline_row numpy_2 limit_price_for applicable_for eps raw)
          = ts_code raw) as -> by (by destruct raw).
  assert (trade_date (pipeline_row numpy_2 limit_price_for applicable_for eps raw)
          = trade_date raw) as -> by (by destruct raw).
  by intros ->.
Qed.

(** X16: a wider tolerance never removes a limit-up or a one-word label: a bar
    labelled so with [eps] is labelled so with every larger [eps]. *)
Theorem wider_eps_keeps_limit_up (eps eps' : Q) (daily_df : list Bar) :
  (eps <= eps')%Q →
  Forall2 (λ row row',
             (col_label_limit_up row = true → col_label_limit_up row' = true)
             ∧ (col_label_one_word row = true
                → col_label_one_word row' = true))
    (labeling_pipeline numpy_2 limit_price_for applicable_for eps daily_df)
    (labeling_pipeline numpy_2 limit_price_for applicable_for eps' daily_df).
Proof.
  intros Hle. rewrite !labeling_pipeline_rows.
  apply Forall2_fmap, Forall_Forall2_diag, Forall_forall. intros raw _.
  destruct (pipeline_row_labels numpy_2 limit_price_for applicable_for eps raw)
    as (-> & -> & _).
  destruct (pipeline_row_labels numpy_2 limit_price_for applicable_for eps' raw)
    as (-> & -> & _).
  split; intros H; repeat (apply andb_prop in H as [H ?]);
    rewrite H; repeat (apply andb_true_intro; split); try done;
    by apply (close_with_wider_eps _ _ eps eps').
Qed.

End Labelers.

Lemma no_labels_without_price_limit_witness :
  ∃ row, col_label_limit_up row = false ∧ col_label_one_word row = false
         ∧ col_label_opened row = false ∧ col_label_sealed row = false.
Proof.
  eexists.
  apply (no_labels_without_price_limit true main_board_price (λ _ _, false)
           DEFAULT_EPS [one_word_bar] _ (list_elem_of_here _ _)).
  reflexivity.
Defined.

Lemma wider_eps_keeps_limit_up_witness :
  Forall2 (λ row row',
             (col_label_limit_up row = true → col_label_limit_up row' = true)
             ∧ (col_label_one_word row = true
                → col_label_one_word row' = true))
    (labeling_pipeline true main_board_price (λ _ _, true) DEFAULT_EPS
       [one_word_bar])
    (labeling_pipeline true main_board_price (λ _ _, true)
       (Double.binary64 (1 # 100))
       [one_word_bar]).
Proof.
  apply (wider_eps_keeps_limit_up true main_board_price (λ _ _, true)
           DEFAULT_EPS (Double.binary64 (1 # 100)) [one_word_bar]).
  vm_compute. discriminate.
Defined.

End LabelFacts.

(** ** streaks.py: what a streak value says about the rows before it *)

Module StreakFacts.
Import Frame Streaks.

(** The AAA rows of [gap_days] beside another instrument that trades on
    the same three dates. *)
Definition gap_days_with_ccc : list Row :=
  [ mk 0 "AAA" "20240102" true; mk 1 "AAA" "20240104" true;
    mk 7 "CCC" "20240103" true; mk 9 "CCC" "20240102" true;
    mk 8 "CCC" "20240104" true ].

Lemma streaks_lookup_state (positions : gmap string nat) (st : State)
    (rows : list Row) (k : nat) (row : Row) :
  rows !! k = Some row →
  ∃ st', streaks positions st rows !! k
         = Some (current_streak positions st' row).
Proof.
  revert st k. induction rows as [|r rows IH]; intros st [|k] Hk; try done.
  - injection Hk as ->. by exists st.
  - apply (IH (advance positions st r) k Hk).
Qed.

Lemma current_streak_positive (positions : gmap string nat) (st : State)
    (row : Row) :
  0 < current_streak positions st row → label_limit_up row = true.
Proof. unfold current_streak. destruct (label_limit_up row); [done|lia]. Qed.

Lemma first_streak_at_most_one (positions : gmap string nat) (row : Row) :
  current_streak positions initial_state row ≤ 1.
Proof. unfold current_streak. simpl. destruct (label_limit_up row); lia. Qed.

(** A streak above [j] at position [k] of a series stands on [j + 1]
    limit-up rows, the earliest of them [j] market dates before. *)
Lemma streaks_run (positions : gmap string nat) (rows : list Row) (j : nat) :
  ∀ k n row,
    rows !! k = Some row →
    streaks positions initial_state rows !! k = Some n →
    j < n →
    j ≤ k
    ∧ ∃ r, rows !! (k - j) = Some r ∧ label_limit_up r = true
           ∧ positions !!! trade_date r + j = positions !!! trade_date row.
Proof.
  induction j as [|j IH]; intros k n row Hrow Hn Hj.
  - split; [lia|]. exists row. rewrite Nat.sub_0_r. split; [done|].
    split; [|lia].
    destruct (streaks_lookup_state positions initial_state rows k row Hrow)
      as [st' Hst'].
    rewrite Hst' in Hn. injection Hn as <-.
    by apply (current_streak_positive positions st').
  - destruct k as [|k].
    + destruct rows as [|r rows]; [done|]. simpl in Hrow, Hn.
      injection Hrow as ->. injection Hn as <-.
      pose proof (first_streak_at_most_one positions row). lia.
    + destruct (lookup_S_split rows k row Hrow)
        as (before & prev & rest & -> & Hlen).
      destruct (streaks_consecutive positions initial_state before prev row rest)
        as (st' & Hprev & Hcur).
      rewrite Hlen in Hprev, Hcur. rewrite Hcur in Hn. injection Hn as <-.
      rewrite current_streak_after in Hj.
      assert ((before ++ prev :: row :: rest) !! k = Some prev) as Hprevrow.
      { rewrite <- Hlen. by rewrite list_lookup_middle. }
      destruct (label_limit_up row); [|lia].
      destruct (label_limit_up prev) eqn:Hlabel; simpl in Hj; [|lia].
      destruct (_ =? _)%nat eqn:Hpos; [|lia].
      apply Nat.eqb_eq in Hpos.
      destruct (IH k _ prev Hprevrow Hprev) as (Hjk & r & Hr & Hlu & Hd);
        [lia|].
      split; [lia|]. exists r. replace (S k - S j) with (k - j) by lia.
      repeat split; try done. lia.
Qed.

(** X17: a streak counts real limit-up days: when a row's streak exceeds [j],
    the instrument has a row [j] places earlier in its own series, that row
    is a limit-up row, and it lies exactly [j] market dates earlier in the
    calendar of the data set.  In particular a positive streak sits on a
    limit-up row, and no streak exceeds the number of rows up to it. *)
Theorem streak_certifies_run (daily_df : list Row) (k j n : nat) (row : Row) :
  NoDup (map row_index daily_df) →
  instrument_series daily_df (ts_code row) !! k = Some row →
  (row, n) ∈ compute_limitup_streak daily_df →
  j < n →
  j ≤ k
  ∧ ∃ r i, instrument_series daily_df (ts_code row) !! (k - j) = Some r
           ∧ label_limit_up r = true
           ∧ market_trade_dates daily_df !! i = Some (trade_date r)
           ∧ market_trade_dates daily_df !! (i + j) = Some (trade_date row).
Proof.
  intros Hidx Hrow Hout Hj.
  pose proof (streak_of_series_row daily_df k row n Hidx Hrow Hout) as Hn.
  destruct (streaks_run _ _ j k n row Hrow Hn Hj) as (Hjk & r & Hr & Hlu & Hd).
  split; [done|].
  assert (Hdate : ∀ x, x ∈ instrument_series daily_df (ts_code row) →
            ∃ i, market_trade_dates daily_df !! i = Some (trade_date x)).
  { intros x Hx. apply elem_of_instrument_series in Hx as [Hx _].
    apply list_elem_of_lookup, elem_of_market_trade_dates. by exists x. }
  destruct (Hdate r) as [i Hi]; [by eapply list_elem_of_lookup_2|].
  destruct (Hdate row) as [i' Hi']; [by eapply list_elem_of_lookup_2|].
  pose proof (NoDup_market_trade_dates daily_df) as Hnd.
  rewrite (market_trade_positions_lookup _ i _ Hnd Hi) in Hd.
  rewrite (market_trade_positions_lookup _ i' _ Hnd Hi') in Hd.
  exists r, i. rewrite Hd. done.
Qed.

Lemma streak_certifies_run_witness :
  ∃ r i, instrument_series six_days "BBB" !! (3 - 2) = Some r
         ∧ label_limit_up r = true
         ∧ market_trade_dates six_days !! i = Some (trade_date r)
         ∧ market_trade_dates six_days !! (i + 2)
           = Some (trade_date (mk 7 "BBB" "20240105" true)).
Proof.
  apply (streak_certifies_run six_days 3 2 3 (mk 7 "BBB" "20240105" true)).
  - apply (bool_decide_unpack _). vm_compute. exact I.
  - vm_compute. reflexivity.
  - apply (list_elem_of_lookup_2 _ 7). vm_compute. reflexivity.
  - lia.
Defined.

(** X18: on a frame whose index labels increase (the default index) the result
    lists the input rows in the input order, each with its streak. *)
Theorem streak_output_keeps_row_order (daily_df : list Row) :
  StronglySorted lt (map row_index daily_df) →
  map fst (compute_limitup_streak daily_df) = daily_df.
Proof.
  intros Hsorted. unfold compute_limitup_streak.
  set (le' := λ a b : Row, (row_index a <=? row_index b)%nat).
  etrans; [apply (stable_sort_fmap fst le')|].
  rewrite map_map. simpl. rewrite map_id.
  assert (Htotal : ∀ x y, le' x y = true ∨ le' y x = true).
  { intros x y. unfold le'. rewrite !Nat.leb_le. lia. }
  assert (Htrans : ∀ x y z, le' x y = true → le' y z = true → le' x z = true).
  { intros x y z. unfold le'. rewrite !Nat.leb_le. lia. }
  assert (Hanti : ∀ x y, x ∈ daily_df → y ∈ daily_df →
                    le' x y = true → le' y x = true → x = y).
  { intros x y Hx Hy H1 H2.
    apply (NoDup_fmap_eq row_index daily_df x y);
      [by apply increasing_NoDup|done|done|].
    unfold le' in H1, H2. apply Nat.leb_le in H1, H2. lia. }
  etrans.
  - apply (stable_sort_unique le' Htotal Htrans _ daily_df).
    + intros x y Hx Hy. apply Hanti; by apply (elem_of_stable_sort by_code_date).
    + apply stable_sort_perm.
  - apply stable_sort_sorted_id; try done.
    clear -Hsorted. induction daily_df as [|x l IH]; [constructor|].
    inversion Hsorted as [|? ? Hl Hx]; subst. constructor; [by apply IH|].
    rewrite Forall_fmap in Hx. eapply Forall_impl; [exact Hx|].
    intros y Hy. simpl in Hy. unfold le_rel, le'. apply Nat.leb_le. lia.
Qed.

Lemma streak_output_keeps_row_order_witness :
  map fst (compute_limitup_streak gap_days) = gap_days.
Proof.
  apply streak_output_keeps_row_order.
  vm_compute. repeat constructor; lia.
Defined.

(** X19: the streaks of an instrument depend only on its own rows and on which
    dates occur in the data set: two frames that hold the same rows for an
    instrument and the same set of dates give its rows the same streaks. *)
Theorem streak_depends_on_own_rows_and_dates
    (daily_df daily_df' : list Row) (row : Row) (n n' : nat) :
  NoDup (map row_index daily_df) →
  NoDup (map row_index daily_df') →
  filter (λ r, ts_code r = ts_code row) daily_df
  = filter (λ r, ts_code r = ts_code row) daily_df' →
  (∀ d, d ∈ map trade_date daily_df ↔ d ∈ map trade_date daily_df') →
  (row, n) ∈ compute_limitup_streak daily_df →
  (row, n') ∈ compute_limitup_streak daily_df' →
  n = n'.
Proof.
  intros Hidx Hidx' Hrows Hdates Hout Hout'.
  assert (Hseries : instrument_series daily_df (ts_code row)
                    = instrument_series daily_df' (ts_code row)).
  { unfold instrument_series. by rewrite Hrows. }
  assert (Hcal : market_trade_dates daily_df = market_trade_dates daily_df').
  { unfold market_trade_dates. apply stable_sort_unique.
    - apply string_leb_total.
    - apply string_leb_trans.
    - intros x y _ _. apply String.leb_antisym.
    - apply NoDup_Permutation; try apply NoDup_remove_dups.
      intros d. rewrite !elem_of_remove_dups. apply Hdates. }
  assert (row ∈ instrument_series daily_df (ts_code row)) as Hin.
  { apply elem_of_instrument_series. split; [|done].
    by apply elem_of_compute_limitup_streak in Hout as [? _]. }
  apply list_elem_of_lookup in Hin as [k Hk].
  pose proof (streak_of_series_row daily_df k row n Hidx Hk Hout) as H.
  rewrite Hseries in Hk.
  pose proof (streak_of_series_row daily_df' k row n' Hidx' Hk Hout') as H'.
  rewrite Hseries, Hcal in H. congruence.
Qed.

Lemma streak_depends_on_own_rows_and_dates_witness :
  default 0 (snd <$> compute_limitup_streak gap_days !! 0)
  = default 0 (snd <$> compute_limitup_streak gap_days_with_ccc !! 0).
Proof.
  apply (streak_depends_on_own_rows_and_dates gap_days gap_days_with_ccc
           (mk 0 "AAA" "20240102" true)).
  - apply (bool_decide_unpack _). vm_compute. exact I.
  - apply (bool_decide_unpack _). vm_compute. exact I.
  - vm_compute. reflexivity.
  - intros d. simpl. rewrite !elem_of_cons, !elem_of_nil. tauto.
  - apply (list_elem_of_lookup_2 _ 0). vm_compute. reflexivity.
  - apply (list_elem_of_lookup_2 _ 0). vm_compute. reflexivity.
Defined.

End StreakFacts.

(** ** streaks.py: the two row filters *)

Module Filters.

(** One row of a labelled frame, as the labeling pipeline hands it to the
    filters: [vol] is the cell [pd.to_numeric(..., errors="coerce")] yields
    and [price_limit_applicable] the cell of that column.  The branch of
    [exclude_unlimited_days] for a frame without the column is outside this
    type. *)
Record Row := {
  row_index : nat;
  ts_code : string;
  trade_date : string;
  vol : cell;
  price_limit_applicable : PyVal
}.

Definition set_row_index (i : nat) (row : Row) : Row :=
  {| row_index := i; ts_code := ts_code row; trade_date := trade_date row;
     vol := vol row; price_limit_applicable := price_limit_applicable row |}.

Definition set_trade_date (d : string) (row : Row) : Row :=
  {| row_index := row_index row; ts_code := ts_code row; trade_date := d;
     vol := vol row; price_limit_applicable := price_limit_applicable row |}.

(** [reset_index(drop=True)]. *)
Definition reset_index (rows : list Row) : list Row := imap set_row_index rows.

(** [traded_volume > 0] after [fillna(0.0)]. *)
Definition traded (row : Row) : bool :=
  match vol row with
  | Some v => negb (Qle_bool v 0)
  | None => false
  end.

Definition exclude_suspended (daily_df : list Row) : list Row :=
  reset_index (filter (λ row, traded row = true) daily_df).

(** [_coerce_bool_series], cell by cell; the code is that of
    [normalize_bool_series]. *)
Definition _coerce_bool (value : PyVal) : bool := Backtest.normalize_bool value.

Section Dates.

Variable pd : Backtest.Pandas.

(** [pd.to_datetime(column, errors="coerce")] on a column of texts, with one
    result for each text.  pandas reads the whole column with the one format
    it infers from the first texts, so what a text parses to depends on the
    column it stands in. *)
Variable to_datetime_column : list string → list (option Z).

Definition _normalize_trade_date_series (trade_dates : list string)
    : result (list string) :=
  let parsed_dates := to_datetime_column (map strip trade_dates) in
  let! valid_dates :=
    map_result (λ parsed, match parsed with
                          | Some date => Ok date
                          | None => Raise ValueError
                          end)
               parsed_dates in
  Ok (map (Backtest.strftime_ymd pd) valid_dates).

Definition exclude_unlimited_days (daily_df : list Row) : result (list Row) :=
  let! trade_dates := _normalize_trade_date_series (map trade_date daily_df) in
  let filtered_daily := zip_with set_trade_date trade_dates daily_df in
  Ok (reset_index
        (filter (λ row, _coerce_bool (price_limit_applicable row) = true)
                filtered_daily)).

End Dates.

(** The column parser for texts of [%Y%m%d] digits: every text is read with
    that format. *)
Definition digits_column : list string → list (option Z) :=
  map (Backtest.to_datetime Backtest.digits_only).

(** A frame with a suspended row whose date cannot be read. *)
Definition suspended_without_date : list Row :=
  [ {| row_index := 0; ts_code := "AAA"; trade_date := "20240102";
       vol := Some 100%Q; price_limit_applicable := PyBool true |};
    {| row_index := 1; ts_code := "AAA"; trade_date := "-";
       vol := Some 0%Q; price_limit_applicable := PyBool true |} ].

Lemma row_index_reset_index (rows : list Row) :
  map row_index (reset_index rows) = seq 0 (length rows).
Proof.
  unfold reset_index.
  assert (H : ∀ k l, map row_index (imap (λ i, set_row_index (k + i)) l)
                     = seq k (length l)).
  { intros k l. revert k. induction l as [|row l IH]; intros k; [done|].
    cbn [imap map length seq]. rewrite Nat.add_0_r. f_equal.
    rewrite <- (IH (S k)). f_equal. apply imap_ext. intros i ? _. simpl.
    f_equal. lia. }
  apply (H 0).
Qed.

Lemma elem_of_reset_index (rows : list Row) (row : Row) :
  row ∈ reset_index rows → ∃ i raw, raw ∈ rows ∧ row = set_row_index i raw.
Proof.
  intros H. apply elem_of_lookup_imap_1 in H as (i & raw & -> & Hraw).
  exists i, raw. split; [by eapply list_elem_of_lookup_2|done].
Qed.

Section Composition.

Variable pd : Backtest.Pandas.
Variable to_datetime_column : list string → list (option Z).

Lemma exclude_unlimited_days_inv (daily_df filtered : list Row) :
  exclude_unlimited_days pd to_datetime_column daily_df = Ok filtered →
  ∃ rows,
    filtered
    = reset_index
        (filter (λ row, _coerce_bool (price_limit_applicable row) = true) rows).
Proof.
  unfold exclude_unlimited_days.
  destruct (_normalize_trade_date_series pd to_datetime_column _)
    as [trade_dates|]; [|done].
  cbn [bind]. intros [= <-]. by eexists.
Qed.

(** X21: after the two filters, in the order report.py applies them, the frame
    has the index labels 0, 1, 2, ... and every row has a positive volume
    and a price-limit flag that reads true. *)
Theorem filtered_frame_invariants (daily_df filtered : list Row) :
  exclude_unlimited_days pd to_datetime_column daily_df = Ok filtered →
  let out := exclude_suspended filtered in
  map row_index out = seq 0 (length out)
  ∧ Forall (λ row, (∃ v, vol row = Some v ∧ (0 < v)%Q)
                   ∧ _coerce_bool (price_limit_applicable row) = true) out.
Proof.
  intros Hrun. apply exclude_unlimited_days_inv in Hrun as (rows & ->). split.
  - unfold exclude_suspended.
    rewrite row_index_reset_index. unfold reset_index.
    by rewrite length_imap.
  - apply Forall_forall. intros row Hrow.
    apply elem_of_reset_index in Hrow as (i & mid & Hmid & ->).
    apply list_elem_of_filter in Hmid as [Htraded Hmid].
    apply elem_of_reset_index in Hmid as (j & raw & Hraw & ->).
    apply list_elem_of_filter in Hraw as [Happlicable _].
    split; [|done].
    unfold traded in Htraded. cbn [vol set_row_index] in *.
    destruct (vol raw) as [v|]; [|done]. exists v. split; [done|].
    apply negb_true_iff in Htraded. apply Qnot_le_lt. intros Hle.
    apply Qle_bool_iff in Hle. congruence.
Qed.

End Composition.

(** The order of the two filters matters for the errors: a suspended row
    with an unreadable date makes [exclude_unlimited_days] raise, unless
    [exclude_suspended] has removed the row first. *)
Example suspended_row_with_bad_date :
  exclude_unlimited_days Backtest.digits_only digits_column
    suspended_without_date
  = Raise ValueError
  ∧ ∃ filtered,
      exclude_unlimited_days Backtest.digits_only digits_column
        (exclude_suspended suspended_without_date) = Ok filtered
      ∧ length filtered = 1.
Proof. split; [|eexists; split]; vm_compute; reflexivity. Qed.

Lemma filtered_frame_invariants_witness :
  map row_index (exclude_suspended (removelast suspended_without_date))
  = seq 0 (length (exclude_suspended (removelast suspended_without_date))).
Proof.
  apply (filtered_frame_invariants Backtest.digits_only digits_column
           (removelast suspended_without_date)
           (removelast suspended_without_date)).
  vm_compute. reflexivity.
Defined.

End Filters.

(** ** returns.py: the input row order *)

Module ReturnFacts.
Import Frame Returns.

Lemma by_code_date_index_total (a b : Bar) :
  by_code_date_index a b = true ∨ by_code_date_index b a = true.
Proof.
  unfold by_code_date_index. rewrite (String.eqb_sym (ts_code b)).
  destruct (String.eqb (ts_code a) (ts_code b)); [|apply String.leb_total].
  rewrite (Z.eqb_sym (trade_sort_key b)).
  destruct (Z.eqb_spec (trade_sort_key a) (trade_sort_key b)).
  - rewrite !Nat.leb_le. lia.
  - rewrite !Z.leb_le. lia.
Qed.

Lemma by_code_date_index_trans (a b c : Bar) :
  by_code_date_index a b = true → by_code_date_index b c = true →
  by_code_date_index a c = true.
Proof.
  unfold by_code_date_index.
  destruct (String.eqb_spec (ts_code a) (ts_code b)) as [Hab|Hab];
    destruct (String.eqb_spec (ts_code b) (ts_code c)) as [Hbc|Hbc];
    destruct (String.eqb_spec (ts_code a) (ts_code c)) as [Hac|Hac];
    intros H1 H2; try congruence; eauto using string_leb_trans.
  - revert H1 H2.
    destruct (Z.eqb_spec (trade_sort_key a) (trade_sort_key b));
      destruct (Z.eqb_spec (trade_sort_key b) (trade_sort_key c));
      destruct (Z.eqb_spec (trade_sort_key a) (trade_sort_key c));
      rewrite ?Z.leb_le, ?Nat.leb_le; lia.
  - exfalso. apply Hab. apply String.leb_antisym; [done|]. by rewrite Hac.
Qed.

Lemma by_code_date_index_antisym (a b : Bar) :
  by_code_date_index a b = true → by_code_date_index b a = true →
  row_index a = row_index b.
Proof.
  unfold by_code_date_index. rewrite (String.eqb_sym (ts_code b)).
  destruct (String.eqb_spec (ts_code a) (ts_code b)) as [Hab|Hab].
  - rewrite (Z.eqb_sym (trade_sort_key b)).
    destruct (Z.eqb_spec (trade_sort_key a) (trade_sort_key b)).
    + rewrite !Nat.leb_le. lia.
    + rewrite !Z.leb_le. lia.
  - intros H1 H2. exfalso. apply Hab. by apply String.leb_antisym.
Qed.

(** X22: with distinct index labels the result does not depend on the order
    of the input rows, even when an instrument has several rows on one date:
    the index label breaks the tie, and the rows come back in label order. *)
Theorem returns_independent_of_row_order (daily_df shuffled_df : list Bar) :
  NoDup (map row_index daily_df) →
  shuffled_df ≡ₚ daily_df →
  add_next_day_returns shuffled_df = add_next_day_returns daily_df.
Proof.
  intros Hidx Hperm. unfold add_next_day_returns. do 2 f_equal.
  apply stable_sort_unique.
  - apply by_code_date_index_total.
  - apply by_code_date_index_trans.
  - intros x y Hx Hy H1 H2. rewrite Hperm in Hx, Hy.
    apply (NoDup_fmap_eq row_index daily_df x y Hidx Hx Hy).
    by apply by_code_date_index_antisym.
  - done.
Qed.

Lemma returns_independent_of_row_order_witness :
  add_next_day_returns (reverse test_bars) = add_next_day_returns test_bars.
Proof.
  apply returns_independent_of_row_order.
  - apply (bool_decide_unpack _). vm_compute. exact I.
  - apply reverse_Permutation.
Defined.

End ReturnFacts.

(** ** backtest.py and strategies/: the shape of a result, and the two
    strategies under the two fill models *)

Module BacktestFacts.
Import Frame FillModels Backtest.

(** [BuyNonOneWordLimitUpSellNextOpenStrategy.generate_entries]. *)
Definition non_one_word_entries (self_fill_model : option ModelArg)
    (daily_df : list Bar) : result (list PyVal) :=
  let! _ := ensure_columns daily_df
              ["label_limit_up"; "label_one_word"; "label_sealed"] in
  map_result
    (fun row =>
       let limit_up_flag := normalize_bool (column "label_limit_up" row) in
       let non_one_word_flag :=
         negb (normalize_bool (column "label_one_word" row)) in
       let! model :=
         match self_fill_model with
         | Some model => Ok model
         | None => Raise AttributeError
         end in
       let! can_buy_flag := can_buy_limitup_day (to_dict row) model in
       Ok (PyBool (limit_up_flag && non_one_word_flag && can_buy_flag)))
    daily_df.

Definition BuyNonOneWordLimitUpSellNextOpenStrategy (pd : Pandas) : Strategy :=
  {| name := "buy_non_one_word_limitup_sell_next_open";
     exit_price_type := Some "next_open";
     generate_entries := non_one_word_entries;
     generate_exits := exits_after_entries pd non_one_word_entries |}.

(** The shape the two [generate_entries] share: the required columns, a flag
    read off the row, and the fill model's answer. *)
Definition flag_entries (required_columns : list string) (flag : Bar → bool)
    (self_fill_model : option ModelArg) (daily_df : list Bar)
    : result (list PyVal) :=
  let! _ := ensure_columns daily_df required_columns in
  map_result
    (fun row =>
       let! model :=
         match self_fill_model with
         | Some model => Ok model
         | None => Raise AttributeError
         end in
       let! can_buy_flag := can_buy_limitup_day (to_dict row) model in
       Ok (PyBool (flag row && can_buy_flag)))
    daily_df.

(** A strategy whose entries have that shape and whose exits are the next
    dates of its entries. *)
Definition flag_strategy (pd : Pandas) (strategy : Strategy) : Prop :=
  ∃ required_columns flag,
    generate_entries strategy = flag_entries required_columns flag
    ∧ generate_exits strategy
      = exits_after_entries pd (flag_entries required_columns flag).

(** A trade with another fill model written in its record. *)
Definition with_fill_model (fill_model : FillModel) (t : Trade) : Trade :=
  {| trade_strategy_name := trade_strategy_name t;
     trade_fill_model := fill_model;
     trade_ts_code := trade_ts_code t;
     trade_entry_date := trade_entry_date t;
     trade_entry_price := trade_entry_price t;
     trade_exit_date := trade_exit_date t;
     trade_exit_price := trade_exit_price t;
     trade_ret_net := trade_ret_net t |}.

Definition padded_bars : list Bar :=
  map (λ row, {| ts_code := " " +:+ ts_code row; trade_date := trade_date row;
                 open := open row; close := close row;
                 others := others row |}) two_bars.

(** The result of tests/test_backtest.py without costs, under either fill
    model. *)
Definition two_bars_trade (fill_model : FillModel) : Trade :=
  two_bars_trade_at fill_model 0 0.

Definition two_bars_result (fill_model : FillModel) : BacktestResult :=
  two_bars_outcome fill_model 0 0.

Lemma map_result_Forall2 {A B} (f : A → result B) (l : list A) (ys : list B) :
  map_result f l = Ok ys → Forall2 (λ x y, f x = Ok y) l ys.
Proof.
  revert ys. induction l as [|x l IH]; intros ys; simpl.
  - intros [= <-]. constructor.
  - destruct (f x) as [y|] eqn:Hx; [|done]. simpl.
    destruct (map_result f l) as [ys'|]; [|done]. simpl.
    intros [= <-]. constructor; [done|]. by apply IH.
Qed.

Lemma Forall2_elem_of_l {A B} (R : A → B → Prop) (l : list A) (k : list B)
    (x : A) :
  Forall2 R l k → x ∈ l → ∃ y, y ∈ k ∧ R x y.
Proof.
  induction 1 as [|a b l k Hab _ IH]; intros Hx; [by inversion Hx|].
  apply elem_of_cons in Hx as [->|Hx].
  - exists b. split; [left|done].
  - destruct (IH Hx) as (y & Hy & HR). exists y. split; [by right|done].
Qed.

Lemma Forall2_elem_of_r {A B} (R : A → B → Prop) (l : list A) (k : list B)
    (y : B) :
  Forall2 R l k → y ∈ k → ∃ x, x ∈ l ∧ R x y.
Proof.
  induction 1 as [|a b l k Hab _ IH]; intros Hy; [by inversion Hy|].
  apply elem_of_cons in Hy as [->|Hy].
  - exists a. split; [left|done].
  - destruct (IH Hy) as (x & Hx & HR). exists x. split; [by right|done].
Qed.

Lemma by_entry_date_code_total (a b : Trade) :
  by_entry_date_code a b = true ∨ by_entry_date_code b a = true.
Proof.
  unfold by_entry_date_code. rewrite (String.eqb_sym (trade_entry_date b)).
  destruct (String.eqb (trade_entry_date a) (trade_entry_date b));
    apply String.leb_total.
Qed.

Lemma by_entry_date_code_trans (a b c : Trade) :
  by_entry_date_code a b = true → by_entry_date_code b c = true →
  by_entry_date_code a c = true.
Proof.
  unfold by_entry_date_code.
  destruct (String.eqb_spec (trade_entry_date a) (trade_entry_date b)) as [Hab|Hab];
    destruct (String.eqb_spec (trade_entry_date b) (trade_entry_date c)) as [Hbc|Hbc];
    destruct (String.eqb_spec (trade_entry_date a) (trade_entry_date c)) as [Hac|Hac];
    intros H1 H2; try congruence; eauto using string_leb_trans.
  exfalso. apply Hab. apply String.leb_antisym; [done|]. by rewrite Hac.
Qed.

Lemma fmap_fst_equity_rows (trade_dates : list string) (trades : list Trade)
    (equity : cell) :
  map fst (equity_rows trade_dates trades equity) = trade_dates.
Proof.
  revert equity. induction trade_dates as [|d l IH]; intros equity; [done|].
  simpl. by rewrite IH.
Qed.

Lemma compound_day_no_exit (trade_date : string) (trades : list Trade)
    (equity : cell) :
  (∀ t, t ∈ trades → trade_exit_date t ≠ trade_date) →
  compound_day trade_date trades equity = equity.
Proof.
  intros Hno. unfold compound_day.
  replace (filter (λ t, trade_exit_date t = trade_date) trades) with (@nil Trade);
    [done|].
  symmetry. induction trades as [|t trades IH]; [done|].
  rewrite filter_cons_False by (apply Hno; left).
  apply IH. intros t' Ht'. apply Hno. by right.
Qed.

Lemma equity_rows_no_exit (trade_dates : list string) (trades : list Trade)
    (equity : cell) (before rest : list (string * cell)) (d : string) (e : cell) :
  equity_rows trade_dates trades equity = before ++ (d, e) :: rest →
  (∀ t, t ∈ trades → trade_exit_date t ≠ d) →
  e = default equity (snd <$> last before).
Proof.
  revert equity before.
  induction trade_dates as [|d' l IH]; intros equity before; simpl.
  - by destruct before.
  - destruct before as [|row before]; simpl.
    + intros [= <- <- _] Hno. apply compound_day_no_exit. exact Hno.
    + intros [= <- Hrest] Hno. rewrite (IH _ _ Hrest Hno).
      destruct before as [|row' before]; [done|].
      rewrite last_cons_cons, last_cons. by destruct (last before).
Qed.

Lemma map_result_lookup {A B} (f : A → result B) (l : list A) (ys : list B)
    (i : nat) (x : A) :
  map_result f l = Ok ys → l !! i = Some x →
  ∃ y, f x = Ok y ∧ ys !! i = Some y.
Proof.
  revert ys i. induction l as [|a l IH]; intros ys i; simpl; [done|].
  destruct (f a) as [b|] eqn:Ha; [|done]. simpl.
  destruct (map_result f l) as [ys'|]; [|done]. simpl.
  intros [= <-]. destruct i as [|i]; simpl.
  - intros [= <-]. by exists b.
  - by apply IH.
Qed.

Lemma map_result_length {A B} (f : A → result B) (l : list A) (ys : list B) :
  map_result f l = Ok ys → length ys = length l.
Proof.
  revert ys. induction l as [|a l IH]; intros ys; simpl.
  - by intros [= <-].
  - destruct (f a) as [b|]; [|done]. simpl.
    destruct (map_result f l) as [ys'|]; [|done]. simpl.
    intros [= <-]. simpl. f_equal. by apply IH.
Qed.

Lemma stable_sort_length {A} (le : A → A → bool) (l : list A) :
  length (stable_sort le l) = length l.
Proof. apply Permutation_length, stable_sort_perm. Qed.

Lemma shift_next_date_length (ordered : list (Bar * Z * nat)) :
  length (shift_next_date ordered) = length ordered.
Proof. induction ordered as [|x l IH]; simpl; [done|]. by rewrite IH. Qed.

Lemma normalize_bool_as_bool (v : PyVal) :
  normalize_bool v = true → _as_bool v = true.
Proof.
  destruct v as [|b|z|x|s]; unfold normalize_bool, _as_bool; try done.
  - by intros ->.
  - by intros ->.
Qed.

Lemma ideal_buys_what_conservative_buys (row : gmap string PyVal) :
  can_buy_limitup_day row (ModelEnum CONSERVATIVE) = Ok true →
  can_buy_limitup_day row (ModelEnum IDEAL) = Ok true.
Proof.
  unfold can_buy_limitup_day. simpl.
  by destruct (_get_flag row "label_limit_up" _).
Qed.

Lemma flag_entries_lookup (required_columns : list string) (flag : Bar → bool)
    (model : ModelArg) (daily_df : list Bar) (entries : list PyVal)
    (i : nat) (row : Bar) :
  flag_entries required_columns flag (Some model) daily_df = Ok entries →
  daily_df !! i = Some row →
  ∃ can_buy_flag,
    can_buy_limitup_day (to_dict row) model = Ok can_buy_flag
    ∧ entries !! i = Some (PyBool (flag row && can_buy_flag)).
Proof.
  unfold flag_entries. destruct (ensure_columns _ _); [|done]. simpl.
  intros Hmap Hrow.
  destruct (map_result_lookup _ _ _ _ _ Hmap Hrow) as (e & He & Hlookup).
  simpl in He. destruct (can_buy_limitup_day _ _) as [cb|]; [|done].
  simpl in He. injection He as <-. by exists cb.
Qed.

Lemma flag_entries_length (required_columns : list string) (flag : Bar → bool)
    (self_fill_model : option ModelArg) (daily_df : list Bar)
    (entries : list PyVal) :
  flag_entries required_columns flag self_fill_model daily_df = Ok entries →
  length entries = length daily_df.
Proof.
  unfold flag_entries. destruct (ensure_columns _ _); [|done]. simpl.
  apply map_result_length.
Qed.

Section Results.

Variable pd : Pandas.

Lemma parse_trade_dates_spec (trade_dates : list string) (parsed : list Z) :
  parse_trade_dates pd trade_dates = Ok parsed →
  Forall2 (λ text z, to_datetime pd (strip text) = Some z) trade_dates parsed.
Proof.
  intros H. apply map_result_Forall2 in H.
  eapply Forall2_impl; [exact H|]. intros text z. simpl.
  by destruct (to_datetime pd (strip text)); intros [= ->].
Qed.

Lemma working_daily_dates (daily_df : list Bar) (parsed : list Z) :
  length daily_df = length parsed →
  map trade_date
    (zip_with (λ row date, set_trade_date (strftime_ymd pd date) row)
       daily_df parsed)
  = map (strftime_ymd pd) parsed.
Proof.
  revert parsed. induction daily_df as [|row l IH]; intros [|z parsed] Hlen;
    try done.
  simpl. f_equal. apply IH. simpl in Hlen. lia.
Qed.

(** X23: the trades of a result are ordered by entry date, and by instrument
    code within one entry date. *)
Theorem trades_sorted_by_entry_date_and_code (daily_df : list Bar)
    (strategy : Strategy) (self_fill_model after : option ModelArg)
    (fill_model : ModelArg) (fee_bps slippage_bps : Q)
    (result : BacktestResult) :
  run_backtest pd daily_df strategy self_fill_model fill_model
    fee_bps slippage_bps = (Ok result, after) →
  StronglySorted (λ t t', by_entry_date_code t t' = true) (trades result).
Proof.
  intros Hrun. apply run_backtest_stages in Hrun
    as (? & ? & ? & ? & records & ? & _ & _ & _ & _ & _ & _ & ->).
  simpl. apply stable_sort_strongly.
  - apply by_entry_date_code_total.
  - apply by_entry_date_code_trans.
Qed.

(** X24: the equity curve has one row per distinct trade date of the frame, in
    ascending order; its dates are the input dates as [run_backtest] writes
    them ([%Y%m%d]) and [_build_equity_curve] parses and writes them
    again. *)
Theorem equity_curve_dates (daily_df : list Bar)
    (strategy : Strategy) (self_fill_model after : option ModelArg)
    (fill_model : ModelArg) (fee_bps slippage_bps : Q)
    (result : BacktestResult) :
  run_backtest pd daily_df strategy self_fill_model fill_model
    fee_bps slippage_bps = (Ok result, after) →
  let dates := map fst (equity_curve result) in
  NoDup dates
  ∧ StronglySorted (λ d d', String.leb d d' = true) dates
  ∧ ∀ d, d ∈ dates ↔
      ∃ row day day',
        row ∈ daily_df
        ∧ to_datetime pd (strip (trade_date row)) = Some day
        ∧ to_datetime pd (strip (strftime_ymd pd day)) = Some day'
        ∧ d = strftime_ymd pd day'.
Proof.
  intros Hrun. apply run_backtest_stages in Hrun
    as (? & parsed & ? & ? & records & parsed'
        & _ & Hparsed & _ & _ & _ & Hparsed' & ->).
  cbn [equity_curve]. rewrite fmap_fst_equity_rows.
  apply parse_trade_dates_spec in Hparsed, Hparsed'.
  rewrite working_daily_dates in Hparsed'
    by (apply Forall2_length in Hparsed; by rewrite length_map in Hparsed).
  cbv zeta. split; [|split].
  - rewrite stable_sort_perm. apply NoDup_remove_dups.
  - apply stable_sort_strongly.
    + apply string_leb_total.
    + apply string_leb_trans.
  - intros d. rewrite elem_of_stable_sort, elem_of_remove_dups.
    rewrite list_elem_of_fmap. split.
    + intros (day' & -> & Hday').
      destruct (Forall2_elem_of_r _ _ _ _ Hparsed' Hday')
        as (text & Htext & Hparse').
      apply list_elem_of_fmap in Htext as (day & -> & Hday).
      destruct (Forall2_elem_of_r _ _ _ _ Hparsed Hday)
        as (text & Htext & Hparse).
      apply list_elem_of_fmap in Htext as (row & -> & Hrow).
      by exists row, day, day'.
    + intros (row & day & day' & Hrow & Hday & Hday' & ->).
      exists day'. split; [done|].
      destruct (Forall2_elem_of_l _ _ _ (trade_date row) Hparsed)
        as (z & Hz & Hparse); [by apply list_elem_of_fmap_2|].
      assert (z = day) as -> by congruence.
      destruct (Forall2_elem_of_l _ _ _ (strftime_ymd pd day) Hparsed')
        as (z' & Hz' & Hparse'); [by apply list_elem_of_fmap_2|].
      by assert (z' = day') as -> by congruence.
Qed.

(** X25: the equity only moves on a date on which a trade exits: a row of the
    curve on whose date no trade of the result exits repeats the equity of
    the row before it, or 1.0 when it is the first row. *)
Theorem equity_moves_only_on_exit_dates (daily_df : list Bar)
    (strategy : Strategy) (self_fill_model after : option ModelArg)
    (fill_model : ModelArg) (fee_bps slippage_bps : Q)
    (result : BacktestResult)
    (before rest : list (string * cell)) (d : string) (e : cell) :
  run_backtest pd daily_df strategy self_fill_model fill_model
    fee_bps slippage_bps = (Ok result, after) →
  equity_curve result = before ++ (d, e) :: rest →
  (∀ t, t ∈ trades result → trade_exit_date t ≠ d) →
  e = default (Some 1%Q) (snd <$> last before).
Proof.
  intros Hrun. apply run_backtest_stages in Hrun
    as (? & ? & ? & ? & records & ? & _ & _ & _ & _ & _ & _ & ->).
  cbn [equity_curve trades]. apply equity_rows_no_exit.
Qed.

(** X26: the price table is keyed by the instrument code as written, while an
    entry looks its exit up under the stripped code: when no row of the frame
    carries the stripped code of any row, no exit is found and the result
    has no trades. *)
Theorem padded_codes_never_trade (daily_df : list Bar)
    (strategy : Strategy) (self_fill_model after : option ModelArg)
    (fill_model : ModelArg) (fee_bps slippage_bps : Q)
    (result : BacktestResult) :
  run_backtest pd daily_df strategy self_fill_model fill_model
    fee_bps slippage_bps = (Ok result, after) →
  (∀ row row', row ∈ daily_df → row' ∈ daily_df →
     ts_code row' ≠ strip (ts_code row)) →
  trades result = [].
Proof.
  intros Hrun Hpad. apply run_backtest_stages in Hrun
    as (normalized & parsed & signals & price_lookup & records & ?
        & _ & _ & _ & Hlookup & Hcollect & _ & ->).
  cbn [trades]. destruct records as [|t records]; [done|]. exfalso.
  destruct (collect_trades_inv pd _ _ _ _ _ _ t Hcollect)
    as (entry_row & exit_value & Hin & Htrade); [left|].
  apply trade_of_signal_inv in Htrade as (exit_date & prices & ? & _ & Hk & _).
  destruct (price_lookup_inv pd _ _ _ _ Hlookup Hk)
    as (exit_row & ? & ? & Hexit & _ & _ & [= Hcode _] & _).
  apply elem_of_zip_l, elem_of_zip_l in Hin.
  apply working_daily_rows in Hin as (raw & Hraw & Hc & _).
  apply working_daily_rows in Hexit as (raw' & Hraw' & Hc' & _).
  apply (Hpad raw raw' Hraw Hraw'). congruence.
Qed.

End Results.

Section Strategies.

Variable pd : Pandas.

Lemma first_limitup_is_flag_strategy :
  flag_strategy pd (BuyFirstLimitUpSellNextCloseStrategy pd).
Proof.
  exists ["label_limit_up"; "streak_up"; "label_sealed"; "label_one_word"],
    (λ row, normalize_bool (column "label_limit_up" row)
            && match to_numeric (parse_numeric pd) (column "streak_up" row) with
               | Some streak => Qeq_bool streak 1
               | None => false
               end).
  split; reflexivity.
Qed.

Lemma non_one_word_is_flag_strategy :
  flag_strategy pd (BuyNonOneWordLimitUpSellNextOpenStrategy pd).
Proof.
  exists ["label_limit_up"; "label_one_word"; "label_sealed"],
    (λ row, normalize_bool (column "label_limit_up" row)
            && negb (normalize_bool (column "label_one_word" row))).
  split; reflexivity.
Qed.

Lemma next_trade_date_series_length (daily_df : list Bar)
    (next_dates : list PyVal) :
  next_trade_date_series pd daily_df = Ok next_dates →
  length next_dates = length daily_df.
Proof.
  unfold next_trade_date_series.
  destruct (parse_trade_dates pd _) as [parsed|] eqn:Hparsed; [|done].
  simpl. intros [= <-].
  apply map_result_length in Hparsed. rewrite length_map in Hparsed.
  rewrite length_map, stable_sort_length, shift_next_date_length,
    stable_sort_length, !length_zip, length_seq. lia.
Qed.

Lemma priced_trade_model (strategy : Strategy) (fill_model other : FillModel)
    (c : Q) (stock_code entry_date exit_date : string) (e : Q) (x : cell) :
  priced_trade strategy fill_model c stock_code entry_date exit_date e x
  = match priced_trade strategy other c stock_code entry_date exit_date e x with
    | Ok t => Ok (with_fill_model fill_model t)
    | Raise exn => Raise exn
    end.
Proof. unfold priced_trade. by destruct (Qeq_bool _ 0). Qed.

Lemma trade_of_signal_model (strategy : Strategy) (fill_model other : FillModel)
    (c : Q) (price_lookup : gmap (string * string) (cell * cell))
    (entry_row : Bar) (exit_value : PyVal) :
  trade_of_signal pd strategy fill_model c price_lookup entry_row exit_value
  = match trade_of_signal pd strategy other c price_lookup entry_row
            exit_value with
    | Ok (Some t) => Ok (Some (with_fill_model fill_model t))
    | Ok None => Ok None
    | Raise exn => Raise exn
    end.
Proof.
  unfold trade_of_signal.
  destruct (_normalize_trade_date pd exit_value) as [exit_date|]; [|done].
  destruct (price_lookup !! _) as [prices|]; [|done].
  rewrite !entry_price_to_dict. destruct (close entry_row) as [e|]; [|done].
  cbn [bind]. rewrite (priced_trade_model strategy fill_model other).
  by destruct (priced_trade strategy other _ _ _ _ _ _).
Qed.

Lemma collect_trades_complete (strategy : Strategy) (fill_model : FillModel)
    (c : Q) (price_lookup : gmap (string * string) (cell * cell))
    (signals : list (Bar * bool * PyVal)) (records : list Trade)
    (entry_row : Bar) (exit_value : PyVal) (t : Trade) :
  collect_trades pd strategy fill_model c price_lookup signals = Ok records →
  (entry_row, true, exit_value) ∈ signals →
  trade_of_signal pd strategy fill_model c price_lookup entry_row exit_value
  = Ok (Some t) →
  t ∈ records.
Proof.
  revert records. induction signals as [|[[row entry] exit] signals IH];
    intros records Hcollect Hin Htrade; [by inversion Hin|].
  simpl in Hcollect.
  apply elem_of_cons in Hin as [[= <- <- <-]|Hin].
  - rewrite Htrade in Hcollect. cbn [bind] in Hcollect.
    destruct (collect_trades pd _ _ _ _ signals); [|done].
    injection Hcollect as <-. left.
  - destruct entry.
    + destruct (trade_of_signal pd _ _ _ _ row exit) as [trade|]; [|done].
      cbn [bind] in Hcollect.
      destruct (collect_trades pd _ _ _ _ signals) as [rest|]; [|done].
      injection Hcollect as <-.
      destruct trade; [right|]; by apply IH.
    + by apply IH.
Qed.

(** What [_generate_signals] returns for a strategy of the common shape. *)
Lemma generate_signals_flag_strategy (strategy : Strategy)
    (required_columns : list string) (flag : Bar → bool)
    (daily_df : list Bar) (self_fill_model after : option ModelArg)
    (fill_model : FillModel) (signals : list bool * list PyVal) :
  generate_entries strategy = flag_entries required_columns flag →
  generate_exits strategy
  = exits_after_entries pd (flag_entries required_columns flag) →
  _generate_signals daily_df strategy self_fill_model fill_model
  = (Ok signals, after) →
  ∃ entries next_dates,
    flag_entries required_columns flag
      (if bool_decide (is_Some self_fill_model)
       then Some (ModelEnum fill_model) else self_fill_model) daily_df
    = Ok entries
    ∧ next_trade_date_series pd daily_df = Ok next_dates
    ∧ signals
      = (map normalize_bool entries,
         zip_with (λ entry next_date,
                     if normalize_bool entry then next_date else PyNone)
                  entries next_dates).
Proof.
  intros Hentries Hexits. unfold _generate_signals.
  rewrite Hentries, Hexits. unfold exits_after_entries. cbv zeta.
  destruct (flag_entries _ _ _ daily_df) as [entries|]; [|done].
  cbn [bind].
  destruct (next_trade_date_series pd daily_df) as [next_dates|]; [|done].
  cbn [bind fst snd].
  destruct (negb (_ =? _)%nat); [done|].
  destruct (negb (_ =? _)%nat); [done|].
  intros [= <- _]. by exists entries, next_dates.
Qed.

(** X27: every trade of a CONSERVATIVE run is a trade of the IDEAL run on the
    same frame, with the same dates, prices and return, for each of the two
    strategies of the repository. *)
Theorem conservative_trades_are_ideal_trades (daily_df : list Bar)
    (strategy : Strategy) (self_fill_model after after' : option ModelArg)
    (conservative ideal : ModelArg) (fee_bps slippage_bps : Q)
    (conservative_result ideal_result : BacktestResult) (t : Trade) :
  strategy = BuyFirstLimitUpSellNextCloseStrategy pd
  ∨ strategy = BuyNonOneWordLimitUpSellNextOpenStrategy pd →
  _normalize_fill_model conservative = Ok CONSERVATIVE →
  _normalize_fill_model ideal = Ok IDEAL →
  run_backtest pd daily_df strategy self_fill_model conservative
    fee_bps slippage_bps = (Ok conservative_result, after) →
  run_backtest pd daily_df strategy self_fill_model ideal
    fee_bps slippage_bps = (Ok ideal_result, after') →
  t ∈ trades conservative_result →
  with_fill_model IDEAL t ∈ trades ideal_result.
Proof.
  intros Hstrategy Hc Hi Hrun Hrun'.
  assert (flag_strategy pd strategy) as (columns & flag & Hentries & Hexits).
  { destruct Hstrategy as [->| ->];
      [apply first_limitup_is_flag_strategy
      |apply non_one_word_is_flag_strategy]. }
  apply run_backtest_stages in Hrun
    as (fm & parsed & signals & price_lookup & records & ?
        & Hfm & Hparsed & Hsignals & Hlookup & Hcollect & _ & ->).
  apply run_backtest_stages in Hrun'
    as (fm' & parsed_ & signals' & price_lookup' & records' & ?
        & Hfm' & Hparsed_ & Hsignals' & Hlookup' & Hcollect' & _ & ->).
  assert (fm = CONSERVATIVE) as -> by congruence.
  assert (fm' = IDEAL) as -> by congruence.
  assert (parsed_ = parsed) as -> by congruence.
  assert (price_lookup' = price_lookup) as -> by congruence.
  cbn [trades]. rewrite !elem_of_stable_sort. intros Ht.
  destruct (collect_trades_inv pd _ _ _ _ _ _ t Hcollect Ht)
    as (entry_row & exit_value & Hin & Htrade).
  apply (collect_trades_complete _ _ _ _ _ _ entry_row exit_value _ Hcollect').
  2:{ rewrite (trade_of_signal_model strategy IDEAL CONSERVATIVE).
      by rewrite Htrade. }
  apply list_elem_of_lookup in Hin as [i Hin].
  apply lookup_zip_Some in Hin as [Hin Hexit].
  apply lookup_zip_Some in Hin as [Hrow Hentry].
  apply (list_elem_of_lookup_2 _ i).
  apply lookup_zip_Some. rewrite lookup_zip_Some.
  destruct (generate_signals_flag_strategy _ _ _ _ _ _ _ _
              Hentries Hexits Hsignals)
    as (entries & next_dates & Hflags & Hnext & ->).
  destruct (generate_signals_flag_strategy _ _ _ _ _ _ _ _
              Hentries Hexits Hsignals')
    as (entries' & next_dates' & Hflags' & Hnext' & ->).
  assert (next_dates' = next_dates) as -> by congruence.
  cbn [fst snd] in *.
  destruct self_fill_model as [stored|].
  2:{ rewrite bool_decide_eq_false_2 in Hflags, Hflags'
        by (by intros [? ?]).
      assert (entries' = entries) as -> by congruence. done. }
  rewrite bool_decide_eq_true_2 in Hflags, Hflags' by eauto.
  destruct (flag_entries_lookup _ _ _ _ _ i entry_row Hflags Hrow)
    as (cb & Hcb & He).
  destruct (flag_entries_lookup _ _ _ _ _ i entry_row Hflags' Hrow)
    as (cb' & Hcb' & He').
  rewrite list_lookup_fmap, He in Hentry. simpl in Hentry.
  injection Hentry as Hentry. apply andb_prop in Hentry as [Hflag ->].
  apply ideal_buys_what_conservative_buys in Hcb.
  assert (cb' = true) as -> by congruence.
  rewrite lookup_zip_with, He in Hexit. rewrite Hflag in Hexit, He'.
  simpl in Hexit.
  split; [split; [done|]|].
  - by rewrite list_lookup_fmap, He'.
  - rewrite lookup_zip_with, He'. simpl. exact Hexit.
Qed.

(** X28: the two strategies of the repository never trip the length checks of
    [_generate_signals]: when their [generate_entries] and [generate_exits]
    return, each returns one value per row of the frame. *)
Theorem strategy_signals_have_frame_length (strategy : Strategy)
    (self_fill_model : option ModelArg) (daily_df : list Bar) :
  strategy = BuyFirstLimitUpSellNextCloseStrategy pd
  ∨ strategy = BuyNonOneWordLimitUpSellNextOpenStrategy pd →
  (∀ entries, generate_entries strategy self_fill_model daily_df = Ok entries →
     length entries = length daily_df)
  ∧ (∀ exits, generate_exits strategy self_fill_model daily_df = Ok exits →
       length exits = length daily_df).
Proof.
  intros Hstrategy.
  assert (flag_strategy pd strategy) as (columns & flag & -> & ->).
  { destruct Hstrategy as [->| ->];
      [apply first_limitup_is_flag_strategy
      |apply non_one_word_is_flag_strategy]. }
  split.
  - intros entries. apply flag_entries_length.
  - intros exits. unfold exits_after_entries.
    destruct (flag_entries _ _ _ _) as [entries|] eqn:Hentries; [|done].
    cbn [bind].
    destruct (next_trade_date_series pd daily_df) as [next_dates|] eqn:Hnext;
      [|done].
    cbn [bind]. intros [= <-].
    apply flag_entries_length in Hentries.
    apply next_trade_date_series_length in Hnext.
    rewrite length_zip_with. lia.
Qed.

(** X29: under CONSERVATIVE the first-limit-up strategy never enters where the
    non-one-word strategy does not: when the former returns its entries the
    latter returns too, and has an entry on every row the former has one. *)
Theorem first_limitup_entries_are_non_one_word_entries
    (model : ModelArg) (daily_df : list Bar) (entries : list PyVal) :
  _normalize_model model = Ok CONSERVATIVE →
  first_limitup_entries pd (Some model) daily_df = Ok entries →
  ∃ entries',
    non_one_word_entries (Some model) daily_df = Ok entries'
    ∧ Forall2 (λ entry entry',
                 normalize_bool entry = true → normalize_bool entry' = true)
        entries entries'.
Proof.
  intros Hmodel. unfold first_limitup_entries, non_one_word_entries.
  destruct (ensure_columns daily_df [_; _; _; _]) eqn:Hcols; [|done].
  assert (ensure_columns daily_df
            ["label_limit_up"; "label_one_word"; "label_sealed"] = Ok tt) as ->.
  { unfold ensure_columns in *. cbn [forallb] in *.
    destruct (forallb _ daily_df); [|done].
    destruct (forallb _ daily_df); [|done].
    destruct (forallb _ daily_df); [|done].
    by destruct (forallb _ daily_df). }
  cbn [bind]. clear Hcols. revert entries.
  induction daily_df as [|row daily_df IH]; intros entries.
  - intros [= <-]. exists []. split; [done|constructor].
  - cbn [map_result bind].
    destruct (can_buy_limitup_day (to_dict row) model) as [cb|] eqn:Hcb;
      [|done].
    cbn [bind].
    destruct (map_result _ daily_df) as [rest|]; [|done].
    cbn [bind]. intros [= <-].
    destruct (IH rest eq_refl) as (rest' & -> & Hrest).
    cbn [bind]. eexists. split; [reflexivity|].
    constructor; [|done].
    cbn [normalize_bool]. intros H.
    apply andb_prop in H as [H ->]. apply andb_prop in H as [-> _].
    rewrite andb_true_r. cbn [andb]. apply negb_true_iff.
    destruct (normalize_bool (column "label_one_word" row)) eqn:Hone; [|done].
    apply normalize_bool_as_bool in Hone. exfalso.
    revert Hcb. unfold can_buy_limitup_day. rewrite Hmodel. cbn [bind].
    destruct (negb _); [done|].
    assert (_get_flag (to_dict row) "label_one_word" (Some "one_word") = true)
      as ->; [|by rewrite orb_true_r].
    unfold _get_flag, to_dict, column in *.
    rewrite !lookup_insert_ne by done.
    destruct (others row !! "label_one_word") as [v|] eqn:Hv; [done|].
    by simpl in Hone.
Qed.

End Strategies.

Lemma two_bars_run (fill_model : FillModel) :
  run_backtest digits_only two_bars
    (BuyFirstLimitUpSellNextCloseStrategy digits_only)
    (Some (ModelEnum CONSERVATIVE)) (ModelEnum fill_model) 0 0
  = (Ok (two_bars_result fill_model), Some (ModelEnum CONSERVATIVE)).
Proof. destruct fill_model; vm_compute; reflexivity. Qed.

Lemma trades_sorted_by_entry_date_and_code_witness :
  StronglySorted (λ t t', by_entry_date_code t t' = true)
    (trades (two_bars_result IDEAL)).
Proof.
  apply (trades_sorted_by_entry_date_and_code digits_only two_bars
           (BuyFirstLimitUpSellNextCloseStrategy digits_only)
           (Some (ModelEnum CONSERVATIVE)) (Some (ModelEnum CONSERVATIVE))
           (ModelEnum IDEAL) 0 0 (two_bars_result IDEAL)).
  vm_compute. reflexivity.
Defined.

Lemma equity_curve_dates_witness :
  NoDup (map fst (equity_curve (two_bars_result IDEAL))).
Proof.
  apply (equity_curve_dates digits_only two_bars
           (BuyFirstLimitUpSellNextCloseStrategy digits_only)
           (Some (ModelEnum CONSERVATIVE)) (Some (ModelEnum CONSERVATIVE))
           (ModelEnum IDEAL) 0 0 (two_bars_result IDEAL)).
  vm_compute. reflexivity.
Defined.

Lemma equity_moves_only_on_exit_dates_witness :
  Some 1%Q = default (Some 1%Q) (snd <$> last (@nil (string * cell))).
Proof.
  apply (equity_moves_only_on_exit_dates digits_only two_bars
           (BuyFirstLimitUpSellNextCloseStrategy digits_only)
           (Some (ModelEnum CONSERVATIVE)) (Some (ModelEnum CONSERVATIVE))
           (ModelEnum IDEAL) 0 0 (two_bars_result IDEAL) []
           (tail (equity_curve (two_bars_result IDEAL))) "20240102" (Some 1%Q)).
  - vm_compute. reflexivity.
  - reflexivity.
  - intros t Ht. apply list_elem_of_singleton in Ht as ->. discriminate.
Defined.

Lemma padded_codes_never_trade_witness :
  trades {| trades := [];
            equity_curve := [("20240102", Some 1%Q); ("20240103", Some 1%Q)] |}
  = [].
Proof.
  apply (padded_codes_never_trade digits_only padded_bars
           (BuyFirstLimitUpSellNextCloseStrategy digits_only)
           (Some (ModelEnum CONSERVATIVE)) (Some (ModelEnum CONSERVATIVE))
           (ModelEnum IDEAL) 0 0).
  - vm_compute. reflexivity.
  - intros row row' Hrow Hrow'. unfold padded_bars, two_bars in Hrow, Hrow'.
    cbn [map] in Hrow, Hrow'.
    apply elem_of_cons in Hrow as [->|Hrow];
      [|apply list_elem_of_singleton in Hrow as ->];
      (apply elem_of_cons in Hrow' as [->|Hrow'];
       [|apply list_elem_of_singleton in Hrow' as ->]);
      vm_compute; discriminate.
Defined.

Lemma conservative_trades_are_ideal_trades_witness :
  with_fill_model IDEAL (two_bars_trade CONSERVATIVE)
  ∈ trades (two_bars_result IDEAL).
Proof.
  apply (conservative_trades_are_ideal_trades digits_only two_bars
           (BuyFirstLimitUpSellNextCloseStrategy digits_only)
           (Some (ModelEnum CONSERVATIVE)) (Some (ModelEnum CONSERVATIVE))
           (Some (ModelEnum CONSERVATIVE))
           (ModelText "conservative") (ModelText " ideal") 0 0
           (two_bars_result CONSERVATIVE) (two_bars_result IDEAL)).
  - left. reflexivity.
  - reflexivity.
  - reflexivity.
  - vm_compute. reflexivity.
  - vm_compute. reflexivity.
  - apply list_elem_of_here.
Defined.

Lemma strategy_signals_have_frame_length_witness :
  length [PyBool true; PyBool false] = length two_bars.
Proof.
  apply (proj1 (strategy_signals_have_frame_length digits_only
                  (BuyFirstLimitUpSellNextCloseStrategy digits_only)
                  (Some (ModelEnum IDEAL)) two_bars (or_introl eq_refl))).
  vm_compute. reflexivity.
Defined.

Lemma first_limitup_entries_are_non_one_word_entries_witness :
  ∃ entries',
    non_one_word_entries (Some (ModelEnum CONSERVATIVE)) two_bars = Ok entries'
    ∧ Forall2 (λ entry entry',
                 normalize_bool entry = true → normalize_bool entry' = true)
        [PyBool true; PyBool false] entries'.
Proof.
  apply (first_limitup_entries_are_non_one_word_entries digits_only
           (ModelEnum CONSERVATIVE) two_bars).
  - reflexivity.
  - vm_compute. reflexivity.
Defined.

End BacktestFacts.
